(** * cogeo-mosaic: the mosaic backend, embedded and verified

    A shallow embedding of [cogeo_mosaic/backends/base.py] (the
    [BaseBackend] class) and of [cogeo_mosaic/utils.py] ([bbox_union],
    [transform_point], [tiles_to_bounds], [get_dataset_info],
    [get_footprints]).

    Conventions.
    - Python [int] is [Z]. A coordinate of a box (a Python [float] that is
      a number) is the rational [Qc] it stands for: boxes are only compared,
      and comparisons of such floats are exact. Arithmetic on floats (the
      midpoint of [update]) is IEEE 754 binary64 arithmetic, rounded to
      nearest, on the Standard Library's [spec_float].
    - A Python [dict] is an association list in insertion order ([dict_get],
      [dict_set]); [list(dict.fromkeys(xs))] is [dict_fromkeys].
    - A raising function returns [inl] of the exception; code that threads
      the [TTLCache] or opens assets runs in the state monad [M].
    - What the class receives from outside (the storage method [write], the
      asset reader, rasterio's [transform], rio-tiler's [mosaic_reader],
      [MosaicJSON.from_features], [get_hash], the cache's eviction) is a
      field of the class [Externals].
    - The parameter [reverse] of [tile] and [point] is [reverse_order]. *)

From Stdlib Require Import Ascii QArith Qcanon Qround.
From Stdlib Require SpecFloat.
From stdpp Require Import base strings numbers sets list.

#[local] Open Scope Z_scope.
#[local] Set Warnings "-clear-no-such-hyp".

(** ** Exceptions *)

(** Errors of the tiling library (morecantile). *)
Inductive morecantile_error : Type :=
| QuadKeyError
| NoQuadkeySupport
| InvalidZoomError.

(** Errors of the raster reader (rio_tiler.errors), by class. *)
Inductive rio_error : Type :=
| PointOutsideBounds
| TileOutsideBounds
| EmptyMosaicError
| RioTilerError (name : string).

(** Everything a backend method can raise. [NoAssetFoundError] is
    [cogeo_mosaic.errors.NoAssetFoundError]; [IndexError] is Python's. *)
Inductive exn : Type :=
| NoAssetFoundError
| IndexError
| TmsError (e : morecantile_error)
| ReaderError (e : rio_error)
| BackendError (msg : string).

Definition result (A : Type) : Type := (exn + A)%type.

#[global] Instance morecantile_error_eq_dec : EqDecision morecantile_error.
Proof. solve_decision. Defined.
#[global] Instance rio_error_eq_dec : EqDecision rio_error.
Proof. solve_decision. Defined.
#[global] Instance exn_eq_dec : EqDecision exn.
Proof. solve_decision. Defined.

(** ** Python built-ins *)

(** [range(a, b)]. *)
Definition py_range (a b : Z) : list Z :=
  map (fun i => a + Z.of_nat i) (seq 0 (Z.to_nat (b - a))).

(** [range(a, 0, -1)]: a, a-1, ..., 1. *)
Definition py_range_down (a : Z) : list Z :=
  map (fun i => a - Z.of_nat i) (seq 0 (Z.to_nat a)).

(** [min(a, b)] and [max(a, b)] on two arguments: the first one is kept
    unless the second is strictly smaller (larger). *)
Definition py_min (a b : Qc) : Qc := if decide (b < a)%Qc then b else a.
Definition py_max (a b : Qc) : Qc := if decide (a < b)%Qc then b else a.

(** [list(dict.fromkeys(xs))]: the keys of a dict filled from [xs]; a key
    already present keeps its position. *)
Definition fromkeys_step {A} `{EqDecision A} (keys : list A) (x : A) : list A :=
  if decide (x ∈ keys) then keys else keys ++ [x].

Definition dict_fromkeys {A} `{EqDecision A} (xs : list A) : list A :=
  fold_left fromkeys_step xs [].

(** The first-occurrence deduplication of the specification: the element at
    position [i] is kept exactly when it does not occur before [i]. *)
Definition dedup_first {A} `{EqDecision A} (xs : list A) : list A :=
  concat (imap (fun i x => if decide (x ∈ take i xs) then [] else [x]) xs).

(** [d[k]] when [k in d]. *)
Fixpoint dict_lookup {V} (d : list (string * V)) (k : string) : option V :=
  match d with
  | [] => None
  | (k', v) :: d' => if decide (k' = k) then Some v else dict_lookup d' k
  end.

(** [d.get(k, default)]. *)
Definition dict_get {V} (d : list (string * V)) (k : string) (default : V) : V :=
  match dict_lookup d k with
  | Some v => v
  | None => default
  end.

(** [d[k] = v]: an existing key keeps its position, a new key goes last. *)
Fixpoint dict_set {V} (d : list (string * V)) (k : string) (v : V) : list (string * V) :=
  match d with
  | [] => [(k, v)]
  | (k', v') :: d' => if decide (k' = k) then (k, v) :: d' else (k', v') :: dict_set d' k v
  end.

(** ** Tiles and the tile matrix set (morecantile) *)

Record Tile : Type := mkTile { tile_x : Z; tile_y : Z; tile_z : Z }.

#[global] Instance Tile_eq_dec : EqDecision Tile.
Proof. solve_decision. Defined.

(** The operations of [morecantile.TileMatrixSet] that the backend calls.
    morecantile is an external library: a backend is generic in them. *)
Record TileMatrixSet : Type := mkTMS {
  tms_tile : Qc -> Qc -> Z -> Tile;
  tms_parent : Tile -> list Tile;
  tms_children : Tile -> list Tile;
  tms_quadkey : Tile -> morecantile_error + string;
  tms_quadkey_to_tile : string -> morecantile_error + Tile
}.

(** *** The quadtree scheme (WebMercatorQuad, the backend's default)

    The default [tms] is morecantile's [WebMercatorQuad]. morecantile is an
    external library, not among the sources: its operations are modelled
    from what the specification says of the scheme, with the integer
    arithmetic of the library. The projection of a point to a tile is
    floating-point trigonometry and stays a parameter. *)

(** Modelled from the spec: [TileMatrixSet.parent] in "a quadtree where each
    tile has exactly one parent": column and row are halved; the tile at
    zoom 0 has no parent. *)
Definition qt_parent (t : Tile) : list Tile :=
  if decide (tile_z t = 0) then []
  else [mkTile (tile_x t / 2) (tile_y t / 2) (tile_z t - 1)].

(** Modelled from the spec: [TileMatrixSet.children], where "each step
    replaces a tile with its 4 children". *)
Definition qt_children (t : Tile) : list Tile :=
  [ mkTile (2 * tile_x t) (2 * tile_y t) (tile_z t + 1);
    mkTile (2 * tile_x t) (2 * tile_y t + 1) (tile_z t + 1);
    mkTile (2 * tile_x t + 1) (2 * tile_y t) (tile_z t + 1);
    mkTile (2 * tile_x t + 1) (2 * tile_y t + 1) (tile_z t + 1) ].

(** [str(digit)] for a quadkey digit. *)
Definition digit_char (digit : Z) : ascii :=
  if decide (digit = 0) then "0"%char
  else if decide (digit = 1) then "1"%char
  else if decide (digit = 2) then "2"%char
  else "3"%char.

(** One turn of the loop of [quadkey]: the digit of zoom level [zz], from
    the bit [zz - 1] of the column (worth 1) and of the row (worth 2). *)
Definition quadkey_digit (t : Tile) (zz : Z) : ascii :=
  let mask := Z.shiftl 1 (zz - 1) in
  let digit := 0 in
  let digit := if decide (Z.land (tile_x t) mask = 0) then digit else digit + 1 in
  let digit := if decide (Z.land (tile_y t) mask = 0) then digit else digit + 2 in
  digit_char digit.

(** Modelled from the spec: [TileMatrixSet.quadkey], the "hierarchical
    string key derived from a tile's column, row, and zoom level, such that
    any tile's key is a prefix of all its descendants' keys": one base-4
    digit per zoom level, the coarsest first. *)
Definition qt_quadkey (t : Tile) : string :=
  String.string_of_list_ascii (map (quadkey_digit t) (py_range_down (tile_z t))).

(** The loop of [quadkey_to_tile] over [enumerate(reversed(qk))]; [i] is the
    index of the next digit. *)
Fixpoint quadkey_to_tile_loop (digits : list ascii) (i xtile ytile : Z)
  : morecantile_error + Tile :=
  match digits with
  | [] => inr (mkTile xtile ytile i)
  | digit :: rest =>
    let mask := Z.shiftl 1 i in
    if decide (digit = "1"%char) then
      quadkey_to_tile_loop rest (i + 1) (Z.lor xtile mask) ytile
    else if decide (digit = "2"%char) then
      quadkey_to_tile_loop rest (i + 1) xtile (Z.lor ytile mask)
    else if decide (digit = "3"%char) then
      quadkey_to_tile_loop rest (i + 1) (Z.lor xtile mask) (Z.lor ytile mask)
    else if decide (digit <> "0"%char) then inl QuadKeyError
    else quadkey_to_tile_loop rest (i + 1) xtile ytile
  end.

(** Modelled from the spec: [TileMatrixSet.quadkey_to_tile], the tile of a
    key; the empty key is the tile at zoom 0, a character that is no digit
    is an error. *)
Definition qt_quadkey_to_tile (qk : string) : morecantile_error + Tile :=
  if decide (String.length qk = 0%nat) then inr (mkTile 0 0 0)
  else quadkey_to_tile_loop (reverse (String.list_ascii_of_string qk)) 0 0 0.

Definition WebMercatorQuad (project : Qc -> Qc -> Z -> Tile) : TileMatrixSet :=
  {| tms_tile := project;
     tms_parent := qt_parent;
     tms_children := qt_children;
     tms_quadkey := fun t => inr (qt_quadkey t);
     tms_quadkey_to_tile := qt_quadkey_to_tile |}.

(** ** find_quadkeys *)

(** [for _ in range(depth): tile = self.tms.parent(tile)[0]]. *)
Fixpoint walk_up (tms : TileMatrixSet) (depth : nat) (t : Tile) : result Tile :=
  match depth with
  | O => inr t
  | S d =>
    match tms_parent tms t with
    | [] => inl IndexError
    | p :: _ => walk_up tms d p
    end
  end.

(** [for _ in range(depth): tiles = sum([children(t) for t in tiles], [])]. *)
Fixpoint walk_down (tms : TileMatrixSet) (depth : nat) (tiles : list Tile) : list Tile :=
  match depth with
  | O => tiles
  | S d => walk_down tms d (concat (map (tms_children tms) tiles))
  end.

(** [[self.tms.quadkey(tile) for tile in tiles]]: the first failure is raised. *)
Fixpoint quadkeys_of (tms : TileMatrixSet) (tiles : list Tile) : result (list string) :=
  match tiles with
  | [] => inr []
  | t :: rest =>
    match tms_quadkey tms t with
    | inl e => inl (TmsError e)
    | inr qk =>
      match quadkeys_of tms rest with
      | inl e => inl e
      | inr qks => inr (qk :: qks)
      end
    end
  end.

Definition find_quadkeys (tms : TileMatrixSet) (t : Tile) (quadkey_zoom : Z)
  : result (list string) :=
  if decide (quadkey_zoom < tile_z t) then
    let depth := tile_z t - quadkey_zoom in
    match walk_up tms (Z.to_nat depth) t with
    | inl e => inl e
    | inr t' => quadkeys_of tms [t']
    end
  else if decide (tile_z t < quadkey_zoom) then
    let depth := quadkey_zoom - tile_z t in
    let tiles := walk_down tms (Z.to_nat depth) [t] in
    let tiles := filter (fun t' => tile_z t' = quadkey_zoom) tiles in
    quadkeys_of tms tiles
  else quadkeys_of tms [t].

(** ** cogeo_mosaic.utils *)

(** A bounding box [(left, bottom, right, top)]. *)
Definition BBox : Type := (Qc * Qc * Qc * Qc)%type.

Definition bbox_left (b : BBox) : Qc := b.1.1.1.
Definition bbox_bottom (b : BBox) : Qc := b.1.1.2.
Definition bbox_right (b : BBox) : Qc := b.1.2.
Definition bbox_top (b : BBox) : Qc := b.2.

Definition bbox_union (bbox_1 bbox_2 : BBox) : BBox :=
  (py_min (bbox_left bbox_1) (bbox_left bbox_2),
   py_min (bbox_bottom bbox_1) (bbox_bottom bbox_2),
   py_max (bbox_right bbox_1) (bbox_right bbox_2),
   py_max (bbox_top bbox_1) (bbox_top bbox_2)).

(** A coordinate reference system, by its EPSG code. *)
Inductive CRS : Type := EPSG (code : Z).

#[global] Instance CRS_eq_dec : EqDecision CRS.
Proof. solve_decision. Defined.

Definition WGS84_CRS : CRS := EPSG 4326.
Definition WEB_MERCATOR_CRS : CRS := EPSG 3857.

(** ** Python floats *)

(** A Python [float] is an IEEE 754 binary64 number: 53 bits of precision,
    infinities at the exponent 1024. *)
Definition float : Type := SpecFloat.spec_float.

#[global] Instance float_eq_dec : EqDecision float.
Proof. solve_decision. Defined.

(** [a + b] and [a / b] on floats, each rounded to nearest, ties to even. *)
Definition float_add (a b : float) : float := SpecFloat.SFadd 53 1024 a b.
Definition float_truediv (a b : float) : float := SpecFloat.SFdiv 53 1024 a b.

(** [float(n)] for an int, as when an int meets a float in an operation. *)
Definition float_of_int (n : Z) : float := SpecFloat.binary_normalize 53 1024 n 0 false.

(** The float nearest to the quotient of two positive integers. *)
Definition round_quotient (sign : bool) (n d : positive) : float :=
  let '(mz, ez, lz) := SpecFloat.SFdiv_core_binary 53 1024 (Zpos n) 0 (Zpos d) 0 in
  SpecFloat.binary_round_aux 53 1024 sign mz ez lz.

(** The float that a coordinate stands for: the float of that value when the
    rational is the value of a float (the nearest float otherwise); a zero is
    the positive zero. *)
Definition float_of_Qc (q : Qc) : float :=
  match Qnum q with
  | Z0 => SpecFloat.S754_zero false
  | Zpos n => round_quotient false n (Qden q)
  | Zneg n => round_quotient true n (Qden q)
  end.

(** ** The mosaic document *)

(** Modelled from the spec: the document class [MosaicJSON]
    (cogeo_mosaic/mosaic.py) is not among the sources. Its fields are those
    of the specification's data model and document schema: [quadkey_zoom]
    and [name] are optional, [tiles] maps a quadkey to its ordered assets. *)
Module MosaicJSON.
Record t : Type := mk {
  version : string;
  name : option string;
  minzoom : Z;
  maxzoom : Z;
  quadkey_zoom : option Z;
  bounds : BBox;
  center : float * float * Z;
  tiles : list (string * list string)
}.
End MosaicJSON.

(** The attributes of [BaseBackend] ([reader] and [reader_options] are part
    of [Externals] below). *)
Record BaseBackend : Type := mkBackend {
  input : string;
  mosaic_def : MosaicJSON.t;
  tms : TileMatrixSet;
  crs : CRS;
  geographic_crs : CRS;
  minzoom : Z;
  maxzoom : Z;
  bounds : BBox
}.

(** ** What the backend receives from outside *)

Class Externals : Type := {
  (** [cogeo_mosaic.backends.utils.get_hash] of the document: the sha224
      fingerprint behind [mosaicid]. *)
  Digest : Type;
  Digest_eq_dec :: EqDecision Digest;
  get_hash : MosaicJSON.t -> Digest;
  (** What the [TTLCache] still holds at a given tick of its clock (expiry by
      time-to-live and eviction by size). *)
  cache_expire :
    nat -> list ((string * Z * Z * Z * Digest) * list string)
        -> list ((string * Z * Z * Z * Digest) * list string);
  (** [MosaicJSON._increase_version] and [MosaicJSON.from_features]. *)
  increase_version : string -> string;
  Feature : Type;
  from_features : list Feature -> Z -> Z -> Z -> result MosaicJSON.t;
  (** The abstract method [write]. *)
  write : BaseBackend -> bool -> result unit;
  (** [rasterio.warp.transform] on one point and [transform_bounds]. *)
  transform : CRS -> CRS -> Qc -> Qc -> Qc * Qc;
  transform_bounds : CRS -> CRS -> Qc -> Qc -> Qc -> Qc -> BBox;
  (** The dataset reader: [src_dst.tile] and [src_dst.point]. *)
  ImageData : Type;
  PointData : Type;
  reader_tile : TileMatrixSet -> string -> Z -> Z -> Z -> rio_error + ImageData;
  reader_point : TileMatrixSet -> string -> Qc -> Qc -> CRS -> rio_error + PointData;
  (** [rio_tiler.mosaic.mosaic_reader], over the log of opened assets. *)
  mosaic_reader :
    list string
    -> (string -> list string -> (rio_error + ImageData) * list string)
    -> list string -> (rio_error + (ImageData * list string)) * list string
}.

Definition CacheKey `{Externals} : Type := (string * Z * Z * Z * Digest)%type.

Definition transform_point `{Externals} (lng lat : Qc) (src_crs dst_crs : CRS) : Qc * Qc :=
  if decide (src_crs <> dst_crs) then transform src_crs dst_crs lng lat
  else (lng, lat).

(** ** State: the cache and the log of opened assets *)

Record State `{Externals} : Type := mkState {
  clock : nat;
  cache : list (CacheKey * list string);
  opened : list string
}.

Definition M `{Externals} (A : Type) : Type := State -> result A * State.

Definition ret `{Externals} {A} (a : A) : M A := fun st => (inr a, st).
Definition raise `{Externals} {A} (e : exn) : M A := fun st => (inl e, st).
Definition lift `{Externals} {A} (r : result A) : M A := fun st => (r, st).
Definition bind `{Externals} {A B} (m : M A) (k : A -> M B) : M B :=
  fun st => match m st with
            | (inl e, st') => (inl e, st')
            | (inr a, st') => k a st'
            end.

Notation "'do' x <- m ; k" := (bind m (fun x => k))
  (at level 10, x name, m at level 100, k at level 200).

(** [[f(a) for a in xs]] in [M]. *)
Fixpoint mapM `{Externals} {A B} (f : A -> M B) (xs : list A) : M (list B) :=
  match xs with
  | [] => ret []
  | a :: rest => do v <- f a; do vs <- mapM f rest; ret (v :: vs)
  end.

(** *** cachetools: [TTLCache] and [cached] *)

Fixpoint cache_lookup `{Externals} (k : CacheKey) (entries : list (CacheKey * list string))
  : option (list string) :=
  match entries with
  | [] => None
  | (k', v) :: rest => if decide (k' = k) then Some v else cache_lookup k rest
  end.

(** [cache[k]]: expired entries are gone when the cache is read. *)
Definition cache_getitem `{Externals} (k : CacheKey) : M (option (list string)) :=
  fun st =>
    let entries := cache_expire (clock st) (cache st) in
    (inr (cache_lookup k entries),
     {| clock := S (clock st); cache := entries; opened := opened st |}).

(** [cache[k] = v]: the entry replaces an older one for [k]; storing may
    evict entries (the new one too, when the cache has no room). *)
Definition cache_setitem `{Externals} (k : CacheKey) (v : list string) : M unit :=
  fun st =>
    let entries := (k, v) :: filter (fun e => e.1 <> k) (cache st) in
    (inr tt,
     {| clock := S (clock st); cache := cache_expire (clock st) entries;
        opened := opened st |}).

(** The wrapper of [cachetools.cached]: a hit returns the stored value; on a
    miss the function runs, and its value is stored unless it raised. *)
Definition cached `{Externals} (k : CacheKey) (func : result (list string)) : M (list string) :=
  do hit <- cache_getitem k;
  match hit with
  | Some v => ret v
  | None => do v <- lift func; do _ <- cache_setitem k v; ret v
  end.

(** ** BaseBackend *)

(** [a or b] on an optional int: [None] and [0] are falsy. *)
Definition py_or (a : option Z) (b : Z) : Z :=
  match a with
  | Some q => if decide (q = 0) then b else q
  | None => b
  end.

(** The property [quadkey_zoom]. *)
Definition quadkey_zoom (self : BaseBackend) : Z :=
  py_or (MosaicJSON.quadkey_zoom (mosaic_def self)) (MosaicJSON.minzoom (mosaic_def self)).

(** The property [mosaicid]. *)
Definition mosaicid `{Externals} (self : BaseBackend) : Digest :=
  get_hash (mosaic_def self).

(** The body of [get_assets], under the [cached] decorator. *)
Definition get_assets_uncached (self : BaseBackend) (x y z : Z) : result (list string) :=
  let t := mkTile x y z in
  match find_quadkeys (tms self) t (quadkey_zoom self) with
  | inl e => inl e
  | inr quadkeys =>
    inr (dict_fromkeys
           (concat (map (fun qk => dict_get (MosaicJSON.tiles (mosaic_def self)) qk [])
                        quadkeys)))
  end.

(** [hashkey(self.input, x, y, z, self.mosaicid)]. *)
Definition cache_key `{Externals} (self : BaseBackend) (x y z : Z) : CacheKey :=
  (input self, x, y, z, mosaicid self).

Definition get_assets `{Externals} (self : BaseBackend) (x y z : Z) : M (list string) :=
  cached (cache_key self x y z) (get_assets_uncached self x y z).

Definition assets_for_point `{Externals} (self : BaseBackend) (lng lat : Qc) (coord_crs : CRS)
  : M (list string) :=
  let '(lng, lat) := transform_point lng lat coord_crs (geographic_crs self) in
  let t := tms_tile (tms self) lng lat (quadkey_zoom self) in
  get_assets self (tile_x t) (tile_y t) (tile_z t).

(** The tiles scanned by [assets_for_bbox]: columns outside, rows inside. *)
Definition bbox_tiles (tl_tile br_tile : Tile) (zoom : Z) : list Tile :=
  concat (map (fun x => map (fun y => mkTile x y zoom)
                            (py_range (tile_y tl_tile) (tile_y br_tile + 1)))
              (py_range (tile_x tl_tile) (tile_x br_tile + 1))).

(** The box of [assets_for_bbox] once in the geographic CRS. *)
Definition geographic_bbox `{Externals} (self : BaseBackend) (xmin ymin xmax ymax : Qc)
    (coord_crs : CRS) : BBox :=
  if decide (coord_crs <> geographic_crs self)
  then transform_bounds coord_crs (geographic_crs self) xmin ymin xmax ymax
  else (xmin, ymin, xmax, ymax).

(** [tl_tile] and [br_tile]. *)
Definition corner_tiles `{Externals} (self : BaseBackend) (xmin ymin xmax ymax : Qc)
    (coord_crs : CRS) : Tile * Tile :=
  let '(xmin, ymin, xmax, ymax) := geographic_bbox self xmin ymin xmax ymax coord_crs in
  (tms_tile (tms self) xmin ymax (quadkey_zoom self),
   tms_tile (tms self) xmax ymin (quadkey_zoom self)).

Definition assets_for_bbox `{Externals} (self : BaseBackend) (xmin ymin xmax ymax : Qc)
    (coord_crs : CRS) : M (list string) :=
  let '(tl_tile, br_tile) := corner_tiles self xmin ymin xmax ymax coord_crs in
  let tiles := bbox_tiles tl_tile br_tile (quadkey_zoom self) in
  do per_tile <- mapM (fun t => get_assets self (tile_x t) (tile_y t) (tile_z t)) tiles;
  ret (dict_fromkeys (concat per_tile)).

(** *** update *)

(** The backend with [self.mosaic_def.tiles] replaced. *)
Definition with_tiles (self : BaseBackend) (new_tiles : list (string * list string))
  : BaseBackend :=
  let d := mosaic_def self in
  {| input := input self;
     mosaic_def :=
       {| MosaicJSON.version := MosaicJSON.version d;
          MosaicJSON.name := MosaicJSON.name d;
          MosaicJSON.minzoom := MosaicJSON.minzoom d;
          MosaicJSON.maxzoom := MosaicJSON.maxzoom d;
          MosaicJSON.quadkey_zoom := MosaicJSON.quadkey_zoom d;
          MosaicJSON.bounds := MosaicJSON.bounds d;
          MosaicJSON.center := MosaicJSON.center d;
          MosaicJSON.tiles := new_tiles |};
     tms := tms self; crs := crs self; geographic_crs := geographic_crs self;
     minzoom := minzoom self; maxzoom := maxzoom self; bounds := bounds self |}.

(** [self.mosaic_def.tiles[quadkey] = assets]. *)
Definition set_tiles (self : BaseBackend) (quadkey : string) (assets : list string)
  : BaseBackend :=
  with_tiles self (dict_set (MosaicJSON.tiles (mosaic_def self)) quadkey assets).

(** The loop of [update] over [new_mosaic.tiles.items()]. The backend is
    mutated in place: it is returned also when a turn raises. *)
Fixpoint update_tiles `{Externals} (self : BaseBackend) (items : list (string * list string))
    (add_first : bool) (st : State) : result unit * BaseBackend * State :=
  match items with
  | [] => (inr tt, self, st)
  | (quadkey, new_assets) :: rest =>
    match tms_quadkey_to_tile (tms self) quadkey with
    | inl e => (inl (TmsError e), self, st)
    | inr t =>
      match get_assets self (tile_x t) (tile_y t) (tile_z t) st with
      | (inl e, st') => (inl e, self, st')
      | (inr assets, st') =>
        let assets := if add_first then new_assets ++ assets else assets ++ new_assets in
        update_tiles (set_tiles self quadkey assets) rest add_first st'
      end
    end
  end.

(** The end of [update]: version, bounds and center of the document, and
    the backend's own [bounds]. *)
Definition commit `{Externals} (self : BaseBackend) (new_bounds : BBox) : BaseBackend :=
  let d := mosaic_def self in
  let bounds := bbox_union new_bounds (MosaicJSON.bounds d) in
  {| input := input self;
     mosaic_def :=
       {| MosaicJSON.version := increase_version (MosaicJSON.version d);
          MosaicJSON.name := MosaicJSON.name d;
          MosaicJSON.minzoom := MosaicJSON.minzoom d;
          MosaicJSON.maxzoom := MosaicJSON.maxzoom d;
          MosaicJSON.quadkey_zoom := MosaicJSON.quadkey_zoom d;
          MosaicJSON.bounds := bounds;
          MosaicJSON.center :=
            (float_truediv (float_add (float_of_Qc (bbox_left bounds))
                                      (float_of_Qc (bbox_right bounds)))
                           (float_of_int 2),
             float_truediv (float_add (float_of_Qc (bbox_bottom bounds))
                                      (float_of_Qc (bbox_top bounds)))
                           (float_of_int 2),
             MosaicJSON.minzoom d);
          MosaicJSON.tiles := MosaicJSON.tiles d |};
     tms := tms self; crs := crs self; geographic_crs := geographic_crs self;
     minzoom := minzoom self; maxzoom := maxzoom self; bounds := bounds |}.

Definition update `{Externals} (self : BaseBackend) (features : list Feature)
    (add_first : bool) (st : State) : result unit * BaseBackend * State :=
  match from_features features (MosaicJSON.minzoom (mosaic_def self))
                      (MosaicJSON.maxzoom (mosaic_def self)) (quadkey_zoom self) with
  | inl e => (inl e, self, st)
  | inr new_mosaic =>
    match update_tiles self (MosaicJSON.tiles new_mosaic) add_first st with
    | (inl e, self1, st1) => (inl e, self1, st1)
    | (inr _, self1, st1) =>
      let self2 := commit self1 (MosaicJSON.bounds new_mosaic) in
      (write self2 true, self2, st1)
    end
  end.

(** *** tile and point *)

(** The closure [_reader] of [tile]: the asset is opened, then read. *)
Definition tile_reader `{Externals} (self : BaseBackend) (x y z : Z) (asset : string)
    (log : list string) : (rio_error + ImageData) * list string :=
  (reader_tile (tms self) asset x y z, log ++ [asset]).

(** A call into rio-tiler, which sees the log of opened assets only. *)
Definition lift_rio `{Externals} {A}
    (f : list string -> (rio_error + A) * list string) : M A :=
  fun st =>
    let '(r, log) := f (opened st) in
    (match r with inl e => inl (ReaderError e) | inr a => inr a end,
     {| clock := clock st; cache := cache st; opened := log |}).

Definition tile `{Externals} (self : BaseBackend) (x y z : Z) (reverse_order : bool)
  : M (ImageData * list string) :=
  do mosaic_assets <- get_assets self x y z;
  if decide (mosaic_assets = []) then raise NoAssetFoundError
  else
    let mosaic_assets := if reverse_order then reverse mosaic_assets else mosaic_assets in
    lift_rio (mosaic_reader mosaic_assets (tile_reader self x y z)).

(** rio_tiler.tasks: [create_tasks] submits one read per asset to the thread
    pool; [filter_tasks] goes through the outcomes in asset order, skips an
    allowed exception and lets any other propagate; [multi_values] collects
    what is left in a dict keyed by asset. *)
Fixpoint create_tasks {A} (reader : string -> list string -> (rio_error + A) * list string)
    (asset_list : list string) (log : list string)
  : list ((rio_error + A) * string) * list string :=
  match asset_list with
  | [] => ([], log)
  | asset :: rest =>
    let '(r, log') := reader asset log in
    let '(tasks, log'') := create_tasks reader rest log' in
    ((r, asset) :: tasks, log'')
  end.

Fixpoint filter_tasks {A} (tasks : list ((rio_error + A) * string))
    (allowed_exceptions : list rio_error) : rio_error + list (A * string) :=
  match tasks with
  | [] => inr []
  | (inr val, asset) :: rest =>
    match filter_tasks rest allowed_exceptions with
    | inl e => inl e
    | inr vals => inr ((val, asset) :: vals)
    end
  | (inl e, _) :: rest =>
    if decide (e ∈ allowed_exceptions) then filter_tasks rest allowed_exceptions
    else inl e
  end.

Definition multi_values {A} (asset_list : list string)
    (reader : string -> list string -> (rio_error + A) * list string)
    (allowed_exceptions : list rio_error) (log : list string)
  : (rio_error + list (string * A)) * list string :=
  let '(tasks, log') := create_tasks reader asset_list log in
  (match filter_tasks tasks allowed_exceptions with
   | inl e => inl e
   | inr vals => inr (fold_left (fun d va => dict_set d va.2 va.1) vals [])
   end, log').

(** The closure [_reader] of [point]: the asset is opened, the point is
    transformed from [coord_crs], then read. *)
Definition point_reader `{Externals} (self : BaseBackend) (lon lat : Qc) (coord_crs : CRS)
    (asset : string) (log : list string) : (rio_error + PointData) * list string :=
  let '(lon, lat) := transform_point lon lat coord_crs (geographic_crs self) in
  (reader_point (tms self) asset lon lat (geographic_crs self), log ++ [asset]).

(** [allowed_exceptions] is the keyword argument of that name when the caller
    passes one ([None] when [kwargs] has none). [assets_for_point] is called
    without [coord_crs], so with its default. *)
Definition point `{Externals} (self : BaseBackend) (lon lat : Qc) (reverse_order : bool)
    (coord_crs : CRS) (allowed_exceptions : option (list rio_error))
  : M (list (string * PointData)) :=
  do mosaic_assets <- assets_for_point self lon lat WGS84_CRS;
  if decide (mosaic_assets = []) then raise NoAssetFoundError
  else
    let mosaic_assets := if reverse_order then reverse mosaic_assets else mosaic_assets in
    let allowed :=
      match allowed_exceptions with
      | None => [PointOutsideBounds]
      | Some given => given
      end in
    lift_rio (multi_values mosaic_assets (point_reader self lon lat coord_crs) allowed).

(** ** Specification-side notions *)

(** The ancestor of a tile at a coarser zoom, by arithmetic: each level up
    halves the column and the row. *)
Definition ancestor (t : Tile) (zoom : Z) : Tile :=
  mkTile (tile_x t / 2 ^ (tile_z t - zoom)) (tile_y t / 2 ^ (tile_z t - zoom)) zoom.

(** The digits of a quadkey. *)
Definition quadkey_char (c : ascii) : Prop :=
  c = "0"%char \/ c = "1"%char \/ c = "2"%char \/ c = "3"%char.

Definition valid_quadkey (qk : string) : Prop :=
  Forall quadkey_char (String.list_ascii_of_string qk).

(** The column bit and the row bit a digit stands for. *)
Definition col_bit (c : ascii) : bool :=
  bool_decide (c = "1"%char) || bool_decide (c = "3"%char).
Definition row_bit (c : ascii) : bool :=
  bool_decide (c = "2"%char) || bool_decide (c = "3"%char).

(** The bit that the digits [ds] contribute at position [i + k]. *)
Definition digit_bit (sel : ascii -> bool) (ds : list ascii) (k : Z) : bool :=
  if decide (0 <= k) then
    match ds !! Z.to_nat k with
    | Some c => sel c
    | None => false
    end
  else false.

(** The content of a document that [get_assets] and the fingerprint read. *)
Definition same_content (d d' : MosaicJSON.t) : Prop :=
  (forall k, dict_lookup (MosaicJSON.tiles d) k = dict_lookup (MosaicJSON.tiles d') k)
  /\ MosaicJSON.bounds d = MosaicJSON.bounds d'
  /\ MosaicJSON.version d = MosaicJSON.version d'
  /\ MosaicJSON.minzoom d = MosaicJSON.minzoom d'
  /\ MosaicJSON.maxzoom d = MosaicJSON.maxzoom d'
  /\ MosaicJSON.quadkey_zoom d = MosaicJSON.quadkey_zoom d'.

(** Modelled from the spec: [get_hash] (cogeo_mosaic/backends/utils.py) is
    not among the sources. The specification asks of the fingerprint that it
    "must change whenever tiles, bounds, version, or zoom fields change":
    equal fingerprints mean equal content. *)
Definition fingerprint_faithful `{Externals} : Prop :=
  forall d d', get_hash d = get_hash d' -> same_content d d'.

(** Expiry and eviction only remove entries. *)
Definition expire_drops_only `{Externals} : Prop :=
  forall t entries e, e ∈ cache_expire t entries -> e ∈ entries.

(** An entry is sound when its value was computed by [get_assets] on a
    backend (over the tile matrix set [tms0]) whose document has the
    fingerprint of the entry's key. *)
Definition entry_sound `{Externals} (tms0 : TileMatrixSet) (e : CacheKey * list string) : Prop :=
  exists self, tms self = tms0
               /\ e.1 = cache_key self e.1.1.1.1.2 e.1.1.1.2 e.1.1.2
               /\ get_assets_uncached self e.1.1.1.1.2 e.1.1.1.2 e.1.1.2 = inr e.2.

Definition cache_sound `{Externals} (tms0 : TileMatrixSet) (st : State) : Prop :=
  forall e, e ∈ cache st -> entry_sound tms0 e.

(** The cache holds no wrong answer for [self]: an entry under a key of
    [self] holds what the body of [get_assets] computes for that tile. *)
Definition cache_fresh `{Externals} (self : BaseBackend) (st : State) : Prop :=
  forall x y z v,
    (cache_key self x y z, v) ∈ cache st -> get_assets_uncached self x y z = inr v.

(** The inclusive rectangle of tiles between two corner tiles, column by
    column from the left and, within a column, row by row from the top: the
    tile at position [k] is in column [k / ny] and row [k mod ny] of the
    rectangle, [ny] being its number of rows. *)
Definition rectangle_scan (tl_tile br_tile : Tile) (zoom : Z) : list Tile :=
  let nx := Z.to_nat (tile_x br_tile + 1 - tile_x tl_tile) in
  let ny := Z.to_nat (tile_y br_tile + 1 - tile_y tl_tile) in
  map (fun k => mkTile (tile_x tl_tile + Z.of_nat (k / ny))
                       (tile_y tl_tile + Z.of_nat (k mod ny)) zoom)
      (seq 0 (nx * ny)).


(** One box contains another. *)
Definition bbox_contains (outer inner : BBox) : Prop :=
  (bbox_left outer <= bbox_left inner)%Qc
  /\ (bbox_bottom outer <= bbox_bottom inner)%Qc
  /\ (bbox_right inner <= bbox_right outer)%Qc
  /\ (bbox_top inner <= bbox_top outer)%Qc.

(** [m] is the smaller (the larger) of [a] and [b]. *)
Definition is_min (m a b : Qc) : Prop := (m <= a)%Qc /\ (m <= b)%Qc /\ (m = a \/ m = b).
Definition is_max (m a b : Qc) : Prop := (a <= m)%Qc /\ (b <= m)%Qc /\ (m = a \/ m = b).

(** What reading the point in one asset gives: the outcome of the closure
    [_reader] of [point]. *)
Definition point_value `{Externals} (self : BaseBackend) (lon lat : Qc) (coord_crs : CRS)
    (asset : string) : rio_error + PointData :=
  (point_reader self lon lat coord_crs asset []).1.

(** The (asset, value) pairs of the assets whose read succeeded. *)
Definition successful_values `{Externals} (self : BaseBackend) (lon lat : Qc)
    (coord_crs : CRS) (assets : list string) : list (string * PointData) :=
  omap (fun asset => match point_value self lon lat coord_crs asset with
                     | inr val => Some (asset, val)
                     | inl _ => None
                     end) assets.

(** How often [a] occurs in [l]. *)
Definition occurrences (a : string) (l : list string) : nat :=
  length (filter (fun b => b = a) l).

(** ** More of BaseBackend: construction, summary and key list *)

(** The converter of the attribute [mosaic_def]: [None] stays [None], a
    document is rebuilt from its own fields. *)
Definition _convert_to_mosaicjson (value : option MosaicJSON.t) : option MosaicJSON.t :=
  match value with
  | Some v => Some v
  | None => None
  end.

(** Construction of a backend: the attributes as passed to the generated
    [__init__] (the document through its converter), then the body of
    [__attrs_post_init__]. [_read] is the abstract method of the storage
    subclass; it fetches the document from [input]. The caller's [minzoom]
    and [maxzoom] are attributes too, and are overwritten. *)
Definition __attrs_post_init__ (_read : string -> result MosaicJSON.t)
    (input0 : string) (mosaic_def0 : option MosaicJSON.t) (tms0 : TileMatrixSet)
    (crs0 geographic_crs0 : CRS) (minzoom0 maxzoom0 : Z) : result BaseBackend :=
  let fetched :=
    match _convert_to_mosaicjson mosaic_def0 with
    | Some d => inr d
    | None => _read input0
    end in
  match fetched with
  | inl e => inl e
  | inr d =>
    inr (mkBackend input0 d tms0 crs0 geographic_crs0
                   (MosaicJSON.minzoom d) (MosaicJSON.maxzoom d) (MosaicJSON.bounds d))
  end.

(** The property [_quadkeys]: [list(self.mosaic_def.tiles)], the keys in
    insertion order. *)
Definition _quadkeys (self : BaseBackend) : list string :=
  (MosaicJSON.tiles (mosaic_def self)).*1.

(** The property [center]. *)
Definition center (self : BaseBackend) : float * float * Z :=
  MosaicJSON.center (mosaic_def self).

(** The class [Info] (cogeo_mosaic/models.py), by the keyword arguments of
    its one call. *)
Module Info.
Record t : Type := mk {
  bounds : BBox;
  center : float * float * Z;
  maxzoom : Z;
  minzoom : Z;
  name : string;
  quadkeys : list string
}.
End Info.

(** [info]: a missing or empty name is falsy. *)
Definition info (self : BaseBackend) (quadkeys : bool) : Info.t :=
  let d := mosaic_def self in
  {| Info.bounds := MosaicJSON.bounds d;
     Info.center := MosaicJSON.center d;
     Info.maxzoom := MosaicJSON.maxzoom d;
     Info.minzoom := MosaicJSON.minzoom d;
     Info.name :=
       match MosaicJSON.name d with
       | Some n => if decide (n = EmptyString) then "mosaic"%string else n
       | None => "mosaic"%string
       end;
     Info.quadkeys := if negb quadkeys then [] else _quadkeys self |}.

(** ** More of cogeo_mosaic.utils *)




(** A finished future: [future.result()] returns a value or raises; of the
    exception only [str(err)] is used. [_filter_futures] yields the values
    and logs a warning for each exception. *)
Fixpoint _filter_futures {A} (tasks : list (string + A)) (warnings : list string)
  : list A * list string :=
  match tasks with
  | [] => ([], warnings)
  | inr value :: rest =>
    let '(values, warnings') := _filter_futures rest warnings in
    (value :: values, warnings')
  | inl err :: rest => _filter_futures rest (warnings ++ [err])
  end.

(** What [get_dataset_info] reads from an open dataset. *)
Record Dataset : Type := mkDataset {
  geographic_bounds : BBox;
  dataset_minzoom : Z;
  dataset_maxzoom : Z;
  dtype : string
}.

(** The GeoJSON feature that [get_dataset_info] returns: the ring of the
    polygon and the properties. *)
Module Footprint.
Record t : Type := mk {
  coordinates : list (Qc * Qc);
  path : string;
  bounds : BBox;
  minzoom : Z;
  maxzoom : Z;
  datatype : string
}.
End Footprint.

(** [get_dataset_info]; [open_dataset] is rio-tiler's [Reader] on a path
    (it raises when the dataset cannot be read) and [truncate_lnglat] the
    method of the tile matrix set. *)
Definition get_dataset_info (open_dataset : string -> string + Dataset)
    (truncate_lnglat : Qc -> Qc -> Qc * Qc) (src_path : string) : string + Footprint.t :=
  match open_dataset src_path with
  | inl err => inl err
  | inr src =>
    let bounds := geographic_bounds src in
    inr {| Footprint.coordinates :=
             [ truncate_lnglat (bbox_left bounds) (bbox_top bounds);
               truncate_lnglat (bbox_left bounds) (bbox_bottom bounds);
               truncate_lnglat (bbox_right bounds) (bbox_bottom bounds);
               truncate_lnglat (bbox_right bounds) (bbox_top bounds);
               truncate_lnglat (bbox_left bounds) (bbox_top bounds) ];
           Footprint.path := src_path;
           Footprint.bounds := bounds;
           Footprint.minzoom := dataset_minzoom src;
           Footprint.maxzoom := dataset_maxzoom src;
           Footprint.datatype := dtype src |}
  end.

(** [get_footprints]: one task per dataset is submitted to the pool and all
    are awaited; the futures are then filtered in the order of submission. *)
Definition get_footprints (open_dataset : string -> string + Dataset)
    (truncate_lnglat : Qc -> Qc -> Qc * Qc) (dataset_list : list string)
    (warnings : list string) : list Footprint.t * list string :=
  let future_work := map (get_dataset_info open_dataset truncate_lnglat) dataset_list in
  _filter_futures future_work warnings.

(** ** More specification-side notions *)

(** A box with its left side not right of its right side and its bottom
    not above its top. *)
Definition bbox_valid (b : BBox) : Prop :=
  (bbox_left b <= bbox_right b)%Qc /\ (bbox_bottom b <= bbox_top b)%Qc.

(** The backend's own zooms and bounds are those of its document. *)
Definition backend_consistent (self : BaseBackend) : Prop :=
  minzoom self = MosaicJSON.minzoom (mosaic_def self)
  /\ maxzoom self = MosaicJSON.maxzoom (mosaic_def self)
  /\ bounds self = MosaicJSON.bounds (mosaic_def self).


(** The index cells of a tile in the quadtree: for a tile at or below the
    index zoom its ancestor there, for a coarser tile its descendants. *)
Definition index_cell (t : Tile) (zoom : Z) (c : Tile) : Prop :=
  if decide (zoom <= tile_z t) then c = ancestor t zoom
  else tile_z c = zoom /\ ancestor c (tile_z t) = t.

(** ** A concrete setting

    A small index at zoom 4 over the quadtree scheme, with stand-ins for what
    comes from outside: points project to the tile of their integer parts,
    the fingerprint of a document is the document, nothing expires, and the
    transform from EPSG:3857 shifts the longitude by one. The asset
    ["a.tif"] covers no point; every other asset reads 7 everywhere. *)

#[global] Instance MosaicJSON_eq_dec : EqDecision MosaicJSON.t.
Proof. solve_decision. Defined.

Definition demo_project (lng lat : Qc) (zoom : Z) : Tile :=
  mkTile (Qfloor lng) (Qfloor lat) zoom.

Definition demo_mosaic_reader (assets : list string)
    (reader : string -> list string -> (rio_error + string) * list string)
    (log : list string) : (rio_error + (string * list string)) * list string :=
  match assets with
  | [] => (inl EmptyMosaicError, log)
  | asset :: _ =>
    let '(r, log') := reader asset log in
    (match r with inl e => inl e | inr img => inr (img, [asset]) end, log')
  end.

Definition demo_externals : Externals :=
  {| Digest := MosaicJSON.t;
     get_hash := fun d => d;
     cache_expire := fun _ entries => entries;
     increase_version := fun v => (v +:+ ".1")%string;
     Feature := MosaicJSON.t;
     from_features := fun features _ _ _ =>
       match features with
       | new_mosaic :: _ => inr new_mosaic
       | [] => inl (BackendError "no features")
       end;
     write := fun _ _ => inr tt;
     transform := fun src _ lng lat =>
       if decide (src = WEB_MERCATOR_CRS) then ((lng - Q2Qc 1)%Qc, lat) else (lng, lat);
     transform_bounds := fun _ _ xmin ymin xmax ymax => (xmin, ymin, xmax, ymax);
     ImageData := string;
     PointData := Z;
     reader_tile := fun _ asset _ _ _ => inr asset;
     reader_point := fun _ asset _ _ _ =>
       if decide (asset = "a.tif"%string) then inl PointOutsideBounds else inr 7;
     mosaic_reader := demo_mosaic_reader |}.

Definition demo_box (l b r t : Z) : BBox :=
  (Q2Qc (inject_Z l), Q2Qc (inject_Z b), Q2Qc (inject_Z r), Q2Qc (inject_Z t)).

Definition demo_document (tiles : list (string * list string)) : MosaicJSON.t :=
  {| MosaicJSON.version := "1.0.0";
     MosaicJSON.name := None;
     MosaicJSON.minzoom := 4;
     MosaicJSON.maxzoom := 8;
     MosaicJSON.quadkey_zoom := Some 4;
     MosaicJSON.bounds := demo_box 0 0 8 8;
     MosaicJSON.center := (float_of_int 4, float_of_int 4, 4);
     MosaicJSON.tiles := tiles |}.

Definition demo_backend (tiles : list (string * list string)) : BaseBackend :=
  {| input := "mosaic.json";
     mosaic_def := demo_document tiles;
     tms := WebMercatorQuad demo_project;
     crs := WEB_MERCATOR_CRS;
     geographic_crs := WGS84_CRS;
     minzoom := 4;
     maxzoom := 8;
     bounds := demo_box 0 0 8 8 |}.

(** Key "0123" is the tile (5, 3, 4), key "0132" the tile (6, 3, 4) and key
    "0000" the tile (0, 0, 4). *)
Definition demo_tiles : list (string * list string) :=
  [ ("0123", ["a.tif"]); ("0132", ["b.tif"]); ("0000", ["a.tif"; "b.tif"]) ]%string.

(** New observations: ["b.tif"] over key "0123". *)
Definition demo_features : list MosaicJSON.t :=
  [ {| MosaicJSON.version := "1.0.0";
       MosaicJSON.name := None;
       MosaicJSON.minzoom := 4;
       MosaicJSON.maxzoom := 8;
       MosaicJSON.quadkey_zoom := Some 4;
       MosaicJSON.bounds := demo_box (-1) 2 5 9;
       MosaicJSON.center := (float_of_int 2, float_of_int 5, 4);
       MosaicJSON.tiles := [("0123", ["b.tif"])]%string |} ].

Definition demo_state : @State demo_externals :=
  {| clock := 0; cache := []; opened := [] |}.

(** A backend whose document stores the quadkey zoom 0 under [minzoom] 4. *)
Definition demo_zoom_zero : BaseBackend :=
  {| input := "mosaic.json";
     mosaic_def :=
       {| MosaicJSON.version := "1.0.0";
          MosaicJSON.name := None;
          MosaicJSON.minzoom := 4;
          MosaicJSON.maxzoom := 8;
          MosaicJSON.quadkey_zoom := Some 0;
          MosaicJSON.bounds := demo_box 0 0 8 8;
          MosaicJSON.center := (float_of_int 4, float_of_int 4, 4);
          MosaicJSON.tiles := demo_tiles |};
     tms := WebMercatorQuad demo_project;
     crs := WEB_MERCATOR_CRS;
     geographic_crs := WGS84_CRS;
     minzoom := 4;
     maxzoom := 8;
     bounds := demo_box 0 0 8 8 |}.



(** The demo index updated with the new observations. *)
Definition demo_updated (tiles : list (string * list string)) (add_first : bool)
  : result unit * BaseBackend * @State demo_externals :=
  @update demo_externals (demo_backend tiles) demo_features add_first demo_state.

(** New observations that bring a key the index does not have yet:
    "0001", the tile (1, 0, 4). *)
Definition demo_features_new_key : list MosaicJSON.t :=
  [ {| MosaicJSON.version := "1.0.0";
       MosaicJSON.name := None;
       MosaicJSON.minzoom := 4;
       MosaicJSON.maxzoom := 8;
       MosaicJSON.quadkey_zoom := Some 4;
       MosaicJSON.bounds := demo_box (-1) 2 5 9;
       MosaicJSON.center := (float_of_int 2, float_of_int 5, 4);
       MosaicJSON.tiles := [("0001", ["c.tif"]); ("0123", ["b.tif"])]%string |} ].

(** The same stand-ins over a storage that refuses to write. *)
Definition demo_readonly : Externals :=
  {| Digest := MosaicJSON.t;
     get_hash := fun d => d;
     cache_expire := fun _ entries => entries;
     increase_version := fun v => (v +:+ ".1")%string;
     Feature := MosaicJSON.t;
     from_features := fun features _ _ _ =>
       match features with
       | new_mosaic :: _ => inr new_mosaic
       | [] => inl (BackendError "no features")
       end;
     write := fun _ _ => inl (BackendError "read-only storage");
     transform := fun _ _ lng lat => (lng, lat);
     transform_bounds := fun _ _ xmin ymin xmax ymax => (xmin, ymin, xmax, ymax);
     ImageData := string;
     PointData := Z;
     reader_tile := fun _ asset _ _ _ => inr asset;
     reader_point := fun _ _ _ _ _ => inr 7;
     mosaic_reader := demo_mosaic_reader |}.

Definition demo_readonly_state : @State demo_readonly :=
  {| clock := 0; cache := []; opened := [] |}.

(** A storage that holds the demo document under "mosaic.json". *)
Definition demo_read (path : string) : result MosaicJSON.t :=
  if decide (path = "mosaic.json"%string) then inr (demo_document demo_tiles)
  else inl (BackendError "no such mosaic").


(** Datasets: "missing.tif" cannot be opened, every other path covers the
    unit box. *)
Definition demo_open_dataset (path : string) : string + Dataset :=
  if decide (path = "missing.tif"%string) then inl "missing.tif: no such file"%string
  else inr {| geographic_bounds := demo_box 0 0 1 1;
              dataset_minzoom := 4;
              dataset_maxzoom := 8;
              dtype := "uint8" |}.

Definition demo_truncate_lnglat (lng lat : Qc) : Qc * Qc := (lng, lat).

(** The demo index over a tile matrix set that is no quadtree: morecantile
    refuses to compute quadkeys for it. *)
Definition demo_backend_no_quadkey : BaseBackend :=
  {| input := "mosaic.json";
     mosaic_def := demo_document demo_tiles;
     tms := {| tms_tile := demo_project;
               tms_parent := qt_parent;
               tms_children := qt_children;
               tms_quadkey := fun _ => inl NoQuadkeySupport;
               tms_quadkey_to_tile := fun _ => inl NoQuadkeySupport |};
     crs := WEB_MERCATOR_CRS;
     geographic_crs := WGS84_CRS;
     minzoom := 4;
     maxzoom := 8;
     bounds := demo_box 0 0 8 8 |}.

(** * Proofs *)

(** ** Python built-ins *)

Section fromkeys.
Context {A : Type} {EqA : EqDecision A}.

Lemma fromkeys_step_old (keys : list A) (x : A) :
  x ∈ keys -> fromkeys_step keys x = keys.
Proof. intros Hin. unfold fromkeys_step. by rewrite decide_True. Qed.

Lemma fromkeys_step_new (keys : list A) (x : A) :
  x ∉ keys -> fromkeys_step keys x = keys ++ [x].
Proof. intros Hin. unfold fromkeys_step. by rewrite decide_False. Qed.

Lemma fromkeys_fold_positions (xs keys : list A) :
  fold_left fromkeys_step xs keys
  = keys ++ concat (imap (fun i x => if decide (x ∈ keys ++ take i xs) then [] else [x]) xs).
Proof.
  revert keys. induction xs as [|x xs IH]; intros keys.
  - simpl. by rewrite app_nil_r.
  - cbn [fold_left]. rewrite IH. rewrite imap_cons. cbn [concat take].
    rewrite app_nil_r.
    destruct (decide (x ∈ keys)) as [Hin|Hnin].
    + rewrite fromkeys_step_old by done. simpl. do 2 f_equal.
      apply imap_ext. intros i y _. simpl. apply decide_ext. set_solver.
    + rewrite fromkeys_step_new by done. rewrite <- app_assoc. simpl. do 3 f_equal.
      apply imap_ext. intros i y _. simpl. apply decide_ext. set_solver.
Qed.

(** The dict-based deduplication is the first-occurrence deduplication. *)
Lemma dict_fromkeys_dedup_first (xs : list A) : dict_fromkeys xs = dedup_first xs.
Proof.
  unfold dict_fromkeys, dedup_first. by rewrite fromkeys_fold_positions.
Qed.

Lemma fromkeys_fold_elem_of (xs keys : list A) (y : A) :
  y ∈ fold_left fromkeys_step xs keys <-> y ∈ keys \/ y ∈ xs.
Proof.
  revert keys. induction xs as [|x xs IH]; intros keys; simpl.
  - set_solver.
  - rewrite IH. destruct (decide (x ∈ keys)).
    + rewrite fromkeys_step_old by done. set_solver.
    + rewrite fromkeys_step_new by done. set_solver.
Qed.

Lemma fromkeys_fold_NoDup (xs keys : list A) :
  NoDup keys -> NoDup (fold_left fromkeys_step xs keys).
Proof.
  revert keys. induction xs as [|x xs IH]; intros keys Hnd; simpl; [done|].
  apply IH. destruct (decide (x ∈ keys)).
  { by rewrite fromkeys_step_old. }
  rewrite fromkeys_step_new by done.
  apply NoDup_app. split_and!; [done| |apply NoDup_singleton].
  set_solver.
Qed.

Lemma fromkeys_fold_id (xs keys : list A) :
  NoDup (keys ++ xs) -> fold_left fromkeys_step xs keys = keys ++ xs.
Proof.
  revert keys. induction xs as [|x xs IH]; intros keys Hnd; simpl.
  - by rewrite app_nil_r.
  - destruct (decide (x ∈ keys)) as [Hin|Hnin].
    + exfalso. apply NoDup_app in Hnd as (_ & Hdisj & _).
      apply (Hdisj x Hin). left.
    + rewrite fromkeys_step_new by done.
      rewrite IH; [by rewrite <- app_assoc|].
      by rewrite <- app_assoc.
Qed.

Lemma dict_fromkeys_elem_of (xs : list A) (y : A) : y ∈ dict_fromkeys xs <-> y ∈ xs.
Proof.
  unfold dict_fromkeys. rewrite fromkeys_fold_elem_of. set_solver.
Qed.

Lemma dict_fromkeys_NoDup (xs : list A) : NoDup (dict_fromkeys xs).
Proof. apply fromkeys_fold_NoDup, NoDup_nil_2. Qed.

Lemma dict_fromkeys_id (xs : list A) : NoDup xs -> dict_fromkeys xs = xs.
Proof. intros Hnd. unfold dict_fromkeys. by rewrite fromkeys_fold_id. Qed.

Lemma dict_fromkeys_nil_inv (xs : list A) : dict_fromkeys xs = [] -> xs = [].
Proof.
  intros Hnil. destruct xs as [|x xs]; [done|].
  assert (x ∈ dict_fromkeys (x :: xs)) as Hx by (apply dict_fromkeys_elem_of; left).
  rewrite Hnil in Hx. by apply elem_of_nil in Hx.
Qed.

End fromkeys.

(** The scenario of the specification: [A, B, A, C] gives [A, B, C]. *)
Example dict_fromkeys_scenario :
  dict_fromkeys ["A"; "B"; "A"; "C"]%string = ["A"; "B"; "C"]%string.
Proof. reflexivity. Qed.

Lemma dict_lookup_set_eq {V} (d : list (string * V)) (k : string) (v : V) :
  dict_lookup (dict_set d k v) k = Some v.
Proof.
  induction d as [|[k' v'] d IH]; simpl.
  - by rewrite decide_True.
  - destruct (decide (k' = k)) as [->|Hne]; simpl.
    + by rewrite decide_True.
    + by rewrite decide_False.
Qed.

Lemma dict_lookup_set_ne {V} (d : list (string * V)) (k k' : string) (v : V) :
  k <> k' -> dict_lookup (dict_set d k v) k' = dict_lookup d k'.
Proof.
  intros Hne. induction d as [|[k0 v0] d IH]; simpl.
  - by rewrite decide_False.
  - destruct (decide (k0 = k)) as [->|Hne0]; simpl.
    + by rewrite !decide_False.
    + by rewrite IH.
Qed.

Lemma dict_get_set_eq {V} (d : list (string * V)) (k : string) (v dflt : V) :
  dict_get (dict_set d k v) k dflt = v.
Proof. unfold dict_get. by rewrite dict_lookup_set_eq. Qed.

Lemma dict_get_set_ne {V} (d : list (string * V)) (k k' : string) (v dflt : V) :
  k <> k' -> dict_get (dict_set d k v) k' dflt = dict_get d k' dflt.
Proof. intros Hne. unfold dict_get. by rewrite dict_lookup_set_ne. Qed.

Lemma dict_lookup_absent {V} (d : list (string * V)) (k : string) :
  k ∉ d.*1 -> dict_lookup d k = None.
Proof.
  induction d as [|[k' v] d IH]; simpl; [done|].
  intros Hnin. apply not_elem_of_cons in Hnin as [Hne Hnin].
  rewrite decide_False by done. by apply IH.
Qed.

Lemma dict_set_absent {V} (d : list (string * V)) (k : string) (v : V) :
  k ∉ d.*1 -> dict_set d k v = d ++ [(k, v)].
Proof.
  induction d as [|[k' v'] d IH]; simpl; [done|].
  intros Hnin. apply not_elem_of_cons in Hnin as [Hne Hnin].
  rewrite decide_False by done. by rewrite IH.
Qed.

Lemma occurrences_app (a : string) (l1 l2 : list string) :
  occurrences a (l1 ++ l2) = (occurrences a l1 + occurrences a l2)%nat.
Proof. unfold occurrences. by rewrite filter_app, length_app. Qed.

Lemma occurrences_absent (a : string) (l : list string) :
  a ∉ l -> occurrences a l = 0%nat.
Proof.
  unfold occurrences. induction l as [|b l IH]; intros Hnin; [done|].
  apply not_elem_of_cons in Hnin as [Hne Hnin].
  rewrite filter_cons_False by done. by apply IH.
Qed.

Lemma occurrences_NoDup (a : string) (l : list string) :
  NoDup l -> occurrences a l = if decide (a ∈ l) then 1%nat else 0%nat.
Proof.
  intros Hnd. destruct (decide (a ∈ l)) as [Hin|Hnin]; [|by apply occurrences_absent].
  induction Hnd as [|b l Hb Hnd IH]; [by apply elem_of_nil in Hin|].
  unfold occurrences in *. destruct (decide (b = a)) as [->|Hne].
  - rewrite filter_cons_True by done. simpl. f_equal. by apply occurrences_absent.
  - rewrite filter_cons_False by done. apply IH.
    apply elem_of_cons in Hin as [->|Hin]; done.
Qed.

Lemma elem_of_py_range (a b v : Z) : v ∈ py_range a b <-> a <= v < b.
Proof.
  unfold py_range. rewrite list_elem_of_In, in_map_iff. split.
  - intros (i & <- & Hi). apply in_seq in Hi. lia.
  - intros Hv. exists (Z.to_nat (v - a)). split; [lia|]. apply in_seq. lia.
Qed.

Lemma elem_of_bbox_tiles (tl_tile br_tile : Tile) (zoom : Z) (t : Tile) :
  t ∈ bbox_tiles tl_tile br_tile zoom
  <-> tile_z t = zoom
      /\ tile_x tl_tile <= tile_x t <= tile_x br_tile
      /\ tile_y tl_tile <= tile_y t <= tile_y br_tile.
Proof.
  unfold bbox_tiles. rewrite list_elem_of_In, in_concat. split.
  - intros (row & Hrow & Ht). apply in_map_iff in Hrow as (x & <- & Hx).
    apply in_map_iff in Ht as (y & <- & Hy).
    apply list_elem_of_In, elem_of_py_range in Hx.
    apply list_elem_of_In, elem_of_py_range in Hy. simpl. lia.
  - intros (Hz & Hx & Hy).
    exists (map (fun y => mkTile (tile_x t) y zoom)
                (py_range (tile_y tl_tile) (tile_y br_tile + 1))).
    split.
    + apply in_map_iff. exists (tile_x t). split; [done|].
      apply list_elem_of_In, elem_of_py_range. lia.
    + apply in_map_iff. exists (tile_y t). split; [destruct t; simpl in *; by subst|].
      apply list_elem_of_In, elem_of_py_range. lia.
Qed.


Lemma py_min_is_min (a b : Qc) : is_min (py_min a b) a b.
Proof.
  unfold py_min, is_min. destruct (decide (b < a)%Qc) as [Hlt|Hge].
  - split_and!; [by apply Qclt_le_weak|apply Qcle_refl|by right].
  - split_and!; [apply Qcle_refl|by apply Qcnot_lt_le|by left].
Qed.

Lemma py_max_is_max (a b : Qc) : is_max (py_max a b) a b.
Proof.
  unfold py_max, is_max. destruct (decide (a < b)%Qc) as [Hlt|Hge].
  - split_and!; [by apply Qclt_le_weak|apply Qcle_refl|by right].
  - split_and!; [apply Qcle_refl|by apply Qcnot_lt_le|by left].
Qed.

Lemma bbox_union_contains (bbox_1 bbox_2 : BBox) :
  bbox_contains (bbox_union bbox_1 bbox_2) bbox_1
  /\ bbox_contains (bbox_union bbox_1 bbox_2) bbox_2.
Proof.
  unfold bbox_contains, bbox_union, bbox_left, bbox_bottom, bbox_right, bbox_top. simpl.
  split; split_and!;
    first [apply py_min_is_min | apply py_max_is_max].
Qed.

(** ** The quadtree scheme *)

Lemma walk_up_quadtree project (d : nat) (t : Tile) :
  Z.of_nat d <= tile_z t ->
  walk_up (WebMercatorQuad project) d t
  = inr (mkTile (tile_x t / 2 ^ Z.of_nat d) (tile_y t / 2 ^ Z.of_nat d)
                (tile_z t - Z.of_nat d)).
Proof.
  revert t. induction d as [|d IH]; intros t Hz.
  - simpl. rewrite !Z.div_1_r, Z.sub_0_r. by destruct t.
  - cbn [walk_up WebMercatorQuad tms_parent]. unfold qt_parent.
    destruct (decide (tile_z t = 0)) as [H0|_]; [lia|].
    rewrite IH by (simpl; lia). simpl tile_x; simpl tile_y; simpl tile_z.
    rewrite Nat2Z.inj_succ, Z.pow_succ_r by lia.
    rewrite !Z.div_div by lia.
    f_equal. f_equal. lia.
Qed.

Lemma land_mask_zero (a i : Z) :
  0 <= i -> Z.land a (Z.shiftl 1 i) = 0 <-> Z.testbit a i = false.
Proof.
  intros Hi. rewrite Z.shiftl_1_l. split.
  - intros Hz. assert (Z.testbit (Z.land a (2 ^ i)) i = false) as Hb
      by (rewrite Hz; apply Z.bits_0).
    rewrite Z.land_spec, Z.pow2_bits_true in Hb by done.
    by rewrite andb_true_r in Hb.
  - intros Hb. apply Z.bits_inj'. intros j Hj.
    rewrite Z.land_spec, Z.pow2_bits_eqb, Z.bits_0 by done.
    destruct (Z.eqb_spec i j) as [->|_]; [by rewrite Hb|by rewrite andb_false_r].
Qed.

Lemma lor_mask_testbit (a i j : Z) :
  0 <= i -> Z.testbit (Z.lor a (Z.shiftl 1 i)) j = Z.testbit a j || bool_decide (i = j).
Proof.
  intros Hi. rewrite Z.shiftl_1_l, Z.lor_spec, Z.pow2_bits_eqb by done.
  f_equal. destruct (Z.eqb_spec i j); [by rewrite bool_decide_true|by rewrite bool_decide_false].
Qed.

Lemma quadkey_to_tile_loop_step (c : ascii) (rest : list ascii) (i xtile ytile : Z) :
  quadkey_char c ->
  quadkey_to_tile_loop (c :: rest) i xtile ytile
  = quadkey_to_tile_loop rest (i + 1)
      (if col_bit c then Z.lor xtile (Z.shiftl 1 i) else xtile)
      (if row_bit c then Z.lor ytile (Z.shiftl 1 i) else ytile).
Proof. intros [-> | [-> | [-> | ->]]]; reflexivity. Qed.

Lemma digit_bit_cons (sel : ascii -> bool) (c : ascii) (ds : list ascii) (k : Z) :
  digit_bit sel (c :: ds) k
  = (bool_decide (k = 0) && sel c) || digit_bit sel ds (k - 1).
Proof.
  unfold digit_bit. destruct (decide (0 <= k)) as [Hk|Hk].
  - destruct (decide (k = 0)) as [->|Hk0].
    + simpl. by rewrite orb_false_r.
    + rewrite bool_decide_false by done. simpl.
      rewrite decide_True by lia.
      replace (Z.to_nat k) with (S (Z.to_nat (k - 1))) by lia. done.
  - rewrite bool_decide_false by lia. rewrite decide_False by lia. done.
Qed.

Lemma quadkey_to_tile_loop_bits (ds : list ascii) (i xtile ytile : Z) :
  0 <= i -> Forall quadkey_char ds ->
  exists t,
    quadkey_to_tile_loop ds i xtile ytile = inr t
    /\ tile_z t = i + Z.of_nat (length ds)
    /\ (forall j, 0 <= j ->
          Z.testbit (tile_x t) j = Z.testbit xtile j || digit_bit col_bit ds (j - i))
    /\ (forall j, 0 <= j ->
          Z.testbit (tile_y t) j = Z.testbit ytile j || digit_bit row_bit ds (j - i)).
Proof.
  intros Hi Hds. revert i xtile ytile Hi.
  induction Hds as [|c ds Hc Hds IH]; intros i xtile ytile Hi.
  - exists (mkTile xtile ytile i). simpl. split_and!; [done|lia| |].
    + intros j _. unfold digit_bit. destruct (decide (0 <= j - i)); simpl;
        by rewrite orb_false_r.
    + intros j _. unfold digit_bit. destruct (decide (0 <= j - i)); simpl;
        by rewrite orb_false_r.
  - rewrite quadkey_to_tile_loop_step by done.
    destruct (IH (i + 1)
                (if col_bit c then Z.lor xtile (Z.shiftl 1 i) else xtile)
                (if row_bit c then Z.lor ytile (Z.shiftl 1 i) else ytile))
      as (t & Ht & Hz & Hx & Hy); [lia|].
    exists t. split_and!; [done|simpl; lia| |].
    + intros j Hj. rewrite Hx, digit_bit_cons by done.
      replace (j - (i + 1)) with (j - i - 1) by lia.
      destruct (col_bit c).
      * rewrite lor_mask_testbit by done.
        destruct (decide (i = j)) as [->|Hne].
        -- rewrite !bool_decide_true by lia. simpl. by rewrite !orb_true_r.
        -- rewrite !bool_decide_false by lia. simpl. by rewrite orb_false_r.
      * by rewrite andb_false_r.
    + intros j Hj. rewrite Hy, digit_bit_cons by done.
      replace (j - (i + 1)) with (j - i - 1) by lia.
      destruct (row_bit c).
      * rewrite lor_mask_testbit by done.
        destruct (decide (i = j)) as [->|Hne].
        -- rewrite !bool_decide_true by lia. simpl. by rewrite !orb_true_r.
        -- rewrite !bool_decide_false by lia. simpl. by rewrite orb_false_r.
      * by rewrite andb_false_r.
Qed.

Lemma mask_test (a i : Z) {T} (u v : T) :
  0 <= i ->
  (if decide (Z.land a (Z.shiftl 1 i) = 0) then u else v)
  = (if Z.testbit a i then v else u).
Proof.
  intros Hi. destruct (decide (Z.land a (Z.shiftl 1 i) = 0)) as [Hz|Hz].
  - apply land_mask_zero in Hz; [|done]. by rewrite Hz.
  - destruct (Z.testbit a i) eqn:Hb; [done|].
    exfalso. apply Hz. by apply land_mask_zero.
Qed.

Lemma quadkey_digit_bits (t : Tile) (zz : Z) (c : ascii) :
  1 <= zz -> quadkey_char c ->
  Z.testbit (tile_x t) (zz - 1) = col_bit c ->
  Z.testbit (tile_y t) (zz - 1) = row_bit c ->
  quadkey_digit t zz = c.
Proof.
  intros Hzz Hc Hx Hy. unfold quadkey_digit. cbv zeta.
  rewrite !mask_test by lia. rewrite Hx, Hy.
  destruct Hc as [-> | [-> | [-> | ->]]]; reflexivity.
Qed.

Lemma string_length_list (s : string) :
  String.length s = length (String.list_ascii_of_string s).
Proof. induction s as [|c s IH]; simpl; [done|by rewrite IH]. Qed.

(** A quadkey read back from its tile is itself, and its tile is at the
    zoom that is the key's length. *)
Lemma quadkey_round_trip (qk : string) :
  valid_quadkey qk ->
  exists t, qt_quadkey_to_tile qk = inr t
            /\ tile_z t = Z.of_nat (String.length qk)
            /\ qt_quadkey t = qk.
Proof.
  intros Hv. unfold qt_quadkey_to_tile.
  destruct (decide (String.length qk = 0%nat)) as [H0|Hn0].
  { exists (mkTile 0 0 0). rewrite H0. split_and!; [done..|].
    destruct qk; [done|discriminate]. }
  destruct (quadkey_to_tile_loop_bits (reverse (String.list_ascii_of_string qk)) 0 0 0)
    as (t & Ht & Hz & Hx & Hy); [lia| by apply Forall_reverse |].
  rewrite length_reverse, <- string_length_list, Z.add_0_l in Hz.
  exists t. split_and!; [done..|].
  etrans; [|apply String.string_of_list_ascii_of_string].
  unfold qt_quadkey. f_equal. rewrite Hz. unfold py_range_down.
  rewrite Nat2Z.id, string_length_list.
  set (l := String.list_ascii_of_string qk) in *.
  change (quadkey_digit t <$> ((fun i : nat => Z.of_nat (length l) - Z.of_nat i)
                                 <$> seq 0 (length l)) = l).
  apply list_eq. intros i. rewrite !list_lookup_fmap.
  destruct (decide (i < length l)%nat) as [Hlt|Hge].
  - rewrite lookup_seq_lt by done. simpl.
    destruct (lookup_lt_is_Some_2 l i Hlt) as [c Hc]. rewrite Hc. f_equal.
    assert (reverse l !! (length l - S i)%nat = Some c) as Hrev.
    { rewrite reverse_lookup by lia. rewrite <- Hc. f_equal. lia. }
    assert (quadkey_char c) as Hqc.
    { eapply Forall_forall; [exact Hv|]. eapply list_elem_of_lookup_2, Hc. }
    apply quadkey_digit_bits; [lia|done| |].
    + rewrite Hx by lia. rewrite Z.bits_0. simpl. unfold digit_bit.
      rewrite decide_True by lia.
      replace (Z.to_nat (Z.of_nat (length l) - Z.of_nat i - 1 - 0))
        with (length l - S i)%nat by lia.
      by rewrite Hrev.
    + rewrite Hy by lia. rewrite Z.bits_0. simpl. unfold digit_bit.
      rewrite decide_True by lia.
      replace (Z.to_nat (Z.of_nat (length l) - Z.of_nat i - 1 - 0))
        with (length l - S i)%nat by lia.
      by rewrite Hrev.
  - rewrite lookup_seq_ge by lia. simpl. symmetry. apply lookup_ge_None. lia.
Qed.

Lemma quadkey_to_tile_quadkey (qk : string) (t : Tile) :
  valid_quadkey qk -> qt_quadkey_to_tile qk = inr t ->
  tile_z t = Z.of_nat (String.length qk) /\ qt_quadkey t = qk.
Proof.
  intros Hv Ht. destruct (quadkey_round_trip qk Hv) as (t' & Ht' & Hz & Hqk).
  assert (t' = t) as -> by congruence. done.
Qed.

(** The key of the ancestor is the key of the tile cut to the ancestor's
    zoom: a key is a prefix of the keys of its descendants. *)
Lemma ancestor_quadkey_prefix (t : Tile) (zoom : Z) :
  0 <= zoom <= tile_z t ->
  String.list_ascii_of_string (qt_quadkey (ancestor t zoom))
  = take (Z.to_nat zoom) (String.list_ascii_of_string (qt_quadkey t)).
Proof.
  intros Hz. unfold qt_quadkey. rewrite !String.list_ascii_of_string_of_list_ascii.
  unfold py_range_down, ancestor. cbn [tile_z].
  rewrite <- !fmap_take, take_seq. rewrite Nat.min_l by lia.
  rewrite <- !list_fmap_compose. apply list_fmap_ext.
  intros i j Hj. apply lookup_seq in Hj as [-> Hi]. simpl.
  unfold quadkey_digit. cbn [tile_x tile_y]. cbv zeta.
  rewrite !mask_test by lia.
  rewrite !Z.div_pow2_bits by lia.
  replace (zoom - Z.of_nat i - 1 + (tile_z t - zoom)) with (tile_z t - Z.of_nat i - 1)
    by lia.
  done.
Qed.

(** *** Descendants *)

Lemma quadkeys_of_quadtree project (tiles : list Tile) :
  quadkeys_of (WebMercatorQuad project) tiles = inr (map qt_quadkey tiles).
Proof.
  induction tiles as [|t tiles IH]; [done|].
  cbn [quadkeys_of WebMercatorQuad tms_quadkey]. cbn in IH. by rewrite IH.
Qed.

Lemma elem_of_qt_children (c t : Tile) :
  c ∈ qt_children t ->
  tile_z c = tile_z t + 1 /\ tile_x c / 2 = tile_x t /\ tile_y c / 2 = tile_y t.
Proof.
  unfold qt_children. rewrite !elem_of_cons, elem_of_nil.
  intros [-> | [-> | [-> | [-> | []]]]]; simpl;
    split_and!;
    first [ done
          | symmetry; apply Z.div_unique with (r := 0); lia
          | symmetry; apply Z.div_unique with (r := 1); lia ].
Qed.

Lemma qt_children_NoDup (t : Tile) : NoDup (qt_children t).
Proof.
  unfold qt_children. repeat (apply NoDup_cons; split);
    [..|apply NoDup_nil_2];
    rewrite ?elem_of_cons, elem_of_nil; intros H;
    repeat (destruct H as [H|H]); try done; injection H; lia.
Qed.

Lemma elem_of_concat_children (c : Tile) (tiles : list Tile) :
  c ∈ concat (map qt_children tiles) -> exists t, t ∈ tiles /\ c ∈ qt_children t.
Proof.
  rewrite list_elem_of_In, in_concat. intros (l & Hl & Hc).
  apply in_map_iff in Hl as (t & <- & Ht).
  exists t. by rewrite !list_elem_of_In.
Qed.

Lemma concat_children_NoDup (tiles : list Tile) :
  NoDup tiles -> NoDup (concat (map qt_children tiles)).
Proof.
  induction 1 as [|t tiles Hfresh Hnd IH]; cbn [map concat]; [apply NoDup_nil_2|].
  apply NoDup_app. split_and!; [apply qt_children_NoDup| |done].
  intros c Hc Hc'. apply elem_of_concat_children in Hc' as (t' & Ht' & Hc').
  apply elem_of_qt_children in Hc as (Hz & Hx & Hy).
  apply elem_of_qt_children in Hc' as (Hz' & Hx' & Hy').
  assert (t' = t) as -> by (destruct t, t'; simpl in *; f_equal; lia).
  done.
Qed.

(** After [d] steps down from [tiles]: four times as many tiles at each
    step, all distinct, each [d] levels below the tile of [tiles] that is
    its ancestor. *)
Lemma walk_down_quadtree project (d : nat) :
  forall tiles,
    length (walk_down (WebMercatorQuad project) d tiles) = (4 ^ d * length tiles)%nat
    /\ (NoDup tiles -> NoDup (walk_down (WebMercatorQuad project) d tiles))
    /\ forall t', t' ∈ walk_down (WebMercatorQuad project) d tiles ->
                  exists t, t ∈ tiles
                            /\ tile_z t' = tile_z t + Z.of_nat d
                            /\ tile_x t' / 2 ^ Z.of_nat d = tile_x t
                            /\ tile_y t' / 2 ^ Z.of_nat d = tile_y t.
Proof.
  induction d as [|d IH]; intros tiles.
  - simpl. split_and!; [lia|done|].
    intros t' Ht'. exists t'. rewrite !Z.div_1_r. split_and!; [done|lia|done|done].
  - cbn [walk_down WebMercatorQuad tms_children].
    destruct (IH (concat (map qt_children tiles))) as (Hlen & Hnd & Hanc).
    split_and!.
    + cbn [WebMercatorQuad tms_children] in Hlen. rewrite Hlen.
      assert (length (concat (map qt_children tiles)) = (4 * length tiles)%nat) as ->.
      { clear. induction tiles as [|t tiles IH]; simpl; [done|]. rewrite IH. lia. }
      rewrite Nat.pow_succ_r'. lia.
    + intros Htiles. by apply Hnd, concat_children_NoDup.
    + intros t' Ht'. destruct (Hanc t' Ht') as (c & Hc & Hz & Hx & Hy).
      apply elem_of_concat_children in Hc as (t & Ht & Hc).
      apply elem_of_qt_children in Hc as (Hzc & Hxc & Hyc).
      exists t. rewrite Nat2Z.inj_succ, Z.pow_succ_r by lia.
      split_and!; [done|lia| |].
      * rewrite Z.mul_comm, <- Z.div_div by lia. by rewrite Hx.
      * rewrite Z.mul_comm, <- Z.div_div by lia. by rewrite Hy.
Qed.

Lemma filter_all {A} (P : A -> Prop) `{forall a, Decision (P a)} (l : list A) :
  Forall P l -> filter P l = l.
Proof.
  induction 1 as [|a l Ha Hl IH]; [done|].
  rewrite filter_cons_True by done. by rewrite IH.
Qed.

Lemma find_quadkeys_quadtree_returns project (t : Tile) (zoom : Z) :
  0 <= zoom -> exists keys, find_quadkeys (WebMercatorQuad project) t zoom = inr keys.
Proof.
  intros Hz. unfold find_quadkeys.
  destruct (decide (zoom < tile_z t)).
  - rewrite walk_up_quadtree by lia. rewrite quadkeys_of_quadtree. eauto.
  - destruct (decide (tile_z t < zoom)); rewrite quadkeys_of_quadtree; eauto.
Qed.

(** ** What find_quadkeys can raise *)

Lemma walk_up_error (tms0 : TileMatrixSet) (depth : nat) (t : Tile) (e : exn) :
  walk_up tms0 depth t = inl e -> e = IndexError.
Proof.
  revert t. induction depth as [|d IH]; intros t; simpl; [done|].
  destruct (tms_parent tms0 t) as [|p ps]; [by intros [= <-]|apply IH].
Qed.

Lemma quadkeys_of_error (tms0 : TileMatrixSet) (tiles : list Tile) (e : exn) :
  quadkeys_of tms0 tiles = inl e -> exists e', e = TmsError e'.
Proof.
  induction tiles as [|t tiles IH]; simpl; [done|].
  destruct (tms_quadkey tms0 t) as [e'|qk]; [intros [= <-]; by exists e'|].
  destruct (quadkeys_of tms0 tiles) as [e'|qks]; [|done].
  intros [= <-]. by apply IH.
Qed.

Lemma find_quadkeys_error (tms0 : TileMatrixSet) (t : Tile) (zoom : Z) (e : exn) :
  find_quadkeys tms0 t zoom = inl e -> e <> NoAssetFoundError.
Proof.
  unfold find_quadkeys. destruct (decide (zoom < tile_z t)).
  - destruct (walk_up _ _ _) as [e'|t'] eqn:Hup.
    + intros [= <-]. by apply walk_up_error in Hup as ->.
    + intros [e' ->]%quadkeys_of_error. done.
  - destruct (decide (tile_z t < zoom)); intros [e' ->]%quadkeys_of_error; done.
Qed.

Lemma get_assets_uncached_result (self : BaseBackend) (x y z : Z) :
  get_assets_uncached self x y z <> inl NoAssetFoundError
  /\ forall assets, get_assets_uncached self x y z = inr assets -> NoDup assets.
Proof.
  unfold get_assets_uncached.
  destruct (find_quadkeys _ _ _) as [e|quadkeys] eqn:Hqk.
  - split; [|done]. intros [= ->]. by apply find_quadkeys_error in Hqk.
  - split; [done|]. intros assets [= <-]. apply dict_fromkeys_NoDup.
Qed.

(** ** The cache *)

(** Unfolds a call of [get_assets] down to the lookup in the cache. *)
Ltac run_cached :=
  unfold get_assets, cached, bind, cache_getitem, cache_setitem, lift, ret; simpl.

Section cache.
Context `{Ext : Externals}.

Lemma cache_lookup_elem_of (k : CacheKey) (entries : list (CacheKey * list string)) v :
  cache_lookup k entries = Some v -> (k, v) ∈ entries.
Proof.
  induction entries as [|[k' v'] entries IH]; simpl; [done|].
  destruct (decide (k' = k)) as [->|_].
  - intros [= ->]. left.
  - intros Hl. right. by apply IH.
Qed.

Lemma get_assets_uncached_content (self self' : BaseBackend) (x y z : Z) :
  tms self = tms self' ->
  same_content (mosaic_def self) (mosaic_def self') ->
  get_assets_uncached self x y z = get_assets_uncached self' x y z.
Proof.
  intros Htms (Htiles & _ & _ & Hmin & _ & Hqz).
  unfold get_assets_uncached, quadkey_zoom. rewrite Htms, Hmin, Hqz.
  destruct (find_quadkeys _ _ _) as [e|quadkeys]; [done|].
  do 3 f_equal. apply map_ext. intros qk. unfold dict_get. by rewrite Htiles.
Qed.

Lemma get_assets_opened (self : BaseBackend) (x y z : Z) (st : State) :
  opened (get_assets self x y z st).2 = opened st.
Proof.
  run_cached.
  destruct (cache_lookup _ _); simpl; [done|].
  destruct (get_assets_uncached self x y z); done.
Qed.

(** [get_assets] adds at most one entry, under its own key and holding what
    its body computed. *)
Lemma get_assets_entries (self : BaseBackend) (x y z : Z) (st : State)
    (e : CacheKey * list string) :
  expire_drops_only ->
  e ∈ cache (get_assets self x y z st).2 ->
  e ∈ cache st
  \/ (e.1 = cache_key self x y z /\ get_assets_uncached self x y z = inr e.2).
Proof.
  intros Hexp.
  run_cached.
  destruct (cache_lookup _ _) as [v|]; simpl.
  { intros He. left. eapply Hexp, He. }
  destruct (get_assets_uncached self x y z) as [err|v]; simpl.
  { intros He. left. eapply Hexp, He. }
  intros He. apply Hexp in He. apply elem_of_cons in He as [->|He].
  - by right.
  - left. apply list_elem_of_filter in He as [_ He]. eapply Hexp, He.
Qed.

(** When the entries under its key are right, [get_assets] returns what its
    body computes, on a hit as on a miss. *)
Lemma get_assets_value (self : BaseBackend) (x y z : Z) (st : State) :
  expire_drops_only ->
  (forall v, (cache_key self x y z, v) ∈ cache st ->
             get_assets_uncached self x y z = inr v) ->
  (get_assets self x y z st).1 = get_assets_uncached self x y z.
Proof.
  intros Hexp Hkey.
  run_cached.
  destruct (cache_lookup _ _) as [v|] eqn:Hlook; simpl.
  - symmetry. apply Hkey. eapply Hexp, cache_lookup_elem_of, Hlook.
  - by destruct (get_assets_uncached self x y z).
Qed.

Lemma get_assets_cache_fresh (self : BaseBackend) (x y z : Z) (st : State) :
  expire_drops_only -> cache_fresh self st ->
  (get_assets self x y z st).1 = get_assets_uncached self x y z
  /\ cache_fresh self (get_assets self x y z st).2.
Proof.
  intros Hexp Hfresh. split.
  - apply get_assets_value; [done|]. intros v. apply Hfresh.
  - intros x' y' z' v He.
    destruct (get_assets_entries self x y z st _ Hexp He) as [Hold|[Hkey Hval]].
    + by apply Hfresh.
    + simpl in Hkey, Hval. unfold cache_key in Hkey. by simplify_eq.
Qed.

Lemma cache_fresh_empty (self : BaseBackend) (t : nat) (log : list string) :
  cache_fresh self {| clock := t; cache := []; opened := log |}.
Proof. intros x y z v He. simpl in He. by apply elem_of_nil in He. Qed.

Lemma cache_sound_empty (tms0 : TileMatrixSet) (t : nat) (log : list string) :
  cache_sound tms0 {| clock := t; cache := []; opened := log |}.
Proof. intros e He. simpl in He. by apply elem_of_nil in He. Qed.

(** Soundness is kept by [get_assets], whatever the fingerprint is. *)
Lemma get_assets_cache_sound (self : BaseBackend) (x y z : Z) (st : State) :
  expire_drops_only -> cache_sound (tms self) st ->
  cache_sound (tms self) (get_assets self x y z st).2.
Proof.
  intros Hexp Hsound e He.
  destruct (get_assets_entries self x y z st _ Hexp He) as [Hold|[Hkey Hval]].
  - by apply Hsound.
  - exists self. destruct e as [[[[[i x'] y'] z'] h] v]. simpl in *.
    unfold cache_key in *. by simplify_eq.
Qed.

(** With a faithful fingerprint a sound cache is fresh for every backend. *)
Lemma cache_sound_fresh (self : BaseBackend) (st : State) :
  fingerprint_faithful -> cache_sound (tms self) st -> cache_fresh self st.
Proof.
  intros Hfp Hsound x y z v He.
  apply Hsound in He as (self0 & Htms & Hkey & Hval). simpl in Hkey, Hval.
  rewrite <- Hval. apply get_assets_uncached_content; [done|].
  apply Hfp. unfold cache_key, mosaicid in Hkey. congruence.
Qed.

Lemma cache_sound_fresh_with_tiles (self : BaseBackend) (st : State) :
  fingerprint_faithful -> cache_sound (tms self) st ->
  forall new_tiles, cache_fresh (with_tiles self new_tiles) st.
Proof. intros Hfp Hsound new_tiles. by apply cache_sound_fresh. Qed.

Lemma mapM_get_assets (self : BaseBackend) (tiles : list Tile)
    (per_tile : list (list string)) :
  expire_drops_only ->
  Forall2 (fun t assets =>
             get_assets_uncached self (tile_x t) (tile_y t) (tile_z t) = inr assets)
          tiles per_tile ->
  forall st,
    cache_fresh self st ->
    (mapM (fun t => get_assets self (tile_x t) (tile_y t) (tile_z t)) tiles st).1
    = inr per_tile.
Proof.
  intros Hexp Hall. induction Hall as [|t assets tiles per_tile Ht Hall IH];
    intros st Hfresh; [done|].
  cbn [mapM]. unfold bind at 1.
  destruct (get_assets_cache_fresh self (tile_x t) (tile_y t) (tile_z t) st Hexp Hfresh)
    as (Hval & Hfresh1).
  destruct (get_assets self (tile_x t) (tile_y t) (tile_z t) st) as [r st1].
  simpl in Hval, Hfresh1. rewrite Hval, Ht. unfold bind.
  specialize (IH st1 Hfresh1).
  destruct (mapM _ tiles st1) as [r2 st2]. simpl in IH. by rewrite IH.
Qed.

(** [get_assets] itself never raises [NoAssetFoundError]. *)
Lemma get_assets_not_no_asset (self : BaseBackend) (x y z : Z) (st : State) :
  (get_assets self x y z st).1 <> inl NoAssetFoundError.
Proof.
  run_cached.
  destruct (cache_lookup _ _); simpl; [done|].
  destruct (get_assets_uncached self x y z) as [e|v] eqn:Hbody; simpl; [|done].
  intros [= ->]. by apply (get_assets_uncached_result self x y z).
Qed.

Lemma lift_rio_not_no_asset {A} (f : list string -> (rio_error + A) * list string)
    (st : State) :
  (lift_rio f st).1 <> inl NoAssetFoundError.
Proof.
  unfold lift_rio. destruct (f (opened st)) as [[e|a] log]; done.
Qed.

Lemma assets_for_point_opened (self : BaseBackend) (lng lat : Qc) (coord_crs : CRS)
    (st : State) :
  opened (assets_for_point self lng lat coord_crs st).2 = opened st.
Proof.
  unfold assets_for_point. destruct (transform_point _ _ _ _).
  apply get_assets_opened.
Qed.

End cache.

(** ** update *)

Section update_loop.
Context `{Ext : Externals}.

Lemma with_tiles_same (self : BaseBackend) :
  with_tiles self (MosaicJSON.tiles (mosaic_def self)) = self.
Proof. destruct self as [i [] ? ? ? ? ? ?]. reflexivity. Qed.

(** Whatever the keys, the loop only replaces [tiles]. *)
Lemma update_tiles_with_tiles (add_first : bool) (items : list (string * list string)) :
  forall (self : BaseBackend) (st : State),
    (update_tiles self items add_first st).1.2
    = with_tiles self
        (MosaicJSON.tiles (mosaic_def (update_tiles self items add_first st).1.2)).
Proof.
  induction items as [|[quadkey new_assets] rest IH]; intros self st.
  - simpl. by rewrite with_tiles_same.
  - cbn [update_tiles].
    destruct (tms_quadkey_to_tile (tms self) quadkey) as [e|t].
    { simpl. by rewrite with_tiles_same. }
    destruct (get_assets self (tile_x t) (tile_y t) (tile_z t) st) as [[e|assets] st1].
    { simpl. by rewrite with_tiles_same. }
    rewrite IH at 1. reflexivity.
Qed.

(** The loop opens no asset and keeps a sound cache sound. *)
Lemma update_tiles_frame (add_first : bool) (items : list (string * list string)) :
  forall (self : BaseBackend) (st : State),
    expire_drops_only ->
    opened (update_tiles self items add_first st).2 = opened st
    /\ (cache_sound (tms self) st ->
        cache_sound (tms self) (update_tiles self items add_first st).2).
Proof.
  induction items as [|[quadkey new_assets] rest IH]; intros self st Hexp; [done|].
  cbn [update_tiles].
  destruct (tms_quadkey_to_tile (tms self) quadkey) as [e|t]; [done|].
  pose proof (get_assets_opened self (tile_x t) (tile_y t) (tile_z t) st) as Hopen.
  pose proof (get_assets_cache_sound self (tile_x t) (tile_y t) (tile_z t) st Hexp)
    as Hsound.
  destruct (get_assets self (tile_x t) (tile_y t) (tile_z t) st) as [[e|assets] st1];
    simpl in Hopen, Hsound; [done|].
  set (self1 := set_tiles self quadkey _).
  destruct (IH self1 st1 Hexp) as [Ho Hs].
  split; [by rewrite Ho|]. intros H0. apply Hs, Hsound, H0.
Qed.

(** A successful [update]: the candidate index was built, the loop went
    through, the document was committed and written. *)
Lemma update_success (self self' : BaseBackend) (features : list Feature)
    (add_first : bool) (st st' : State) :
  update self features add_first st = (inr tt, self', st') ->
  exists new_mosaic self1,
    from_features features (MosaicJSON.minzoom (mosaic_def self))
                  (MosaicJSON.maxzoom (mosaic_def self)) (quadkey_zoom self)
    = inr new_mosaic
    /\ update_tiles self (MosaicJSON.tiles new_mosaic) add_first st = (inr tt, self1, st')
    /\ self' = commit self1 (MosaicJSON.bounds new_mosaic)
    /\ write self' true = inr tt.
Proof.
  unfold update. destruct (from_features _ _ _ _) as [e|new_mosaic] eqn:Hff; [done|].
  destruct (update_tiles _ _ _ _) as [[[e|[]] self1] st1] eqn:Hloop; [done|].
  intros [= Hw <- <-]. exists new_mosaic, self1. split_and!; done.
Qed.

Lemma update_keeps_cache_sound (self self' : BaseBackend) (features : list Feature)
    (add_first : bool) (st st' : State) :
  expire_drops_only ->
  cache_sound (tms self) st ->
  update self features add_first st = (inr tt, self', st') ->
  tms self' = tms self /\ cache_sound (tms self') st' /\ opened st' = opened st.
Proof.
  intros Hexp Hsound Hup.
  apply update_success in Hup as (new_mosaic & self1 & _ & Hloop & -> & _).
  destruct (update_tiles_frame add_first (MosaicJSON.tiles new_mosaic) self st Hexp)
    as (Ho & Hs).
  pose proof (update_tiles_with_tiles add_first (MosaicJSON.tiles new_mosaic) self st)
    as Hb.
  rewrite Hloop in Hs, Ho, Hb. simpl in Hs, Ho, Hb.
  assert (tms (commit self1 (MosaicJSON.bounds new_mosaic)) = tms self) as Htms
    by (rewrite Hb; reflexivity).
  rewrite Htms. split_and!; [done|by apply Hs|done].
Qed.

Lemma get_assets_uncached_index_zoom project (self : BaseBackend) (qk : string) (t : Tile) :
  tms self = WebMercatorQuad project ->
  valid_quadkey qk ->
  Z.of_nat (String.length qk) = quadkey_zoom self ->
  qt_quadkey_to_tile qk = inr t ->
  get_assets_uncached self (tile_x t) (tile_y t) (tile_z t)
  = inr (dict_fromkeys (dict_get (MosaicJSON.tiles (mosaic_def self)) qk [])).
Proof.
  intros Htms Hv Hlen Ht.
  destruct (quadkey_to_tile_quadkey qk t Hv Ht) as [Hz Hqk].
  unfold get_assets_uncached, find_quadkeys. rewrite Htms.
  replace (mkTile (tile_x t) (tile_y t) (tile_z t)) with t by (by destruct t).
  rewrite !decide_False by lia. cbn. rewrite Hqk. by rewrite app_nil_r.
Qed.

(** With the quadtree scheme and distinct keys at the index zoom, the loop
    cannot fail, and it gives every key of the candidate index its new assets
    merged with what [get_assets] reads for that key; other keys are
    untouched. The cache must hold no wrong answer for the backend, whatever
    its tiles: the turns of the loop look up distinct tiles, so no turn reads
    an entry stored by an earlier one. *)
Lemma update_tiles_merge project (add_first : bool) (items : list (string * list string)) :
  forall (self : BaseBackend) (st : State),
    expire_drops_only ->
    tms self = WebMercatorQuad project ->
    NoDup items.*1 ->
    Forall (fun kv => valid_quadkey kv.1
                      /\ Z.of_nat (String.length kv.1) = quadkey_zoom self) items ->
    (forall k t new_tiles v,
        k ∈ items.*1 -> qt_quadkey_to_tile k = inr t ->
        (cache_key (with_tiles self new_tiles) (tile_x t) (tile_y t) (tile_z t), v) ∈ cache st ->
        get_assets_uncached (with_tiles self new_tiles) (tile_x t) (tile_y t) (tile_z t)
        = inr v) ->
    (update_tiles self items add_first st).1.1 = inr tt
    /\ forall k,
        dict_lookup (MosaicJSON.tiles (mosaic_def (update_tiles self items add_first st).1.2)) k
        = match dict_lookup items k with
          | Some new_assets =>
            let assets := dict_fromkeys (dict_get (MosaicJSON.tiles (mosaic_def self)) k []) in
            Some (if add_first then new_assets ++ assets else assets ++ new_assets)
          | None => dict_lookup (MosaicJSON.tiles (mosaic_def self)) k
          end.
Proof.
  induction items as [|[quadkey new_assets] rest IH];
    intros self st Hexp Htms Hnd Hkeys Hfresh.
  - simpl. done.
  - apply Forall_cons in Hkeys as [[Hv Hlen] Hkeys]. simpl in Hv, Hlen.
    rewrite fmap_cons in Hnd. apply NoDup_cons in Hnd as [Hnew Hnd].
    destruct (quadkey_round_trip quadkey Hv) as (t & Ht & _ & Hqk).
    assert ((get_assets self (tile_x t) (tile_y t) (tile_z t) st).1
            = inr (dict_fromkeys (dict_get (MosaicJSON.tiles (mosaic_def self)) quadkey [])))
      as Hval.
    { rewrite get_assets_value; [by eapply get_assets_uncached_index_zoom|done|].
      intros v Hv0. rewrite <- (with_tiles_same self) in Hv0 |- *.
      eapply Hfresh; [left|done|done]. }
    pose proof (fun e => get_assets_entries self (tile_x t) (tile_y t) (tile_z t) st e Hexp)
      as Hentries.
    destruct (get_assets self (tile_x t) (tile_y t) (tile_z t) st) as [r st1] eqn:Hga.
    simpl in Hval, Hentries. subst r.
    set (assets := dict_fromkeys _) in *.
    set (merged := if add_first then new_assets ++ assets else assets ++ new_assets).
    assert (update_tiles self ((quadkey, new_assets) :: rest) add_first st
            = update_tiles (set_tiles self quadkey merged) rest add_first st1) as ->.
    { cbn [update_tiles]. rewrite Htms. cbn [tms_quadkey_to_tile WebMercatorQuad].
      rewrite Ht, Hga. done. }
    destruct (IH (set_tiles self quadkey merged) st1 Hexp Htms Hnd Hkeys) as [Hok Htiles].
    { intros k t' new_tiles v Hk Ht' He.
      change (with_tiles (set_tiles self quadkey merged) new_tiles)
        with (with_tiles self new_tiles) in *.
      destruct (Hentries _ He) as [Hold|[Hkey _]].
      - eapply Hfresh; [by right|done|done].
      - exfalso. simpl in Hkey. unfold cache_key in Hkey.
        assert (t' = t) as -> by (destruct t, t'; simpl in *; by simplify_eq).
        assert (valid_quadkey k /\ Z.of_nat (String.length k) = quadkey_zoom self)
          as [Hvk _].
        { apply list_elem_of_fmap in Hk as ([k0 a0] & -> & Hin).
          eapply Forall_forall in Hkeys; [exact Hkeys|done]. }
        destruct (quadkey_to_tile_quadkey k t Hvk Ht') as [_ Hqk'].
        apply Hnew. by rewrite <- Hqk, Hqk'. }
    split; [exact Hok|]. intros k. rewrite Htiles. simpl.
    destruct (decide (quadkey = k)) as [->|Hne].
    + rewrite dict_lookup_absent by done. by rewrite dict_lookup_set_eq.
    + unfold dict_get. rewrite dict_lookup_set_ne by done. done.
Qed.

Lemma commit_tiles (self : BaseBackend) (new_bounds : BBox) :
  MosaicJSON.tiles (mosaic_def (commit self new_bounds)) = MosaicJSON.tiles (mosaic_def self).
Proof. reflexivity. Qed.

(** What a successful [update] leaves under every key. *)
Lemma update_merge project (self self' : BaseBackend) (features : list Feature)
    (new_mosaic : MosaicJSON.t) (add_first : bool) (st st' : State) :
  expire_drops_only ->
  tms self = WebMercatorQuad project ->
  (forall new_tiles, cache_fresh (with_tiles self new_tiles) st) ->
  from_features features (MosaicJSON.minzoom (mosaic_def self))
                (MosaicJSON.maxzoom (mosaic_def self)) (quadkey_zoom self)
  = inr new_mosaic ->
  NoDup (MosaicJSON.tiles new_mosaic).*1 ->
  Forall (fun kv => valid_quadkey kv.1
                    /\ Z.of_nat (String.length kv.1) = quadkey_zoom self)
         (MosaicJSON.tiles new_mosaic) ->
  update self features add_first st = (inr tt, self', st') ->
  forall k,
    dict_lookup (MosaicJSON.tiles (mosaic_def self')) k
    = match dict_lookup (MosaicJSON.tiles new_mosaic) k with
      | Some new_assets =>
        let assets := dict_fromkeys (dict_get (MosaicJSON.tiles (mosaic_def self)) k []) in
        Some (if add_first then new_assets ++ assets else assets ++ new_assets)
      | None => dict_lookup (MosaicJSON.tiles (mosaic_def self)) k
      end.
Proof.
  intros Hexp Htms Hfresh Hff Hnd Hkeys Hup k.
  apply update_success in Hup as (new_mosaic' & self1 & Hff' & Hloop & -> & _).
  assert (new_mosaic' = new_mosaic) as -> by congruence.
  destruct (update_tiles_merge project add_first (MosaicJSON.tiles new_mosaic) self st
              Hexp Htms Hnd Hkeys) as [_ Htiles].
  { intros k0 t new_tiles v _ _. apply Hfresh. }
  rewrite Hloop in Htiles. simpl in Htiles. rewrite commit_tiles. apply Htiles.
Qed.

End update_loop.

(** ** multi_values *)

Section multi_values.
Context `{Ext : Externals}.

Lemma point_reader_value (self : BaseBackend) (lon lat : Qc) (coord_crs : CRS)
    (asset : string) (log : list string) :
  point_reader self lon lat coord_crs asset log
  = (point_value self lon lat coord_crs asset, log ++ [asset]).
Proof.
  unfold point_value, point_reader. by destruct (transform_point _ _ _ _).
Qed.

Lemma create_tasks_point (self : BaseBackend) (lon lat : Qc) (coord_crs : CRS)
    (assets log : list string) :
  create_tasks (point_reader self lon lat coord_crs) assets log
  = (map (fun asset => (point_value self lon lat coord_crs asset, asset)) assets,
     log ++ assets).
Proof.
  revert log. induction assets as [|asset assets IH]; intros log; simpl.
  - by rewrite app_nil_r.
  - rewrite point_reader_value, IH. by rewrite <- app_assoc.
Qed.

Lemma successful_values_cons (self : BaseBackend) (lon lat : Qc) (coord_crs : CRS)
    (asset : string) (assets : list string) :
  successful_values self lon lat coord_crs (asset :: assets)
  = match point_value self lon lat coord_crs asset with
    | inr val => (asset, val) :: successful_values self lon lat coord_crs assets
    | inl _ => successful_values self lon lat coord_crs assets
    end.
Proof.
  unfold successful_values. simpl.
  by destruct (point_value self lon lat coord_crs asset).
Qed.

(** With only allowed failures, the dict of [multi_values] lists the
    successful assets in order. *)
Lemma collect_values (self : BaseBackend) (lon lat : Qc) (coord_crs : CRS)
    (allowed : list rio_error) (assets : list string) :
  NoDup assets ->
  (forall asset e, asset ∈ assets ->
                   point_value self lon lat coord_crs asset = inl e -> e ∈ allowed) ->
  exists vals,
    filter_tasks (map (fun asset => (point_value self lon lat coord_crs asset, asset)) assets)
                 allowed = inr vals
    /\ forall acc : list (string * PointData),
        (forall asset, asset ∈ assets -> asset ∉ acc.*1) ->
        fold_left (fun d va => dict_set d va.2 va.1) vals acc
        = acc ++ successful_values self lon lat coord_crs assets.
Proof.
  intros Hnd. induction Hnd as [|asset assets Hfresh Hnd IH]; intros Hallowed.
  - exists []. split; [done|]. intros acc _. simpl. by rewrite app_nil_r.
  - destruct IH as (vals & Hvals & Hfold).
    { intros a e Ha. apply Hallowed. by right. }
    cbn [map filter_tasks].
    destruct (point_value self lon lat coord_crs asset) as [e|val] eqn:Hread.
    + exists vals. rewrite decide_True by (eapply Hallowed; [left|done]).
      split; [done|]. intros acc Hacc. rewrite successful_values_cons, Hread.
      apply Hfold.
      intros a Ha. apply Hacc. by right.
    + exists ((val, asset) :: vals). rewrite Hvals. split; [done|].
      intros acc Hacc. rewrite successful_values_cons, Hread. cbn [fold_left]. simpl.
      rewrite dict_set_absent by (apply Hacc; left).
      rewrite Hfold; [by rewrite <- app_assoc|].
      intros a Ha. rewrite fmap_app, elem_of_app. simpl.
      intros [Hin|Hin%list_elem_of_singleton].
      * eapply Hacc; [by right|done].
      * by subst a.
Qed.

End multi_values.

(** ** The concrete setting *)

Lemma demo_fingerprint_faithful : @fingerprint_faithful demo_externals.
Proof. intros d d' Heq. simpl in Heq. subst d'. unfold same_content. done. Qed.

Lemma demo_expire_drops_only : @expire_drops_only demo_externals.
Proof. intros t entries e He. exact He. Qed.

Lemma demo_cache_sound tms0 : @cache_sound demo_externals tms0 demo_state.
Proof. apply cache_sound_empty. Qed.

Lemma demo_cache_fresh self : @cache_fresh demo_externals self demo_state.
Proof. apply cache_fresh_empty. Qed.

Lemma demo_features_keys :
  NoDup [("0123"%string, ["b.tif"%string])].*1
  /\ Forall (fun kv : string * list string =>
               valid_quadkey kv.1 /\ Z.of_nat (String.length kv.1) = 4)
            [("0123"%string, ["b.tif"%string])].
Proof.
  split; [apply NoDup_singleton|].
  apply Forall_singleton. split; [|reflexivity].
  repeat constructor; unfold quadkey_char; tauto.
Qed.

(** ** The scan of a box *)

Lemma concat_map_seq {A} (f : nat -> nat -> A) (nx ny : nat) :
  concat (map (fun i => map (f i) (seq 0 ny)) (seq 0 nx))
  = map (fun k => f (k / ny)%nat (k mod ny)%nat) (seq 0 (nx * ny)).
Proof.
  induction nx as [|nx IH]; [done|].
  rewrite seq_S, map_app, concat_app, IH. cbn [map concat Nat.add].
  rewrite app_nil_r.
  replace (S nx * ny)%nat with (nx * ny + ny)%nat by lia.
  rewrite seq_app, map_app. f_equal. cbn [Nat.add].
  replace (seq (nx * ny) ny) with (map (Nat.add (nx * ny)) (seq 0 ny)).
  2:{ change (map (Nat.add (nx * ny)) (seq 0 ny)) with (Nat.add (nx * ny) <$> seq 0 ny).
      rewrite fmap_add_seq. f_equal. lia. }
  rewrite map_map. symmetry. apply map_ext_in. intros j Hj. apply in_seq in Hj.
  assert (((nx * ny + j) / ny)%nat = nx) as ->.
  { symmetry. apply (Nat.div_unique _ _ _ j); lia. }
  assert (((nx * ny + j) mod ny)%nat = j) as ->; [|done].
  symmetry. apply (Nat.mod_unique _ _ nx); lia.
Qed.

Lemma bbox_tiles_rectangle_scan (tl_tile br_tile : Tile) (zoom : Z) :
  bbox_tiles tl_tile br_tile zoom = rectangle_scan tl_tile br_tile zoom.
Proof.
  unfold bbox_tiles, rectangle_scan, py_range. cbv zeta.
  rewrite map_map.
  rewrite <- (concat_map_seq
                (fun i j => mkTile (tile_x tl_tile + Z.of_nat i)
                                   (tile_y tl_tile + Z.of_nat j) zoom)).
  f_equal. apply map_ext. intros i. by rewrite map_map.
Qed.

Lemma elem_of_rectangle_scan (tl_tile br_tile : Tile) (zoom : Z) (t : Tile) :
  t ∈ rectangle_scan tl_tile br_tile zoom
  <-> tile_z t = zoom
      /\ tile_x tl_tile <= tile_x t <= tile_x br_tile
      /\ tile_y tl_tile <= tile_y t <= tile_y br_tile.
Proof. rewrite <- bbox_tiles_rectangle_scan. apply elem_of_bbox_tiles. Qed.

(** * The claims *)

(** C1. With the default quadtree scheme and an index zoom [quadkey_zoom >= 0],
    a tile strictly finer than the index resolves to exactly one quadkey, the
    one of its ancestor at [quadkey_zoom]; a tile at the index zoom resolves
    to exactly its own quadkey. Whatever the tile matrix set, a tile at or
    below the index resolution never resolves to more or fewer than one key. *)
Theorem find_quadkeys_ancestor project (t : Tile) (quadkey_zoom : Z) :
  0 <= quadkey_zoom ->
  quadkey_zoom <= tile_z t ->
  find_quadkeys (WebMercatorQuad project) t quadkey_zoom
  = inr [qt_quadkey (ancestor t quadkey_zoom)]
  /\ (tile_z t = quadkey_zoom -> ancestor t quadkey_zoom = t)
  /\ (forall tms0 keys, find_quadkeys tms0 t quadkey_zoom = inr keys -> length keys = 1%nat).
Proof.
  intros H0 Hle.
  assert (tile_z t = quadkey_zoom -> ancestor t quadkey_zoom = t) as Hsame.
  { intros Heq. unfold ancestor. rewrite Heq, Z.sub_diag. simpl.
    rewrite !Z.div_1_r. destruct t; simpl in *; by subst. }
  split_and!; [|done|].
  - unfold find_quadkeys.
    destruct (decide (quadkey_zoom < tile_z t)) as [Hlt|Hnlt].
    + rewrite walk_up_quadtree by lia.
      rewrite Z2Nat.id by lia. cbn.
      do 3 f_equal. unfold ancestor. f_equal. lia.
    + destruct (decide (tile_z t < quadkey_zoom)); [lia|].
      cbn. rewrite Hsame by lia. done.
  - intros tms0 keys. unfold find_quadkeys.
    destruct (decide (quadkey_zoom < tile_z t)) as [Hlt|Hnlt].
    + destruct (walk_up _ _ _) as [e|t']; [done|]. simpl.
      destruct (tms_quadkey tms0 t'); [done|]. by intros [= <-].
    + destruct (decide (tile_z t < quadkey_zoom)); [lia|]. simpl.
      destruct (tms_quadkey tms0 t); [done|]. by intros [= <-].
Qed.

(** Witness of C1: the tile (3, 5, 3) against an index at zoom 1 resolves to
    the key "2" of its ancestor (0, 1, 1). *)
Lemma find_quadkeys_ancestor_witness :
  find_quadkeys (WebMercatorQuad demo_project) (mkTile 3 5 3) 1 = inr ["2"%string]
  /\ find_quadkeys (WebMercatorQuad demo_project) (mkTile 3 5 3) 1
     = inr [qt_quadkey (ancestor (mkTile 3 5 3) 1)].
Proof.
  split; [reflexivity|].
  apply (find_quadkeys_ancestor demo_project (mkTile 3 5 3) 1); simpl; lia.
Defined.

(** C2. The key under which [get_assets] caches holds the fingerprint of the
    whole document. When the fingerprint is faithful (it differs whenever
    tiles, bounds, version or zoom fields differ), then after a successful
    update that changed tiles, bounds or version no key of the updated
    backend is a key of the backend before the update, and [get_assets] on the
    updated backend returns what its body computes on the updated document:
    an entry stored before the update is never returned, with no
    invalidation. *)
Theorem stale_entries_unreachable `{Ext : Externals} (self self' : BaseBackend)
    (features : list Feature) (add_first : bool) (st st' : State) :
  fingerprint_faithful -> expire_drops_only ->
  cache_sound (tms self) st ->
  update self features add_first st = (inr tt, self', st') ->
  (~ (forall k, dict_lookup (MosaicJSON.tiles (mosaic_def self')) k
                = dict_lookup (MosaicJSON.tiles (mosaic_def self)) k)
   \/ MosaicJSON.bounds (mosaic_def self') <> MosaicJSON.bounds (mosaic_def self)
   \/ MosaicJSON.version (mosaic_def self') <> MosaicJSON.version (mosaic_def self)) ->
  (forall x y z x0 y0 z0, cache_key self' x y z <> cache_key self x0 y0 z0)
  /\ (forall x y z, (get_assets self' x y z st').1 = get_assets_uncached self' x y z).
Proof.
  intros Hfp Hexp Hsound Hup Hchanged.
  destruct (update_keeps_cache_sound self self' features add_first st st'
              Hexp Hsound Hup) as (Htms & Hsound' & _).
  split.
  - intros x y z x0 y0 z0 Hkey. unfold cache_key, mosaicid in Hkey.
    assert (get_hash (mosaic_def self') = get_hash (mosaic_def self)) as Hh
      by congruence.
    apply Hfp in Hh as (Htiles & Hbounds & Hversion & _).
    destruct Hchanged as [Hc|[Hc|Hc]]; by apply Hc.
  - intros x y z. apply get_assets_cache_fresh; [done|].
    by apply cache_sound_fresh.
Qed.

(** Witness of C2: the demo index, updated. The version changed, so no key
    of the updated backend is one of the old backend; the tile (5, 3, 4) of
    key "0123" was cached as ["a.tif"] during the update and now reads the
    merged list. *)
Lemma stale_entries_unreachable_witness :
  @cache_key demo_externals (demo_updated demo_tiles true).1.2 5 3 4
  <> @cache_key demo_externals (demo_backend demo_tiles) 5 3 4
  /\ (@cache_key demo_externals (demo_backend demo_tiles) 5 3 4, ["a.tif"%string])
     ∈ cache (demo_updated demo_tiles true).2
  /\ (@get_assets demo_externals (demo_updated demo_tiles true).1.2 5 3 4
        (demo_updated demo_tiles true).2).1
     = inr ["b.tif"; "a.tif"]%string.
Proof.
  destruct (@stale_entries_unreachable demo_externals (demo_backend demo_tiles)
              (demo_updated demo_tiles true).1.2 demo_features true demo_state
              (demo_updated demo_tiles true).2
              demo_fingerprint_faithful demo_expire_drops_only (demo_cache_sound _) eq_refl)
    as [Hkeys Hfresh].
  - right; right. vm_compute. discriminate.
  - split_and!; [apply Hkeys|left|]. rewrite Hfresh. reflexivity.
Defined.

(** C3. On a cache that holds no wrong answer for the backend (an empty
    one, for instance), [get_assets] returns the lists [tiles[qk]] of the
    resolved quadkeys (an absent key gives the empty list), concatenated in
    resolution order and deduplicated keeping first occurrences.
    [assets_for_bbox] takes the box to the geographic CRS, takes the tile of
    its left top corner and the tile of its right bottom corner at the index
    zoom, and returns the first-occurrence deduplication of the concatenation
    of what [get_assets] computes for the tiles of the inclusive rectangle
    between the two, scanned column by column and, in a column, row by row. *)
Theorem assets_resolution `{Ext : Externals} (self : BaseBackend) (st : State) :
  expire_drops_only ->
  cache_fresh self st ->
  (forall x y z quadkeys,
      find_quadkeys (tms self) (mkTile x y z) (quadkey_zoom self) = inr quadkeys ->
      (get_assets self x y z st).1
      = inr (dedup_first
               (concat (map (fun qk => dict_get (MosaicJSON.tiles (mosaic_def self)) qk [])
                            quadkeys))))
  /\ (forall xmin ymin xmax ymax coord_crs per_tile,
         let box := if decide (coord_crs = geographic_crs self)
                    then (xmin, ymin, xmax, ymax)
                    else transform_bounds coord_crs (geographic_crs self)
                                          xmin ymin xmax ymax in
         let tl_tile :=
           tms_tile (tms self) (bbox_left box) (bbox_top box) (quadkey_zoom self) in
         let br_tile :=
           tms_tile (tms self) (bbox_right box) (bbox_bottom box) (quadkey_zoom self) in
         Forall2 (fun t assets =>
                    get_assets_uncached self (tile_x t) (tile_y t) (tile_z t) = inr assets)
                 (rectangle_scan tl_tile br_tile (quadkey_zoom self)) per_tile ->
         (assets_for_bbox self xmin ymin xmax ymax coord_crs st).1
         = inr (dedup_first (concat per_tile)))
  /\ (forall tl_tile br_tile zoom,
         bbox_tiles tl_tile br_tile zoom = rectangle_scan tl_tile br_tile zoom
         /\ forall t,
              t ∈ rectangle_scan tl_tile br_tile zoom
              <-> tile_z t = zoom
                  /\ tile_x tl_tile <= tile_x t <= tile_x br_tile
                  /\ tile_y tl_tile <= tile_y t <= tile_y br_tile).
Proof.
  intros Hexp Hfresh. split_and!.
  - intros x y z quadkeys Hqk.
    destruct (get_assets_cache_fresh self x y z st Hexp Hfresh) as (-> & _).
    unfold get_assets_uncached. rewrite Hqk. by rewrite dict_fromkeys_dedup_first.
  - intros xmin ymin xmax ymax coord_crs per_tile box tl_tile br_tile Hall.
    assert (corner_tiles self xmin ymin xmax ymax coord_crs = (tl_tile, br_tile))
      as Hcorner.
    { unfold corner_tiles, geographic_bbox, tl_tile, br_tile, box.
      destruct (decide (coord_crs = geographic_crs self)) as [Heq|Hne].
      - by rewrite decide_False by (by intros Hne; apply Hne).
      - rewrite decide_True by done.
        by destruct (transform_bounds _ _ _ _ _ _) as [[[l b] r] t]. }
    rewrite <- bbox_tiles_rectangle_scan in Hall.
    unfold assets_for_bbox. rewrite Hcorner. unfold bind.
    pose proof (mapM_get_assets self _ per_tile Hexp Hall st Hfresh) as Hmap.
    destruct (mapM _ _ st) as [r st1]. simpl in Hmap. subst r.
    simpl. by rewrite dict_fromkeys_dedup_first.
  - intros tl_tile br_tile zoom. split.
    + apply bbox_tiles_rectangle_scan.
    + intros t. apply elem_of_rectangle_scan.
Qed.

(** Witness of C3: the tile (1, 0, 2), coarser than the index, gathers
    ["a.tif"; "b.tif"] from its sixteen descendants; the box from (5, 3) to
    (6, 3) scans the tile (5, 3), key "0123" with "a.tif", and then the tile
    (6, 3), key "0132" with "b.tif". *)
Lemma assets_resolution_witness :
  (@get_assets demo_externals (demo_backend demo_tiles) 1 0 2 demo_state).1
  = inr ["a.tif"; "b.tif"]%string
  /\ rectangle_scan (mkTile 5 3 4) (mkTile 6 3 4) 4 = [mkTile 5 3 4; mkTile 6 3 4]
  /\ (@assets_for_bbox demo_externals (demo_backend demo_tiles)
        (Q2Qc (inject_Z 5)) (Q2Qc (inject_Z 3)) (Q2Qc (inject_Z 6)) (Q2Qc (inject_Z 3))
        WGS84_CRS demo_state).1
     = inr ["a.tif"; "b.tif"]%string.
Proof.
  destruct (@assets_resolution demo_externals (demo_backend demo_tiles) demo_state
              demo_expire_drops_only (demo_cache_fresh _))
    as (Hget & Hbbox & _).
  split_and!.
  - erewrite Hget by reflexivity. reflexivity.
  - reflexivity.
  - rewrite (Hbbox (Q2Qc (inject_Z 5)) (Q2Qc (inject_Z 3)) (Q2Qc (inject_Z 6))
               (Q2Qc (inject_Z 3)) WGS84_CRS [["a.tif"]; ["b.tif"]]%string);
      [reflexivity|].
    cbv zeta.
    change (Forall2
              (fun (t : Tile) (assets : list string) =>
                 get_assets_uncached (demo_backend demo_tiles)
                                     (tile_x t) (tile_y t) (tile_z t) = inr assets)
              [mkTile 5 3 4; mkTile 6 3 4] [["a.tif"]; ["b.tif"]]%string).
    repeat constructor.
Defined.

(** Counterexample to C4 as stated: key "0123" holds ["a.tif"; "a.tif"]
    and is updated with ["b.tif"], new assets first. The update succeeds and
    stores ["b.tif"; "a.tif"], which is not the new assets followed by the
    existing assets of the key, ["b.tif"; "a.tif"; "a.tif"]; with the new
    assets last it stores ["a.tif"; "b.tif"], not ["a.tif"; "a.tif"; "b.tif"]. *)
Lemma update_merge_not_stored_list :
  let stored := ["a.tif"; "a.tif"]%string in
  let new_assets := ["b.tif"]%string in
  let before := demo_backend [("0123"%string, stored)] in
  let first := demo_updated [("0123"%string, stored)] true in
  let last := demo_updated [("0123"%string, stored)] false in
  dict_get (MosaicJSON.tiles (mosaic_def before)) "0123" [] = stored
  /\ first.1.1 = inr tt
  /\ dict_lookup (MosaicJSON.tiles (mosaic_def first.1.2)) "0123"
     = Some ["b.tif"; "a.tif"]%string
  /\ dict_lookup (MosaicJSON.tiles (mosaic_def first.1.2)) "0123"
     <> Some (new_assets ++ stored)
  /\ last.1.1 = inr tt
  /\ dict_lookup (MosaicJSON.tiles (mosaic_def last.1.2)) "0123"
     = Some ["a.tif"; "b.tif"]%string
  /\ dict_lookup (MosaicJSON.tiles (mosaic_def last.1.2)) "0123"
     <> Some (stored ++ new_assets).
Proof. cbv zeta. split_and!; try reflexivity; by vm_compute. Qed.

(** C4, amended. For every key of the candidate index (a quadkey at the
    index zoom), a successful update stores the new assets before the
    existing ones when [add_first] is true and after them otherwise, where
    the existing assets are those of the key (none when the key is absent) as
    [get_assets] reads them: the stored list with every repetition collapsed
    to its first occurrence. When the stored list has no repetition they are
    the stored list itself. *)
Theorem update_merge_order `{Ext : Externals} project (self self' : BaseBackend)
    (features : list Feature) (new_mosaic : MosaicJSON.t) (add_first : bool)
    (st st' : State) :
  expire_drops_only ->
  tms self = WebMercatorQuad project ->
  (forall new_tiles, cache_fresh (with_tiles self new_tiles) st) ->
  from_features features (MosaicJSON.minzoom (mosaic_def self))
                (MosaicJSON.maxzoom (mosaic_def self)) (quadkey_zoom self)
  = inr new_mosaic ->
  NoDup (MosaicJSON.tiles new_mosaic).*1 ->
  Forall (fun kv => valid_quadkey kv.1
                    /\ Z.of_nat (String.length kv.1) = quadkey_zoom self)
         (MosaicJSON.tiles new_mosaic) ->
  update self features add_first st = (inr tt, self', st') ->
  forall quadkey new_assets,
    dict_lookup (MosaicJSON.tiles new_mosaic) quadkey = Some new_assets ->
    let existing := dict_get (MosaicJSON.tiles (mosaic_def self)) quadkey [] in
    dict_lookup (MosaicJSON.tiles (mosaic_def self')) quadkey
    = Some (if add_first then new_assets ++ dedup_first existing
            else dedup_first existing ++ new_assets)
    /\ (NoDup existing -> dedup_first existing = existing).
Proof.
  intros Hexp Htms Hfresh Hff Hnd Hkeys Hup quadkey new_assets Hnew existing.
  rewrite (update_merge project self self' features new_mosaic add_first st st')
    by done.
  rewrite Hnew. cbv zeta. rewrite dict_fromkeys_dedup_first. split; [done|].
  intros Hnodup. rewrite <- dict_fromkeys_dedup_first. by apply dict_fromkeys_id.
Qed.

(** Witness of C4, the scenario of the specification: key "0123" holding
    ["a.tif"], updated with ["b.tif"], holds ["b.tif"; "a.tif"] when
    [add_first] is true and ["a.tif"; "b.tif"] otherwise. *)
Lemma update_merge_order_witness :
  dict_lookup (MosaicJSON.tiles (mosaic_def (demo_updated demo_tiles true).1.2)) "0123"
  = Some ["b.tif"; "a.tif"]%string
  /\ dict_lookup (MosaicJSON.tiles (mosaic_def (demo_updated demo_tiles false).1.2)) "0123"
     = Some ["a.tif"; "b.tif"]%string
  /\ dict_lookup
       (MosaicJSON.tiles
          (mosaic_def (demo_updated [("0123", ["a.tif"; "a.tif"])]%string true).1.2)) "0123"
     = Some (["b.tif"%string] ++ dedup_first ["a.tif"%string; "a.tif"%string]).
Proof.
  destruct demo_features_keys as [Hnd Hkeys]. split_and!.
  - exact (proj1 (@update_merge_order demo_externals demo_project
              (demo_backend demo_tiles) (demo_updated demo_tiles true).1.2 demo_features
              (hd (demo_document []) demo_features) true demo_state
              (demo_updated demo_tiles true).2
              demo_expire_drops_only eq_refl (fun _ => demo_cache_fresh _)
              eq_refl Hnd Hkeys eq_refl "0123"%string ["b.tif"%string] eq_refl)).
  - exact (proj1 (@update_merge_order demo_externals demo_project
              (demo_backend demo_tiles) (demo_updated demo_tiles false).1.2 demo_features
              (hd (demo_document []) demo_features) false demo_state
              (demo_updated demo_tiles false).2
              demo_expire_drops_only eq_refl (fun _ => demo_cache_fresh _)
              eq_refl Hnd Hkeys eq_refl "0123"%string ["b.tif"%string] eq_refl)).
  - exact (proj1 (@update_merge_order demo_externals demo_project
              (demo_backend [("0123", ["a.tif"; "a.tif"])]%string)
              (demo_updated [("0123", ["a.tif"; "a.tif"])]%string true).1.2 demo_features
              (hd (demo_document []) demo_features) true demo_state
              (demo_updated [("0123", ["a.tif"; "a.tif"])]%string true).2
              demo_expire_drops_only eq_refl (fun _ => demo_cache_fresh _)
              eq_refl Hnd Hkeys eq_refl "0123"%string ["b.tif"%string] eq_refl)).
Defined.

(** Counterexample to C5 as stated: key "0123" holds ["a.tif"; "a.tif"] and
    is updated with ["b.tif"]; the update succeeds and leaves
    ["b.tif"; "a.tif"]: one of the two stored occurrences of "a.tif" is gone. *)
Lemma update_collapses_repeated_existing :
  let stored := ["a.tif"; "a.tif"]%string in
  let new_assets := ["b.tif"]%string in
  let after := demo_updated [("0123"%string, stored)] true in
  let merged := dict_get (MosaicJSON.tiles (mosaic_def after.1.2)) "0123" [] in
  after.1.1 = inr tt
  /\ merged = ["b.tif"; "a.tif"]%string
  /\ ~ (forall a, occurrences a merged
                  = (occurrences a new_assets + occurrences a stored)%nat).
Proof.
  cbv zeta. split; [reflexivity|]. split; [reflexivity|].
  intros Hall. specialize (Hall "a.tif"%string). vm_compute in Hall. discriminate.
Qed.

(** C5, amended. For every key of the candidate index, the list a successful
    update stores holds every occurrence of the new assets, repetitions
    included, and every distinct existing asset of the key exactly once more:
    nothing is deduplicated between the new and the existing assets, no asset
    of either list is lost, but a repetition inside the existing list is
    collapsed because the existing assets are read through [get_assets]. *)
Theorem update_merge_occurrences `{Ext : Externals} project (self self' : BaseBackend)
    (features : list Feature) (new_mosaic : MosaicJSON.t) (add_first : bool)
    (st st' : State) :
  expire_drops_only ->
  tms self = WebMercatorQuad project ->
  (forall new_tiles, cache_fresh (with_tiles self new_tiles) st) ->
  from_features features (MosaicJSON.minzoom (mosaic_def self))
                (MosaicJSON.maxzoom (mosaic_def self)) (quadkey_zoom self)
  = inr new_mosaic ->
  NoDup (MosaicJSON.tiles new_mosaic).*1 ->
  Forall (fun kv => valid_quadkey kv.1
                    /\ Z.of_nat (String.length kv.1) = quadkey_zoom self)
         (MosaicJSON.tiles new_mosaic) ->
  update self features add_first st = (inr tt, self', st') ->
  forall quadkey new_assets,
    dict_lookup (MosaicJSON.tiles new_mosaic) quadkey = Some new_assets ->
    let existing := dict_get (MosaicJSON.tiles (mosaic_def self)) quadkey [] in
    let merged := dict_get (MosaicJSON.tiles (mosaic_def self')) quadkey [] in
    (forall a, occurrences a merged
               = (occurrences a new_assets + if decide (a ∈ existing) then 1 else 0)%nat)
    /\ (forall a, a ∈ new_assets \/ a ∈ existing -> a ∈ merged).
Proof.
  intros Hexp Htms Hfresh Hff Hnd Hkeys Hup quadkey new_assets Hnew existing merged.
  assert (merged = if add_first then new_assets ++ dict_fromkeys existing
                   else dict_fromkeys existing ++ new_assets) as ->.
  { unfold merged, dict_get at 1.
    rewrite (update_merge project self self' features new_mosaic add_first st st')
      by done.
    by rewrite Hnew. }
  assert (forall a, occurrences a (dict_fromkeys existing)
                    = if decide (a ∈ existing) then 1%nat else 0%nat) as Hocc.
  { intros a. rewrite occurrences_NoDup by apply dict_fromkeys_NoDup.
    apply decide_ext, dict_fromkeys_elem_of. }
  split.
  - intros a. destruct add_first; rewrite occurrences_app, Hocc; lia.
  - intros a Ha. destruct add_first; rewrite elem_of_app, dict_fromkeys_elem_of; tauto.
Qed.

(** Witness of C5 (amended), on the input of the counterexample. *)
Lemma update_merge_occurrences_witness :
  let merged :=
    dict_get (MosaicJSON.tiles
                (mosaic_def (demo_updated [("0123", ["a.tif"; "a.tif"])]%string true).1.2))
             "0123" [] in
  occurrences "a.tif" merged
  = (occurrences "a.tif" ["b.tif"%string]
     + if decide ("a.tif"%string ∈ ["a.tif"; "a.tif"]%string) then 1 else 0)%nat
  /\ occurrences "b.tif" merged
     = (occurrences "b.tif" ["b.tif"%string]
        + if decide ("b.tif"%string ∈ ["a.tif"; "a.tif"]%string) then 1 else 0)%nat.
Proof.
  cbv zeta. destruct demo_features_keys as [Hnd Hkeys].
  pose proof (proj1 (@update_merge_occurrences demo_externals demo_project
            (demo_backend [("0123", ["a.tif"; "a.tif"])]%string)
            (demo_updated [("0123", ["a.tif"; "a.tif"])]%string true).1.2 demo_features
            (hd (demo_document []) demo_features) true demo_state
            (demo_updated [("0123", ["a.tif"; "a.tif"])]%string true).2
            demo_expire_drops_only eq_refl (fun _ => demo_cache_fresh _)
            eq_refl Hnd Hkeys eq_refl
            "0123"%string ["b.tif"%string] eq_refl)) as Hocc.
  split; apply Hocc.
Defined.




(** C7. [tile] raises [NoAssetFoundError] exactly when [get_assets] returns
    the empty list, and [point] raises it when the assets resolved for the
    point are empty. In both cases the state is the one the single lookup
    left: no asset was opened, and nothing was tried again. *)
Theorem no_asset_found `{Ext : Externals} (self : BaseBackend) (st : State) :
  (forall x y z reverse_order,
      ((tile self x y z reverse_order st).1 = inl NoAssetFoundError
       <-> (get_assets self x y z st).1 = inr [])
      /\ ((get_assets self x y z st).1 = inr [] ->
          (tile self x y z reverse_order st).2 = (get_assets self x y z st).2
          /\ opened (tile self x y z reverse_order st).2 = opened st))
  /\ (forall lon lat reverse_order coord_crs allowed_exceptions,
         (assets_for_point self lon lat WGS84_CRS st).1 = inr [] ->
         (point self lon lat reverse_order coord_crs allowed_exceptions st).1
         = inl NoAssetFoundError
         /\ (point self lon lat reverse_order coord_crs allowed_exceptions st).2
            = (assets_for_point self lon lat WGS84_CRS st).2
         /\ opened (point self lon lat reverse_order coord_crs allowed_exceptions st).2
            = opened st).
Proof.
  split.
  - intros x y z reverse_order.
    pose proof (get_assets_not_no_asset self x y z st) as Hne.
    pose proof (get_assets_opened self x y z st) as Hopen.
    unfold tile, bind.
    destruct (get_assets self x y z st) as [[e|assets] st1]; simpl in *.
    + split; [split; [congruence|done]|done].
    + destruct (decide (assets = [])) as [->|Hnil]; simpl.
      * done.
      * split; [|congruence]. split; [|congruence].
        intros Hraise. by apply lift_rio_not_no_asset in Hraise.
  - intros lon lat reverse_order coord_crs allowed_exceptions Hempty.
    pose proof (assets_for_point_opened self lon lat WGS84_CRS st) as Hopen.
    unfold point, bind.
    destruct (assets_for_point self lon lat WGS84_CRS st) as [r st1].
    simpl in Hempty, Hopen. subst r. simpl. done.
Qed.

(** Witness of C7: no key of the demo index covers the tile (9, 9, 4) or
    the point (9, 9). *)
Lemma no_asset_found_witness :
  (@tile demo_externals (demo_backend demo_tiles) 9 9 4 false demo_state).1
  = inl NoAssetFoundError
  /\ (@point demo_externals (demo_backend demo_tiles) (Q2Qc (inject_Z 9)) (Q2Qc (inject_Z 9))
        false WGS84_CRS None demo_state).1
     = inl NoAssetFoundError.
Proof.
  destruct (@no_asset_found demo_externals (demo_backend demo_tiles) demo_state)
    as [Htile Hpoint].
  split.
  - apply Htile. reflexivity.
  - apply Hpoint. reflexivity.
Defined.

(** C8, the code at the failing input. In the demo setting the transform
    from EPSG:3857 shifts the longitude by one, so the point (6, 3) given in
    EPSG:3857 is the geographic point (5, 3), in the tile of key "0123" with
    asset "a.tif": that is what [assets_for_point] resolves when it is given
    the CRS. [point] calls it without the CRS: it resolves the tile of (6, 3),
    key "0132", and reads "b.tif". *)
Lemma point_lookup_ignores_coord_crs :
  (@assets_for_point demo_externals (demo_backend demo_tiles)
     (Q2Qc (inject_Z 6)) (Q2Qc (inject_Z 3)) WEB_MERCATOR_CRS demo_state).1
  = inr ["a.tif"%string]
  /\ (@point demo_externals (demo_backend demo_tiles)
        (Q2Qc (inject_Z 6)) (Q2Qc (inject_Z 3)) false WEB_MERCATOR_CRS None demo_state).1
     = inr [("b.tif"%string, 7)]
  /\ opened (@point demo_externals (demo_backend demo_tiles)
               (Q2Qc (inject_Z 6)) (Q2Qc (inject_Z 3)) false WEB_MERCATOR_CRS None
               demo_state).2
     = ["b.tif"%string].
Proof. split_and!; reflexivity. Qed.

(** Whatever the CRS of the caller, [point] resolves its assets as for a
    WGS84 point. *)
Lemma point_resolves_as_wgs84 `{Ext : Externals} (self : BaseBackend) (lon lat : Qc)
    (reverse_order : bool) (coord_crs : CRS) (allowed_exceptions : option (list rio_error))
    (st : State) (e : exn) :
  (assets_for_point self lon lat WGS84_CRS st).1 = inl e ->
  (point self lon lat reverse_order coord_crs allowed_exceptions st).1 = inl e.
Proof.
  intros He. unfold point, bind.
  destruct (assets_for_point self lon lat WGS84_CRS st) as [r st1].
  simpl in He. by subst r.
Qed.

(** Counterexample to C9 as stated: the point (0, 0) of the demo index
    resolves to ["a.tif"; "b.tif"]; "a.tif" does not cover the point and
    "b.tif" reads 7. A caller passing its own (empty) [allowed_exceptions]
    gets the failure of "a.tif" raised instead of the value of "b.tif". *)
Lemma point_outside_bounds_raised :
  (@assets_for_point demo_externals (demo_backend demo_tiles) (Q2Qc 0) (Q2Qc 0) WGS84_CRS
     demo_state).1 = inr ["a.tif"; "b.tif"]%string
  /\ @point_value demo_externals (demo_backend demo_tiles) (Q2Qc 0) (Q2Qc 0) WGS84_CRS "a.tif"
     = inl PointOutsideBounds
  /\ @point_value demo_externals (demo_backend demo_tiles) (Q2Qc 0) (Q2Qc 0) WGS84_CRS "b.tif"
     = inr 7
  /\ (@point demo_externals (demo_backend demo_tiles) (Q2Qc 0) (Q2Qc 0) false WGS84_CRS
        (Some []) demo_state).1
     = inl (ReaderError PointOutsideBounds).
Proof. split_and!; reflexivity. Qed.

(** C9, amended. When the caller passes no [allowed_exceptions] of its own,
    a point query whose per-asset failures all are [PointOutsideBounds]
    succeeds, and returns the (asset, value) pairs of exactly the assets
    whose read succeeded, in asset order (reversed when asked). *)
Theorem point_swallows_outside_bounds `{Ext : Externals} (self : BaseBackend)
    (lon lat : Qc) (reverse_order : bool) (coord_crs : CRS) (st : State)
    (assets : list string) :
  expire_drops_only ->
  cache_fresh self st ->
  (assets_for_point self lon lat WGS84_CRS st).1 = inr assets ->
  assets <> [] ->
  (forall asset e, asset ∈ assets ->
                   point_value self lon lat coord_crs asset = inl e ->
                   e = PointOutsideBounds) ->
  (point self lon lat reverse_order coord_crs None st).1
  = inr (successful_values self lon lat coord_crs
           (if reverse_order then reverse assets else assets)).
Proof.
  intros Hexp Hfresh Hassets Hne Hfail.
  assert (NoDup assets) as Hnd.
  { unfold assets_for_point in Hassets. destruct (transform_point _ _ _ _) as [lng' lat'].
    set (t := tms_tile _ _ _ _) in *.
    destruct (get_assets_cache_fresh self (tile_x t) (tile_y t) (tile_z t) st Hexp Hfresh)
      as (Hval & _).
    rewrite Hassets in Hval. symmetry in Hval.
    by apply (get_assets_uncached_result self (tile_x t) (tile_y t) (tile_z t)). }
  unfold point, bind.
  destruct (assets_for_point self lon lat WGS84_CRS st) as [r st1].
  simpl in Hassets. subst r. rewrite decide_False by done.
  set (ordered := if reverse_order then reverse assets else assets).
  assert (NoDup ordered) as Hnd'.
  { unfold ordered. destruct reverse_order; [by rewrite reverse_Permutation|done]. }
  assert (forall asset, asset ∈ ordered -> asset ∈ assets) as Hin.
  { unfold ordered. destruct reverse_order; [|done].
    intros a Ha. by rewrite elem_of_reverse in Ha. }
  destruct (collect_values self lon lat coord_crs [PointOutsideBounds] ordered Hnd')
    as (vals & Hvals & Hfold).
  { intros a e Ha He. apply list_elem_of_singleton. eapply Hfail; [by apply Hin|done]. }
  unfold lift_rio, multi_values. rewrite create_tasks_point, Hvals. simpl.
  f_equal. rewrite (Hfold []); [done|]. intros a _. simpl. apply not_elem_of_nil.
Qed.

(** Witness of C9 (amended), the scenario of the specification: asset 1
    ("a.tif") reports the point outside its coverage, asset 2 ("b.tif")
    succeeds; the result holds the value of asset 2 only. *)
Lemma point_swallows_outside_bounds_witness :
  (@point demo_externals (demo_backend demo_tiles) (Q2Qc 0) (Q2Qc 0) false WGS84_CRS None
     demo_state).1
  = inr [("b.tif"%string, 7)].
Proof.
  rewrite (@point_swallows_outside_bounds demo_externals (demo_backend demo_tiles)
             (Q2Qc 0) (Q2Qc 0) false WGS84_CRS demo_state ["a.tif"; "b.tif"]%string
             demo_expire_drops_only (demo_cache_fresh _) eq_refl).
  - reflexivity.
  - discriminate.
  - intros asset e Ha.
    apply elem_of_cons in Ha as [->|Ha]; [by intros [= <-]|].
    apply list_elem_of_singleton in Ha as ->. discriminate.
Defined.

(** C10. A falsy stored quadkey zoom ([None] or 0) is replaced by [minzoom];
    so the property [quadkey_zoom] is 0 only when [minzoom] is 0, and with a
    positive [minzoom] it is never 0. *)
Theorem quadkey_zoom_falsy_is_minzoom (self : BaseBackend) :
  (MosaicJSON.quadkey_zoom (mosaic_def self) = Some 0
   \/ MosaicJSON.quadkey_zoom (mosaic_def self) = None ->
   quadkey_zoom self = MosaicJSON.minzoom (mosaic_def self))
  /\ (quadkey_zoom self = 0 -> MosaicJSON.minzoom (mosaic_def self) = 0)
  /\ (0 < MosaicJSON.minzoom (mosaic_def self) -> quadkey_zoom self <> 0).
Proof.
  unfold quadkey_zoom, py_or.
  destruct (MosaicJSON.quadkey_zoom (mosaic_def self)) as [q|].
  - destruct (decide (q = 0)) as [->|Hq].
    + split_and!; [done|done|lia].
    + split_and!; [intros [[=]|[=]]; done|done|done].
  - split_and!; [done|done|lia].
Qed.


(** Witness of C10: a stored zoom of 0 under [minzoom] 4 gives 4. *)
Lemma quadkey_zoom_falsy_is_minzoom_witness :
  quadkey_zoom demo_zoom_zero = 4 /\ quadkey_zoom demo_zoom_zero <> 0.
Proof.
  destruct (quadkey_zoom_falsy_is_minzoom demo_zoom_zero) as (Hfalsy & _ & Hpos).
  split.
  - apply Hfalsy. by left.
  - apply Hpos. reflexivity.
Defined.

(** * Further properties *)

(** X1. [get_assets] is idempotent: on a cache that holds no wrong answer
    for the backend, a second call with no update in between returns the
    list of the first. *)
Theorem get_assets_idempotent `{Ext : Externals} (self : BaseBackend) (x y z : Z)
    (st : State) :
  expire_drops_only ->
  cache_fresh self st ->
  (get_assets self x y z (get_assets self x y z st).2).1 = (get_assets self x y z st).1.
Proof.
  intros Hexp Hfresh.
  destruct (get_assets_cache_fresh self x y z st Hexp Hfresh) as [Hval Hfresh1].
  destruct (get_assets_cache_fresh self x y z _ Hexp Hfresh1) as [Hval1 _].
  by rewrite Hval1, Hval.
Qed.

(** Witness of X1: the second call hits the entry the first one stored. *)
Lemma get_assets_idempotent_witness :
  (@get_assets demo_externals (demo_backend demo_tiles) 0 0 4
     (@get_assets demo_externals (demo_backend demo_tiles) 0 0 4 demo_state).2).1
  = inr ["a.tif"; "b.tif"]%string.
Proof.
  rewrite (@get_assets_idempotent demo_externals (demo_backend demo_tiles) 0 0 4 demo_state
             demo_expire_drops_only (demo_cache_fresh _)).
  reflexivity.
Defined.

(** X2. With the quadtree scheme, a tile coarser than the index resolves to
    the keys of its descendants at the index zoom: four to the power of the
    zoom difference of them, all distinct, each at the index zoom and with
    the tile as its ancestor. *)
Theorem find_quadkeys_descendants project (t : Tile) (quadkey_zoom : Z) :
  tile_z t < quadkey_zoom ->
  exists tiles,
    find_quadkeys (WebMercatorQuad project) t quadkey_zoom = inr (map qt_quadkey tiles)
    /\ length tiles = (4 ^ Z.to_nat (quadkey_zoom - tile_z t))%nat
    /\ NoDup tiles
    /\ forall t', t' ∈ tiles -> tile_z t' = quadkey_zoom /\ ancestor t' (tile_z t) = t.
Proof.
  intros Hlt.
  destruct (walk_down_quadtree project (Z.to_nat (quadkey_zoom - tile_z t)) [t])
    as (Hlen & Hnd & Hanc).
  set (tiles := walk_down _ _ _) in *.
  assert (forall t', t' ∈ tiles -> tile_z t' = quadkey_zoom /\ ancestor t' (tile_z t) = t)
    as Hall.
  { intros t' Ht'. destruct (Hanc t' Ht') as (t0 & ->%list_elem_of_singleton & Hz & Hx & Hy).
    rewrite Z2Nat.id in Hz, Hx, Hy by lia. split; [lia|].
    unfold ancestor. replace (tile_z t' - tile_z t) with (quadkey_zoom - tile_z t) by lia.
    rewrite Hx, Hy. by destruct t. }
  exists tiles. split_and!.
  - unfold find_quadkeys. rewrite decide_False by lia. rewrite decide_True by done.
    cbv zeta. fold tiles. rewrite filter_all.
    + apply quadkeys_of_quadtree.
    + apply Forall_forall. intros t' Ht'. by apply Hall.
  - rewrite Hlen. simpl. lia.
  - apply Hnd, NoDup_singleton.
  - done.
Qed.

(** Witness of X2: the tile (1, 0, 2) against the index at zoom 4 resolves
    to sixteen keys, the first of them "0100". *)
Lemma find_quadkeys_descendants_witness :
  exists tiles,
    find_quadkeys (WebMercatorQuad demo_project) (mkTile 1 0 2) 4 = inr (map qt_quadkey tiles)
    /\ length tiles = 16%nat
    /\ head (map qt_quadkey tiles) = Some "0100"%string.
Proof.
  destruct (find_quadkeys_descendants demo_project (mkTile 1 0 2) 4) as (tiles & Hq & Hlen & _).
  - simpl. lia.
  - exists tiles. split_and!; [done|done|].
    assert (match find_quadkeys (WebMercatorQuad demo_project) (mkTile 1 0 2) 4 with
            | inr keys => head keys
            | inl _ => None
            end = Some "0100"%string) as Hhead by reflexivity.
    by rewrite Hq in Hhead.
Defined.

(** X3. Once the candidate index is built, the merge cannot fail: with the
    quadtree scheme and distinct keys at the index zoom, the outcome of
    [update] is the outcome of [write] on the committed document. *)
Theorem update_merge_cannot_fail `{Ext : Externals} project (self : BaseBackend)
    (features : list Feature) (new_mosaic : MosaicJSON.t) (add_first : bool) (st : State) :
  expire_drops_only ->
  tms self = WebMercatorQuad project ->
  (forall new_tiles, cache_fresh (with_tiles self new_tiles) st) ->
  from_features features (MosaicJSON.minzoom (mosaic_def self))
                (MosaicJSON.maxzoom (mosaic_def self)) (quadkey_zoom self)
  = inr new_mosaic ->
  NoDup (MosaicJSON.tiles new_mosaic).*1 ->
  Forall (fun kv => valid_quadkey kv.1
                    /\ Z.of_nat (String.length kv.1) = quadkey_zoom self)
         (MosaicJSON.tiles new_mosaic) ->
  (update self features add_first st).1.1
  = write (update self features add_first st).1.2 true.
Proof.
  intros Hexp Htms Hfresh Hff Hnd Hkeys.
  destruct (update_tiles_merge project add_first (MosaicJSON.tiles new_mosaic) self st
              Hexp Htms Hnd Hkeys) as [Hok _].
  { intros k0 t new_tiles v _ _. apply Hfresh. }
  unfold update. rewrite Hff.
  destruct (update_tiles self (MosaicJSON.tiles new_mosaic) add_first st)
    as [[r self1] st1].
  simpl in Hok. subst r. reflexivity.
Qed.

(** Witness of X3: the update of the demo index succeeds. *)
Lemma update_merge_cannot_fail_witness :
  (demo_updated demo_tiles true).1.1 = inr tt.
Proof.
  destruct demo_features_keys as [Hnd Hkeys].
  unfold demo_updated.
  rewrite (@update_merge_cannot_fail demo_externals demo_project (demo_backend demo_tiles)
             demo_features (hd (demo_document []) demo_features) true demo_state
             demo_expire_drops_only eq_refl (fun _ => demo_cache_fresh _)
             eq_refl Hnd Hkeys).
  reflexivity.
Defined.

(** ** The union of boxes *)

Lemma Qc_eq_by_le (x y : Qc) : (forall c, (c <= x)%Qc <-> (c <= y)%Qc) -> x = y.
Proof.
  intros H. apply Qcle_antisym.
  - apply H, Qcle_refl.
  - apply H, Qcle_refl.
Qed.

Lemma Qc_eq_by_ge (x y : Qc) : (forall c, (x <= c)%Qc <-> (y <= c)%Qc) -> x = y.
Proof.
  intros H. apply Qcle_antisym.
  - apply H, Qcle_refl.
  - apply H, Qcle_refl.
Qed.

Lemma py_min_glb (a b c : Qc) : (c <= py_min a b)%Qc <-> (c <= a)%Qc /\ (c <= b)%Qc.
Proof.
  destruct (py_min_is_min a b) as (Ha & Hb & Hor). split.
  - intros Hc. split; eapply Qcle_trans; eauto.
  - intros [Hca Hcb]. by destruct Hor as [-> | ->].
Qed.

Lemma py_max_lub (a b c : Qc) : (py_max a b <= c)%Qc <-> (a <= c)%Qc /\ (b <= c)%Qc.
Proof.
  destruct (py_max_is_max a b) as (Ha & Hb & Hor). split.
  - intros Hc. split; eapply Qcle_trans; eauto.
  - intros [Hca Hcb]. by destruct Hor as [-> | ->].
Qed.

Lemma py_min_comm (a b : Qc) : py_min a b = py_min b a.
Proof. apply Qc_eq_by_le. intros c. rewrite !py_min_glb. tauto. Qed.

Lemma py_max_comm (a b : Qc) : py_max a b = py_max b a.
Proof. apply Qc_eq_by_ge. intros c. rewrite !py_max_lub. tauto. Qed.

Lemma py_min_assoc (a b c : Qc) : py_min a (py_min b c) = py_min (py_min a b) c.
Proof. apply Qc_eq_by_le. intros d. rewrite !py_min_glb. tauto. Qed.

Lemma py_max_assoc (a b c : Qc) : py_max a (py_max b c) = py_max (py_max a b) c.
Proof. apply Qc_eq_by_ge. intros d. rewrite !py_max_lub. tauto. Qed.

Lemma py_min_idem (a : Qc) : py_min a a = a.
Proof. apply Qc_eq_by_le. intros c. rewrite py_min_glb. tauto. Qed.

Lemma py_max_idem (a : Qc) : py_max a a = a.
Proof. apply Qc_eq_by_ge. intros c. rewrite py_max_lub. tauto. Qed.

Lemma bbox_union_least (outer bbox_1 bbox_2 : BBox) :
  bbox_contains outer bbox_1 -> bbox_contains outer bbox_2 ->
  bbox_contains outer (bbox_union bbox_1 bbox_2).
Proof.
  intros (Hl1 & Hb1 & Hr1 & Ht1) (Hl2 & Hb2 & Hr2 & Ht2).
  unfold bbox_contains, bbox_union, bbox_left, bbox_bottom, bbox_right, bbox_top in *.
  cbn [fst snd] in *.
  rewrite !py_min_glb, !py_max_lub. tauto.
Qed.

(** X4. The union of two boxes is the least box that contains both: it
    contains each, and every box that contains both contains the union. So a
    box that already contains the other is left as it is. *)
Theorem bbox_union_is_least (outer bbox_1 bbox_2 : BBox) :
  bbox_contains outer bbox_1 -> bbox_contains outer bbox_2 ->
  bbox_contains (bbox_union bbox_1 bbox_2) bbox_1
  /\ bbox_contains (bbox_union bbox_1 bbox_2) bbox_2
  /\ bbox_contains outer (bbox_union bbox_1 bbox_2)
  /\ (outer = bbox_2 -> bbox_union bbox_1 bbox_2 = bbox_2).
Proof.
  intros H1 H2. split_and!.
  - apply bbox_union_contains.
  - apply bbox_union_contains.
  - by apply bbox_union_least.
  - intros ->. destruct H1 as (Hl & Hb & Hr & Ht).
    destruct bbox_2 as [[[l2 b2] r2] t2].
    unfold bbox_union, bbox_left, bbox_bottom, bbox_right, bbox_top in *.
    cbn [fst snd] in *. repeat f_equal.
    + apply Qc_eq_by_le. intros c. rewrite py_min_glb. split; [tauto|].
      intros Hc. split; [|done]. by eapply Qcle_trans.
    + apply Qc_eq_by_le. intros c. rewrite py_min_glb. split; [tauto|].
      intros Hc. split; [|done]. by eapply Qcle_trans.
    + apply Qc_eq_by_ge. intros c. rewrite py_max_lub. split; [tauto|].
      intros Hc. split; [|done]. by eapply Qcle_trans.
    + apply Qc_eq_by_ge. intros c. rewrite py_max_lub. split; [tauto|].
      intros Hc. split; [|done]. by eapply Qcle_trans.
Qed.

(** Witness of X4: the box (1, 1, 2, 2) inside (0, 0, 8, 8). *)
Lemma bbox_union_is_least_witness :
  bbox_contains (demo_box 0 0 8 8) (bbox_union (demo_box 1 1 2 2) (demo_box 0 0 8 8))
  /\ bbox_union (demo_box 1 1 2 2) (demo_box 0 0 8 8) = demo_box 0 0 8 8.
Proof.
  assert (bbox_contains (demo_box 0 0 8 8) (demo_box 1 1 2 2)) as H1.
  { by vm_compute. }
  assert (bbox_contains (demo_box 0 0 8 8) (demo_box 0 0 8 8)) as H2.
  { by vm_compute. }
  destruct (bbox_union_is_least (demo_box 0 0 8 8) (demo_box 1 1 2 2) (demo_box 0 0 8 8)
              H1 H2) as (_ & _ & Hleast & Habsorb).
  split; [exact Hleast|by apply Habsorb].
Defined.

(** X5. The union of boxes is commutative, associative and idempotent: the
    bounds of a mosaic do not depend on the order in which observations were
    merged into it, nor on how often. *)
Theorem bbox_union_semilattice (a b c : BBox) :
  bbox_union a b = bbox_union b a
  /\ bbox_union a (bbox_union b c) = bbox_union (bbox_union a b) c
  /\ bbox_union a a = a.
Proof.
  unfold bbox_union, bbox_left, bbox_bottom, bbox_right, bbox_top. cbn [fst snd].
  split_and!.
  - by rewrite (py_min_comm (bbox_left a)), (py_min_comm (bbox_bottom a)),
      (py_max_comm (bbox_right a)), (py_max_comm (bbox_top a)).
  - by rewrite !py_min_assoc, !py_max_assoc.
  - rewrite !py_min_idem, !py_max_idem. by destruct a as [[[l b0] r] t].
Qed.

(** ** What update changes and what it leaves alone *)

Lemma bbox_union_valid (bbox_1 bbox_2 : BBox) :
  bbox_valid bbox_2 -> bbox_valid (bbox_union bbox_1 bbox_2).
Proof.
  intros [Hlr Hbt].
  destruct (bbox_union_contains bbox_1 bbox_2) as [_ (Hl & Hb & Hr & Ht)].
  split.
  - eapply Qcle_trans; [exact Hl|]. eapply Qcle_trans; [exact Hlr|exact Hr].
  - eapply Qcle_trans; [exact Hb|]. eapply Qcle_trans; [exact Hbt|exact Ht].
Qed.

Lemma dict_set_keys {V} (d : list (string * V)) (k : string) (v : V) :
  (dict_set d k v).*1 = fromkeys_step d.*1 k.
Proof.
  induction d as [|[k' v'] d IH].
  - by rewrite fromkeys_step_new by apply not_elem_of_nil.
  - cbn [dict_set]. destruct (decide (k' = k)) as [->|Hne]; rewrite !fmap_cons; cbn [fst].
    + rewrite fromkeys_step_old; [done|]. apply elem_of_cons. by left.
    + rewrite IH. destruct (decide (k ∈ d.*1)) as [Hin|Hout].
      * rewrite !fromkeys_step_old; [done| |done]. apply elem_of_cons. by right.
      * rewrite !fromkeys_step_new; [done| |done].
        intros [->|Hin]%elem_of_cons; done.
Qed.

Section update_more.
Context `{Ext : Externals}.

Lemma update_tiles_opened (add_first : bool) (items : list (string * list string)) :
  forall (self : BaseBackend) (st : State),
    opened (update_tiles self items add_first st).2 = opened st.
Proof.
  induction items as [|[quadkey new_assets] rest IH]; intros self st; simpl; [done|].
  destruct (tms_quadkey_to_tile (tms self) quadkey) as [e|t]; [done|].
  pose proof (get_assets_opened self (tile_x t) (tile_y t) (tile_z t) st) as Hopen.
  destruct (get_assets self (tile_x t) (tile_y t) (tile_z t) st) as [[e|assets] st1];
    simpl in *; [done|].
  by rewrite IH.
Qed.

Lemma update_tiles_keys (add_first : bool) (items : list (string * list string)) :
  forall (self : BaseBackend) (st : State),
    (update_tiles self items add_first st).1.1 = inr tt ->
    _quadkeys (update_tiles self items add_first st).1.2
    = fold_left fromkeys_step items.*1 (_quadkeys self).
Proof.
  induction items as [|[quadkey new_assets] rest IH]; intros self st; simpl; [done|].
  destruct (tms_quadkey_to_tile (tms self) quadkey) as [e|t]; [done|].
  destruct (get_assets self (tile_x t) (tile_y t) (tile_z t) st) as [[e|assets] st1];
    simpl; [done|].
  intros Hok. rewrite IH by done. f_equal.
  unfold _quadkeys, set_tiles. simpl. apply dict_set_keys.
Qed.

Lemma update_tiles_other_keys (add_first : bool) (items : list (string * list string))
    (k : string) :
  k ∉ items.*1 ->
  forall (self : BaseBackend) (st : State),
    dict_lookup (MosaicJSON.tiles (mosaic_def (update_tiles self items add_first st).1.2)) k
    = dict_lookup (MosaicJSON.tiles (mosaic_def self)) k.
Proof.
  induction items as [|[quadkey new_assets] rest IH]; intros Hk self st; simpl; [done|].
  simpl in Hk. apply not_elem_of_cons in Hk as [Hne Hk].
  destruct (tms_quadkey_to_tile (tms self) quadkey) as [e|t]; [done|].
  destruct (get_assets self (tile_x t) (tile_y t) (tile_z t) st) as [[e|assets] st1];
    simpl; [done|].
  rewrite IH by done. unfold set_tiles. simpl. by apply dict_lookup_set_ne.
Qed.

(** The backend that [update] leaves is the old one with other tiles, or
    that one committed. *)
Lemma update_backend (self : BaseBackend) (features : list Feature) (add_first : bool)
    (st : State) :
  let self' := (update self features add_first st).1.2 in
  self' = with_tiles self (MosaicJSON.tiles (mosaic_def self'))
  \/ exists new_mosaic,
       from_features features (MosaicJSON.minzoom (mosaic_def self))
                     (MosaicJSON.maxzoom (mosaic_def self)) (quadkey_zoom self)
       = inr new_mosaic
       /\ (update_tiles self (MosaicJSON.tiles new_mosaic) add_first st).1.1 = inr tt
       /\ (update self features add_first st).1.1 = write self' true
       /\ self' = commit (with_tiles self (MosaicJSON.tiles (mosaic_def self')))
                         (MosaicJSON.bounds new_mosaic).
Proof.
  cbv zeta. unfold update.
  destruct (from_features _ _ _ _) as [e|new_mosaic]; simpl.
  - left. by rewrite with_tiles_same.
  - pose proof (update_tiles_with_tiles add_first (MosaicJSON.tiles new_mosaic) self st) as H1.
    destruct (update_tiles self (MosaicJSON.tiles new_mosaic) add_first st)
      as [[[e|[]] self1] st1] eqn:Hloop; simpl in *.
    + by left.
    + right. exists new_mosaic. rewrite Hloop. split_and!; [done|done|done|].
      by rewrite <- H1.
Qed.

End update_more.

(** X6. [update] keeps the bounds of the document a valid box: when the
    left side is not right of the right side and the bottom not above the
    top before the call, the same holds after it, whatever its outcome and
    whatever box the new observations come with. *)
Theorem update_keeps_bounds_valid `{Ext : Externals} (self : BaseBackend)
    (features : list Feature) (add_first : bool) (st : State) :
  bbox_valid (MosaicJSON.bounds (mosaic_def self)) ->
  bbox_valid (MosaicJSON.bounds (mosaic_def (update self features add_first st).1.2)).
Proof.
  intros Hvalid.
  destruct (update_backend self features add_first st) as [Heq|(nm & _ & _ & _ & Heq)];
    cbv zeta in Heq; rewrite Heq; [done|].
  by apply bbox_union_valid.
Qed.

(** Witness of X6: the demo index, bounds (0, 0, 8, 8), updated with
    observations over (-1, 2, 5, 9). *)
Lemma update_keeps_bounds_valid_witness :
  bbox_valid (MosaicJSON.bounds (mosaic_def (demo_updated demo_tiles true).1.2)).
Proof.
  apply (@update_keeps_bounds_valid demo_externals (demo_backend demo_tiles) demo_features
           true demo_state).
  by vm_compute.
Defined.

(** X7. Whatever its outcome, [update] changes nothing but the tiles, the
    bounds, the center and the version: the path, the tile matrix set, the
    CRSs and the zooms of the backend, the name and the zooms of the
    document (so the index zoom too) and the log of opened assets are those
    from before. *)
Theorem update_frame `{Ext : Externals} (self : BaseBackend) (features : list Feature)
    (add_first : bool) (st : State) :
  let self' := (update self features add_first st).1.2 in
  input self' = input self
  /\ tms self' = tms self
  /\ crs self' = crs self
  /\ geographic_crs self' = geographic_crs self
  /\ minzoom self' = minzoom self
  /\ maxzoom self' = maxzoom self
  /\ MosaicJSON.name (mosaic_def self') = MosaicJSON.name (mosaic_def self)
  /\ MosaicJSON.minzoom (mosaic_def self') = MosaicJSON.minzoom (mosaic_def self)
  /\ MosaicJSON.maxzoom (mosaic_def self') = MosaicJSON.maxzoom (mosaic_def self)
  /\ MosaicJSON.quadkey_zoom (mosaic_def self') = MosaicJSON.quadkey_zoom (mosaic_def self)
  /\ quadkey_zoom self' = quadkey_zoom self
  /\ opened (update self features add_first st).2 = opened st.
Proof.
  cbv zeta.
  assert (opened (update self features add_first st).2 = opened st) as Hopen.
  { unfold update. destruct (from_features _ _ _ _) as [e|new_mosaic]; [done|].
    pose proof (update_tiles_opened add_first (MosaicJSON.tiles new_mosaic) self st) as H.
    by destruct (update_tiles self (MosaicJSON.tiles new_mosaic) add_first st)
      as [[[e|[]] self1] st1]. }
  destruct (update_backend self features add_first st) as [Heq|(nm & _ & _ & _ & Heq)];
    cbv zeta in Heq; rewrite Heq; by split_and!.
Qed.

(** X8. After a successful update the keys of the index, as [_quadkeys]
    lists them, are the old keys in their old order followed by the keys of
    the candidate index that are new, in the order of the candidate index: no
    key is dropped, moved or listed twice. *)
Theorem update_quadkeys `{Ext : Externals} (self self' : BaseBackend)
    (features : list Feature) (new_mosaic : MosaicJSON.t) (add_first : bool)
    (st st' : State) :
  NoDup (_quadkeys self) ->
  from_features features (MosaicJSON.minzoom (mosaic_def self))
                (MosaicJSON.maxzoom (mosaic_def self)) (quadkey_zoom self)
  = inr new_mosaic ->
  update self features add_first st = (inr tt, self', st') ->
  _quadkeys self' = dict_fromkeys (_quadkeys self ++ (MosaicJSON.tiles new_mosaic).*1)
  /\ take (length (_quadkeys self)) (_quadkeys self') = _quadkeys self
  /\ NoDup (_quadkeys self')
  /\ (forall k, k ∈ _quadkeys self' <->
                k ∈ _quadkeys self \/ k ∈ (MosaicJSON.tiles new_mosaic).*1).
Proof.
  intros Hnd Hff Hup.
  apply update_success in Hup as (nm & self1 & Hff' & Hloop & -> & _).
  rewrite Hff in Hff'. injection Hff' as <-.
  pose proof (update_tiles_keys add_first (MosaicJSON.tiles new_mosaic) self st) as Hkeys.
  rewrite Hloop in Hkeys. simpl in Hkeys. specialize (Hkeys eq_refl).
  assert (_quadkeys (commit self1 (MosaicJSON.bounds new_mosaic)) = _quadkeys self1) as ->.
  { unfold _quadkeys. by rewrite commit_tiles. }
  rewrite Hkeys.
  assert (fold_left fromkeys_step (_quadkeys self) [] = _quadkeys self) as Hold.
  { by rewrite fromkeys_fold_id. }
  split_and!.
  - unfold dict_fromkeys. by rewrite fold_left_app, Hold.
  - rewrite fromkeys_fold_positions. by rewrite take_app_length.
  - by apply fromkeys_fold_NoDup.
  - intros k. apply fromkeys_fold_elem_of.
Qed.

(** Witness of X8: the demo index updated with observations under the new
    key "0001" and the old key "0123". *)
Lemma update_quadkeys_witness :
  _quadkeys (@update demo_externals (demo_backend demo_tiles) demo_features_new_key true
               demo_state).1.2
  = ["0123"; "0132"; "0000"; "0001"]%string.
Proof.
  destruct (@update_quadkeys demo_externals (demo_backend demo_tiles)
              (@update demo_externals (demo_backend demo_tiles) demo_features_new_key true
                 demo_state).1.2
              demo_features_new_key (hd (demo_document []) demo_features_new_key) true
              demo_state
              (@update demo_externals (demo_backend demo_tiles) demo_features_new_key true
                 demo_state).2) as (Hkeys & _).
  - by vm_compute; repeat constructor; set_solver.
  - reflexivity.
  - reflexivity.
  - rewrite Hkeys. reflexivity.
Defined.

(** X9. [update] touches the lists of the candidate index's keys only:
    whatever its outcome, a key that the candidate index does not have keeps
    its list (or stays absent); and when the candidate index cannot be built,
    the backend and the cache are left as they were. *)
Theorem update_touches_candidate_keys_only `{Ext : Externals} (self : BaseBackend)
    (features : list Feature) (add_first : bool) (st : State) :
  match from_features features (MosaicJSON.minzoom (mosaic_def self))
                      (MosaicJSON.maxzoom (mosaic_def self)) (quadkey_zoom self) with
  | inl e => update self features add_first st = (inl e, self, st)
  | inr new_mosaic =>
    forall k, k ∉ (MosaicJSON.tiles new_mosaic).*1 ->
      dict_lookup (MosaicJSON.tiles (mosaic_def (update self features add_first st).1.2)) k
      = dict_lookup (MosaicJSON.tiles (mosaic_def self)) k
  end.
Proof.
  unfold update. destruct (from_features _ _ _ _) as [e|new_mosaic]; [done|].
  intros k Hk.
  pose proof (update_tiles_other_keys add_first (MosaicJSON.tiles new_mosaic) k Hk self st)
    as Hother.
  by destruct (update_tiles self (MosaicJSON.tiles new_mosaic) add_first st)
    as [[[e|[]] self1] st1].
Qed.

Lemma demo_readonly_expire_drops_only : @expire_drops_only demo_readonly.
Proof. by intros t entries e. Qed.

Lemma demo_readonly_cache_fresh self : @cache_fresh demo_readonly self demo_readonly_state.
Proof. apply cache_fresh_empty. Qed.

(** X10. [update] does not roll back: with the quadtree scheme and distinct
    keys at the index zoom, when [write] fails [update] raises that failure,
    and the backend in memory is left with the merged lists, the united
    bounds and the increased version. *)
Theorem update_commits_before_write `{Ext : Externals} project (self : BaseBackend)
    (features : list Feature) (new_mosaic : MosaicJSON.t) (add_first : bool) (st : State)
    (e : exn) :
  expire_drops_only ->
  tms self = WebMercatorQuad project ->
  (forall new_tiles, cache_fresh (with_tiles self new_tiles) st) ->
  from_features features (MosaicJSON.minzoom (mosaic_def self))
                (MosaicJSON.maxzoom (mosaic_def self)) (quadkey_zoom self)
  = inr new_mosaic ->
  NoDup (MosaicJSON.tiles new_mosaic).*1 ->
  Forall (fun kv => valid_quadkey kv.1
                    /\ Z.of_nat (String.length kv.1) = quadkey_zoom self)
         (MosaicJSON.tiles new_mosaic) ->
  write (update self features add_first st).1.2 true = inl e ->
  let self' := (update self features add_first st).1.2 in
  (update self features add_first st).1.1 = inl e
  /\ MosaicJSON.version (mosaic_def self')
     = increase_version (MosaicJSON.version (mosaic_def self))
  /\ MosaicJSON.bounds (mosaic_def self')
     = bbox_union (MosaicJSON.bounds new_mosaic) (MosaicJSON.bounds (mosaic_def self))
  /\ bounds self' = MosaicJSON.bounds (mosaic_def self')
  /\ forall quadkey new_assets,
       dict_lookup (MosaicJSON.tiles new_mosaic) quadkey = Some new_assets ->
       let existing :=
         dict_fromkeys (dict_get (MosaicJSON.tiles (mosaic_def self)) quadkey []) in
       dict_lookup (MosaicJSON.tiles (mosaic_def self')) quadkey
       = Some (if add_first then new_assets ++ existing else existing ++ new_assets).
Proof.
  intros Hexp Htms Hfresh Hff Hnd Hkeys. cbv zeta.
  destruct (update_tiles_merge project add_first (MosaicJSON.tiles new_mosaic) self st
              Hexp Htms Hnd Hkeys) as [Hok Hlookup].
  { intros k0 t new_tiles v _ _. apply Hfresh. }
  pose proof (update_tiles_with_tiles add_first (MosaicJSON.tiles new_mosaic) self st) as H1.
  unfold update. rewrite Hff.
  destruct (update_tiles self (MosaicJSON.tiles new_mosaic) add_first st)
    as [[r self1] st1].
  simpl in Hok, H1, Hlookup. subst r. simpl. intros Hwrite.
  split_and!.
  - done.
  - by rewrite H1.
  - by rewrite H1.
  - done.
  - intros quadkey new_assets Hnew. rewrite Hlookup. by rewrite Hnew.
Qed.

(** Witness of X10: over the storage that refuses to write, the update of
    the demo index raises, and key "0123" holds the merged list. *)
Lemma update_commits_before_write_witness :
  (@update demo_readonly (demo_backend demo_tiles) demo_features true
     demo_readonly_state).1.1
  = inl (BackendError "read-only storage")
  /\ dict_lookup
       (MosaicJSON.tiles
          (mosaic_def (@update demo_readonly (demo_backend demo_tiles) demo_features true
                         demo_readonly_state).1.2)) "0123"
     = Some ["b.tif"; "a.tif"]%string.
Proof.
  destruct demo_features_keys as [Hnd Hkeys].
  destruct (@update_commits_before_write demo_readonly demo_project
              (demo_backend demo_tiles) demo_features
              (hd (demo_document []) demo_features) true demo_readonly_state
              (BackendError "read-only storage")
              demo_readonly_expire_drops_only eq_refl
              (fun _ => demo_readonly_cache_fresh _) eq_refl Hnd Hkeys eq_refl)
    as (Hraise & _ & _ & _ & Hmerged).
  split; [exact Hraise|].
  exact (Hmerged "0123"%string ["b.tif"%string] eq_refl).
Defined.

(** X11. A constructed backend has the zooms and the bounds of its
    document, whatever [minzoom] and [maxzoom] the caller passed; a document
    passed by the caller is used as it is and the storage is not read; with
    no document the one read from the storage is used, and a failure to read
    it is the failure of the construction. *)
Theorem post_init_consistent (_read : string -> result MosaicJSON.t) (input0 : string)
    (mosaic_def0 : option MosaicJSON.t) (tms0 : TileMatrixSet) (crs0 geographic_crs0 : CRS)
    (minzoom0 maxzoom0 : Z) (self : BaseBackend) :
  __attrs_post_init__ _read input0 mosaic_def0 tms0 crs0 geographic_crs0 minzoom0 maxzoom0
  = inr self ->
  backend_consistent self
  /\ input self = input0 /\ tms self = tms0
  /\ crs self = crs0 /\ geographic_crs self = geographic_crs0
  /\ match mosaic_def0 with
     | Some d =>
       mosaic_def self = d
       /\ forall other_read,
            __attrs_post_init__ other_read input0 mosaic_def0 tms0 crs0 geographic_crs0
                                minzoom0 maxzoom0 = inr self
     | None => _read input0 = inr (mosaic_def self)
     end.
Proof.
  unfold __attrs_post_init__, backend_consistent.
  destruct mosaic_def0 as [d|]; simpl.
  - intros [= <-]. by split_and!.
  - destruct (_read input0) as [e|d]; [done|]. intros [= <-]. by split_and!.
Qed.

(** Witness of X11: a backend over "mosaic.json" with no document passed,
    and with zooms 0 and 30 asked by the caller. *)
Lemma post_init_consistent_witness :
  exists self,
    __attrs_post_init__ demo_read "mosaic.json" None (WebMercatorQuad demo_project)
                        WEB_MERCATOR_CRS WGS84_CRS 0 30 = inr self
    /\ backend_consistent self
    /\ minzoom self = 4.
Proof.
  exists (demo_backend demo_tiles). split; [reflexivity|].
  destruct (post_init_consistent demo_read "mosaic.json" None (WebMercatorQuad demo_project)
              WEB_MERCATOR_CRS WGS84_CRS 0 30 (demo_backend demo_tiles) eq_refl)
    as (Hcons & _).
  split; [exact Hcons|reflexivity].
Defined.

(** X12. [update] keeps the backend's zooms and bounds equal to those of
    its document, whatever its outcome. *)
Theorem update_keeps_consistent `{Ext : Externals} (self : BaseBackend)
    (features : list Feature) (add_first : bool) (st : State) :
  backend_consistent self ->
  backend_consistent (update self features add_first st).1.2.
Proof.
  intros (Hmin & Hmax & Hb).
  destruct (update_backend self features add_first st) as [Heq|(nm & _ & _ & _ & Heq)];
    cbv zeta in Heq; rewrite Heq; by split_and!.
Qed.

(** Witness of X12: the updated demo index. *)
Lemma update_keeps_consistent_witness :
  backend_consistent (demo_updated demo_tiles true).1.2.
Proof.
  apply (@update_keeps_consistent demo_externals (demo_backend demo_tiles) demo_features true
           demo_state).
  by split_and!.
Defined.

Lemma dict_lookup_is_Some {V} (d : list (string * V)) (k : string) :
  k ∈ d.*1 <-> exists v, dict_lookup d k = Some v.
Proof.
  induction d as [|[k' v'] d IH]; simpl.
  - split; [by intros ?%elem_of_nil|by intros [v ?]].
  - rewrite elem_of_cons. destruct (decide (k' = k)) as [->|Hne].
    + split; [by exists v'|by left].
    + rewrite <- IH. split; [by intros [->|?]|by right].
Qed.

Lemma update_success_quadkeys `{Ext : Externals} (self self' : BaseBackend)
    (features : list Feature) (new_mosaic : MosaicJSON.t) (add_first : bool)
    (st st' : State) :
  NoDup (_quadkeys self) ->
  from_features features (MosaicJSON.minzoom (mosaic_def self))
                (MosaicJSON.maxzoom (mosaic_def self)) (quadkey_zoom self)
  = inr new_mosaic ->
  update self features add_first st = (inr tt, self', st') ->
  _quadkeys self' = dict_fromkeys (_quadkeys self ++ (MosaicJSON.tiles new_mosaic).*1).
Proof.
  intros Hnd Hff Hup.
  apply update_success in Hup as (nm & self1 & Hff' & Hloop & -> & _).
  rewrite Hff in Hff'. injection Hff' as <-.
  pose proof (update_tiles_keys add_first (MosaicJSON.tiles new_mosaic) self st) as Hkeys.
  rewrite Hloop in Hkeys. simpl in Hkeys. specialize (Hkeys eq_refl).
  assert (_quadkeys (commit self1 (MosaicJSON.bounds new_mosaic)) = _quadkeys self1) as ->.
  { unfold _quadkeys. by rewrite commit_tiles. }
  rewrite Hkeys. unfold dict_fromkeys. rewrite fold_left_app. f_equal.
  by rewrite fromkeys_fold_id.
Qed.

(** X13. What [info] reports, before and after a successful update. The
    name is "mosaic" when the document has no name or an empty one, and the
    name of the document otherwise; the update changes neither it nor the
    zooms. The bounds reported after the update contain those reported
    before and those of the new observations. The keys, listed only when
    asked for, are after the update those listed before, in the same order,
    followed by the new keys of the candidate index; they are exactly the
    keys under which the index holds a list. *)
Theorem info_after_update `{Ext : Externals} (self self' : BaseBackend)
    (features : list Feature) (new_mosaic : MosaicJSON.t) (add_first : bool)
    (st st' : State) :
  NoDup (_quadkeys self) ->
  from_features features (MosaicJSON.minzoom (mosaic_def self))
                (MosaicJSON.maxzoom (mosaic_def self)) (quadkey_zoom self)
  = inr new_mosaic ->
  update self features add_first st = (inr tt, self', st') ->
  let before := info self true in
  let after := info self' true in
  (MosaicJSON.name (mosaic_def self) = None
   \/ MosaicJSON.name (mosaic_def self) = Some EmptyString ->
   Info.name before = "mosaic"%string)
  /\ (forall n, MosaicJSON.name (mosaic_def self) = Some n -> n <> EmptyString ->
                Info.name before = n)
  /\ Info.name after = Info.name before
  /\ Info.minzoom after = Info.minzoom before
  /\ Info.maxzoom after = Info.maxzoom before
  /\ bbox_contains (Info.bounds after) (Info.bounds before)
  /\ bbox_contains (Info.bounds after) (MosaicJSON.bounds new_mosaic)
  /\ Info.quadkeys after
     = dict_fromkeys (Info.quadkeys before ++ (MosaicJSON.tiles new_mosaic).*1)
  /\ (forall k, k ∈ Info.quadkeys after
                <-> exists assets,
                      dict_lookup (MosaicJSON.tiles (mosaic_def self')) k = Some assets)
  /\ Info.quadkeys (info self false) = []
  /\ Info.quadkeys (info self' false) = [].
Proof.
  intros Hnd Hff Hup. cbv zeta.
  pose proof (update_success_quadkeys self self' features new_mosaic add_first st st'
                Hnd Hff Hup) as Hkeys.
  apply update_success in Hup as (nm & self1 & Hff' & Hloop & -> & _).
  rewrite Hff in Hff'. injection Hff' as <-.
  pose proof (update_tiles_with_tiles add_first (MosaicJSON.tiles new_mosaic) self st) as H1.
  rewrite Hloop in H1. simpl in H1.
  assert (MosaicJSON.name (mosaic_def self1) = MosaicJSON.name (mosaic_def self)
          /\ MosaicJSON.minzoom (mosaic_def self1) = MosaicJSON.minzoom (mosaic_def self)
          /\ MosaicJSON.maxzoom (mosaic_def self1) = MosaicJSON.maxzoom (mosaic_def self)
          /\ MosaicJSON.bounds (mosaic_def self1) = MosaicJSON.bounds (mosaic_def self))
    as (Hname & Hmin & Hmax & Hbounds) by (by rewrite H1).
  unfold info. cbn [Info.name Info.minzoom Info.maxzoom Info.bounds Info.center
                    Info.quadkeys negb mosaic_def commit MosaicJSON.name MosaicJSON.minzoom
                    MosaicJSON.maxzoom MosaicJSON.bounds MosaicJSON.center].
  rewrite Hname, Hmin, Hmax, Hbounds.
  split_and!; try done.
  - intros [H|H]; rewrite H; [done|]. by rewrite decide_True.
  - intros n Hn Hne. rewrite Hn. by rewrite decide_False.
  - apply bbox_union_contains.
  - apply bbox_union_contains.
  - intros k. apply dict_lookup_is_Some.
Qed.

(** Witness of X13: the demo index, which has no name, updated with
    observations under the new key "0001" and the old key "0123". *)
Lemma info_after_update_witness :
  let after :=
    info (@update demo_externals (demo_backend demo_tiles) demo_features_new_key true
            demo_state).1.2 true in
  Info.name after = "mosaic"%string
  /\ Info.quadkeys after = ["0123"; "0132"; "0000"; "0001"]%string.
Proof.
  cbv zeta.
  destruct (@info_after_update demo_externals (demo_backend demo_tiles)
              (@update demo_externals (demo_backend demo_tiles) demo_features_new_key true
                 demo_state).1.2
              demo_features_new_key (hd (demo_document []) demo_features_new_key) true
              demo_state
              (@update demo_externals (demo_backend demo_tiles) demo_features_new_key true
                 demo_state).2)
    as (Hdefault & _ & Hname & _ & _ & _ & _ & Hkeys & _).
  - by vm_compute; repeat constructor; set_solver.
  - reflexivity.
  - reflexivity.
  - split.
    + rewrite Hname. apply Hdefault. by left.
    + rewrite Hkeys. reflexivity.
Defined.

(** ** The index cells of a tile in the quadtree *)

Lemma qt_children_complete (c t : Tile) :
  tile_z c = tile_z t + 1 -> tile_x c / 2 = tile_x t -> tile_y c / 2 = tile_y t ->
  c ∈ qt_children t.
Proof.
  destruct c as [cx cy cz], t as [tx ty tz]. simpl. intros -> Hx Hy.
  assert (cx = 2 * tx \/ cx = 2 * tx + 1) as Hcx.
  { pose proof (Z.div_mod cx 2). pose proof (Z.mod_pos_bound cx 2). lia. }
  assert (cy = 2 * ty \/ cy = 2 * ty + 1) as Hcy.
  { pose proof (Z.div_mod cy 2). pose proof (Z.mod_pos_bound cy 2). lia. }
  clear Hx Hy. unfold qt_children. simpl. rewrite !elem_of_cons.
  destruct Hcx as [-> | ->], Hcy as [-> | ->]; tauto.
Qed.

Lemma walk_down_complete project (d : nat) :
  forall tiles t',
    mkTile (tile_x t' / 2 ^ Z.of_nat d) (tile_y t' / 2 ^ Z.of_nat d)
           (tile_z t' - Z.of_nat d) ∈ tiles ->
    t' ∈ walk_down (WebMercatorQuad project) d tiles.
Proof.
  induction d as [|d IH]; intros tiles t' Hin.
  - simpl in *. rewrite !Z.div_1_r, Z.sub_0_r in Hin. by destruct t'.
  - cbn [walk_down WebMercatorQuad tms_children]. apply IH.
    rewrite list_elem_of_In, in_concat. eexists. split.
    + apply in_map, list_elem_of_In, Hin.
    + apply list_elem_of_In, qt_children_complete; simpl.
      * lia.
      * rewrite Nat2Z.inj_succ, Z.pow_succ_r by lia.
        rewrite Z.div_div by lia. f_equal. lia.
      * rewrite Nat2Z.inj_succ, Z.pow_succ_r by lia.
        rewrite Z.div_div by lia. f_equal. lia.
Qed.

Lemma ancestor_self (t : Tile) : ancestor t (tile_z t) = t.
Proof.
  unfold ancestor. rewrite Z.sub_diag. simpl. rewrite !Z.div_1_r. by destruct t.
Qed.

Lemma ancestor_ancestor (t : Tile) (low mid : Z) :
  low <= mid <= tile_z t -> ancestor (ancestor t mid) low = ancestor t low.
Proof.
  intros Hz. unfold ancestor. simpl.
  rewrite !Z.div_div by lia. rewrite <- Z.pow_add_r by lia.
  by replace (tile_z t - mid + (mid - low)) with (tile_z t - low) by lia.
Qed.

Lemma find_quadkeys_finer project (t : Tile) (zoom : Z) :
  0 <= zoom <= tile_z t ->
  find_quadkeys (WebMercatorQuad project) t zoom = inr [qt_quadkey (ancestor t zoom)].
Proof.
  intros Hz. unfold find_quadkeys.
  destruct (decide (zoom < tile_z t)) as [Hlt|Hge].
  - rewrite walk_up_quadtree by lia. rewrite Z2Nat.id by lia.
    replace (tile_z t - (tile_z t - zoom)) with zoom by lia.
    apply quadkeys_of_quadtree.
  - rewrite decide_False by lia.
    replace zoom with (tile_z t) by lia. rewrite ancestor_self.
    apply quadkeys_of_quadtree.
Qed.

(** What [find_quadkeys] returns in the quadtree: the keys of the index
    cells of the tile. *)
Lemma find_quadkeys_cells project (t : Tile) (zoom : Z) :
  0 <= zoom ->
  exists cells,
    find_quadkeys (WebMercatorQuad project) t zoom = inr (map qt_quadkey cells)
    /\ forall c, c ∈ cells <-> index_cell t zoom c.
Proof.
  intros Hz. unfold index_cell.
  destruct (decide (zoom <= tile_z t)) as [Hle|Hgt].
  - exists [ancestor t zoom]. split; [by apply find_quadkeys_finer|].
    intros c. apply list_elem_of_singleton.
  - exists (walk_down (WebMercatorQuad project) (Z.to_nat (zoom - tile_z t)) [t]).
    destruct (walk_down_quadtree project (Z.to_nat (zoom - tile_z t)) [t])
      as (_ & _ & Hanc).
    set (tiles := walk_down _ _ _) in *.
    assert (forall c, c ∈ tiles -> tile_z c = zoom /\ ancestor c (tile_z t) = t) as Hall.
    { intros c Hc. destruct (Hanc c Hc) as (t0 & ->%list_elem_of_singleton & Hzc & Hx & Hy).
      rewrite Z2Nat.id in Hzc, Hx, Hy by lia. split; [lia|].
      unfold ancestor. replace (tile_z c - tile_z t) with (zoom - tile_z t) by lia.
      rewrite Hx, Hy. by destruct t. }
    split.
    + unfold find_quadkeys. rewrite decide_False by lia. rewrite decide_True by lia.
      cbv zeta. fold tiles. rewrite filter_all.
      * apply quadkeys_of_quadtree.
      * apply Forall_forall. intros c Hc. by apply Hall.
    + intros c. split; [apply Hall|]. intros [Hzc Hanc'].
      apply walk_down_complete. rewrite Z2Nat.id by lia.
      apply list_elem_of_singleton. rewrite <- Hanc' at 4. unfold ancestor.
      rewrite Hzc. f_equal. lia.
Qed.

Lemma elem_of_concat_map {A B} (f : A -> list B) (l : list A) (b : B) :
  b ∈ concat (map f l) <-> exists a, a ∈ l /\ b ∈ f a.
Proof.
  rewrite list_elem_of_In, in_concat. split.
  - intros (bs & Hbs & Hb). apply in_map_iff in Hbs as (a & <- & Ha).
    exists a. by rewrite !list_elem_of_In.
  - intros (a & Ha & Hb). exists (f a). split.
    + by apply in_map, list_elem_of_In.
    + by apply list_elem_of_In.
Qed.

(** The assets of a tile in the quadtree: those stored under the keys of
    its index cells. *)
Lemma get_assets_uncached_cells project (self : BaseBackend) (t : Tile) :
  tms self = WebMercatorQuad project ->
  0 <= quadkey_zoom self ->
  exists assets,
    get_assets_uncached self (tile_x t) (tile_y t) (tile_z t) = inr assets
    /\ forall a, a ∈ assets <->
         exists c, index_cell t (quadkey_zoom self) c
                   /\ a ∈ dict_get (MosaicJSON.tiles (mosaic_def self)) (qt_quadkey c) [].
Proof.
  intros Htms Hz.
  destruct (find_quadkeys_cells project t (quadkey_zoom self) Hz) as (cells & Hq & Hcells).
  unfold get_assets_uncached. rewrite Htms.
  replace (mkTile (tile_x t) (tile_y t) (tile_z t)) with t by (by destruct t).
  rewrite Hq. eexists. split; [done|].
  intros a. rewrite dict_fromkeys_elem_of, map_map, elem_of_concat_map.
  split; intros (c & Hc & Ha); exists c; split; try done; by apply Hcells.
Qed.

Lemma index_cell_zoom_out (t t2 : Tile) (zoom : Z) (c : Tile) :
  tile_z t <= tile_z t2 -> ancestor t2 (tile_z t) = t ->
  index_cell t2 zoom c -> index_cell t zoom c.
Proof.
  intros Hz Hanc. unfold index_cell.
  destruct (decide (zoom <= tile_z t2)) as [H2|H2], (decide (zoom <= tile_z t)) as [H1|H1].
  - intros ->. rewrite <- Hanc at 1. rewrite <- (ancestor_ancestor t2 zoom (tile_z t)) by lia.
    by rewrite Hanc.
  - intros ->. split; [done|]. rewrite ancestor_ancestor; [done|]. simpl. lia.
  - lia.
  - intros [Hzc Hc]. split; [done|].
    rewrite <- (ancestor_ancestor c (tile_z t) (tile_z t2)) by lia.
    by rewrite Hc.
Qed.

Lemma qt_quadkey_length (t : Tile) :
  length (String.list_ascii_of_string (qt_quadkey t)) = Z.to_nat (tile_z t).
Proof.
  unfold qt_quadkey, py_range_down.
  by rewrite String.list_ascii_of_string_of_list_ascii, !length_map, length_seq.
Qed.

Lemma walk_up_past_root project (d : nat) :
  forall t, 0 <= tile_z t < Z.of_nat d ->
            walk_up (WebMercatorQuad project) d t = inl IndexError.
Proof.
  induction d as [|d IH]; intros t Hz; [lia|].
  cbn [walk_up WebMercatorQuad tms_parent]. unfold qt_parent.
  destruct (decide (tile_z t = 0)) as [H0|Hpos]; [done|].
  apply IH. simpl. lia.
Qed.

(** X14. With the quadtree scheme, two tiles at or below the index zoom
    that lie in the same index cell get the same assets: those stored under
    the key of the cell, each once. *)
Theorem get_assets_same_cell `{Ext : Externals} project (self : BaseBackend)
    (t1 t2 : Tile) (st1 st2 : State) :
  expire_drops_only ->
  tms self = WebMercatorQuad project ->
  cache_fresh self st1 -> cache_fresh self st2 ->
  0 <= quadkey_zoom self <= tile_z t1 ->
  quadkey_zoom self <= tile_z t2 ->
  ancestor t1 (quadkey_zoom self) = ancestor t2 (quadkey_zoom self) ->
  (get_assets self (tile_x t1) (tile_y t1) (tile_z t1) st1).1
  = (get_assets self (tile_x t2) (tile_y t2) (tile_z t2) st2).1
  /\ (get_assets self (tile_x t1) (tile_y t1) (tile_z t1) st1).1
     = inr (dedup_first
              (dict_get (MosaicJSON.tiles (mosaic_def self))
                        (qt_quadkey (ancestor t1 (quadkey_zoom self))) [])).
Proof.
  intros Hexp Htms Hf1 Hf2 Hz1 Hz2 Hcell.
  assert (forall t st, cache_fresh self st -> 0 <= quadkey_zoom self <= tile_z t ->
            (get_assets self (tile_x t) (tile_y t) (tile_z t) st).1
            = inr (dedup_first
                     (dict_get (MosaicJSON.tiles (mosaic_def self))
                               (qt_quadkey (ancestor t (quadkey_zoom self))) []))) as Hone.
  { intros t st Hf Hz.
    destruct (get_assets_cache_fresh self (tile_x t) (tile_y t) (tile_z t) st Hexp Hf)
      as [-> _].
    unfold get_assets_uncached. rewrite Htms.
    replace (mkTile (tile_x t) (tile_y t) (tile_z t)) with t by (by destruct t).
    rewrite find_quadkeys_finer by done. cbn [map concat].
    by rewrite app_nil_r, dict_fromkeys_dedup_first. }
  split.
  - rewrite !Hone by (done || lia). by rewrite Hcell.
  - by apply Hone.
Qed.

(** Witness of X14: the tiles (10, 6, 5) and (11, 7, 5) both lie in the
    cell (5, 3, 4), key "0123". *)
Lemma get_assets_same_cell_witness :
  (@get_assets demo_externals (demo_backend demo_tiles) 10 6 5 demo_state).1
  = (@get_assets demo_externals (demo_backend demo_tiles) 11 7 5 demo_state).1
  /\ (@get_assets demo_externals (demo_backend demo_tiles) 10 6 5 demo_state).1
     = inr ["a.tif"%string].
Proof.
  destruct (@get_assets_same_cell demo_externals demo_project (demo_backend demo_tiles)
              (mkTile 10 6 5) (mkTile 11 7 5) demo_state demo_state
              demo_expire_drops_only eq_refl (demo_cache_fresh _) (demo_cache_fresh _))
    as [Hsame Hval].
  - simpl. unfold quadkey_zoom. simpl. lia.
  - simpl. unfold quadkey_zoom. simpl. lia.
  - reflexivity.
  - split; [exact Hsame|reflexivity].
Defined.

(** X15. With the quadtree scheme, zooming out never loses an asset: the
    assets of a tile are among the assets of each of its ancestors, at any
    zoom on either side of the index zoom; and no such lookup fails. *)
Theorem zoom_out_keeps_assets `{Ext : Externals} project (self : BaseBackend)
    (t t2 : Tile) (st st2 : State) :
  expire_drops_only ->
  tms self = WebMercatorQuad project ->
  0 <= quadkey_zoom self ->
  cache_fresh self st -> cache_fresh self st2 ->
  tile_z t <= tile_z t2 ->
  ancestor t2 (tile_z t) = t ->
  exists assets assets2,
    (get_assets self (tile_x t) (tile_y t) (tile_z t) st).1 = inr assets
    /\ (get_assets self (tile_x t2) (tile_y t2) (tile_z t2) st2).1 = inr assets2
    /\ forall a, a ∈ assets2 -> a ∈ assets.
Proof.
  intros Hexp Htms Hqz Hf Hf2 Hz Hanc.
  destruct (get_assets_uncached_cells project self t Htms Hqz) as (assets & Ha & Hin).
  destruct (get_assets_uncached_cells project self t2 Htms Hqz) as (assets2 & Ha2 & Hin2).
  exists assets, assets2. split_and!.
  - destruct (get_assets_cache_fresh self (tile_x t) (tile_y t) (tile_z t) st Hexp Hf)
      as [-> _]. done.
  - destruct (get_assets_cache_fresh self (tile_x t2) (tile_y t2) (tile_z t2) st2 Hexp Hf2)
      as [-> _]. done.
  - intros a [c [Hc Hac]]%Hin2. apply Hin. exists c. split; [|done].
    by apply (index_cell_zoom_out t t2).
Qed.

(** Witness of X15: the tile (10, 6, 5) and its ancestor (1, 0, 2). *)
Lemma zoom_out_keeps_assets_witness :
  exists assets assets2,
    (@get_assets demo_externals (demo_backend demo_tiles) 1 0 2 demo_state).1 = inr assets
    /\ (@get_assets demo_externals (demo_backend demo_tiles) 10 6 5 demo_state).1
       = inr assets2
    /\ assets2 = ["a.tif"%string]
    /\ forall a, a ∈ assets2 -> a ∈ assets.
Proof.
  destruct (@zoom_out_keeps_assets demo_externals demo_project (demo_backend demo_tiles)
              (mkTile 1 0 2) (mkTile 10 6 5) demo_state demo_state
              demo_expire_drops_only eq_refl)
    as (assets & assets2 & Ha & Ha2 & Hsub).
  - unfold quadkey_zoom. simpl. lia.
  - apply demo_cache_fresh.
  - apply demo_cache_fresh.
  - simpl. lia.
  - reflexivity.
  - exists assets, assets2. split_and!; [done|done| |done].
    assert (@inr exn _ assets2 = inr ["a.tif"%string]) as Hval
      by (rewrite <- Ha2; reflexivity).
    by injection Hval.
Defined.

(** X16. With the quadtree scheme, the keys resolved for a tile all have
    the length of the index zoom; for a tile at or below the index zoom the
    key is the first digits of the tile's own key, and for a coarser tile
    every key starts with the tile's own key. *)
Theorem find_quadkeys_prefix project (t : Tile) (quadkey_zoom : Z) :
  0 <= quadkey_zoom -> 0 <= tile_z t ->
  exists keys,
    find_quadkeys (WebMercatorQuad project) t quadkey_zoom = inr keys
    /\ forall k, k ∈ keys ->
         length (String.list_ascii_of_string k) = Z.to_nat quadkey_zoom
         /\ (quadkey_zoom <= tile_z t ->
             String.list_ascii_of_string k
             = take (Z.to_nat quadkey_zoom) (String.list_ascii_of_string (qt_quadkey t)))
         /\ (tile_z t <= quadkey_zoom ->
             take (Z.to_nat (tile_z t)) (String.list_ascii_of_string k)
             = String.list_ascii_of_string (qt_quadkey t)).
Proof.
  intros Hqz Hz.
  destruct (find_quadkeys_cells project t quadkey_zoom Hqz) as (cells & Hq & Hcells).
  exists (map qt_quadkey cells). split; [done|].
  intros k Hk. apply list_elem_of_In, in_map_iff in Hk as (c & <- & Hc).
  apply list_elem_of_In, Hcells in Hc. unfold index_cell in Hc.
  destruct (decide (quadkey_zoom <= tile_z t)) as [Hle|Hgt].
  - subst c. split_and!.
    + by rewrite qt_quadkey_length.
    + intros _. by apply ancestor_quadkey_prefix.
    + intros Hge. assert (quadkey_zoom = tile_z t) as -> by lia.
      rewrite ancestor_self. apply take_ge. by rewrite qt_quadkey_length.
  - destruct Hc as [Hzc Hanc]. split_and!.
    + by rewrite qt_quadkey_length, Hzc.
    + lia.
    + intros _. rewrite <- Hanc at 2. symmetry. apply ancestor_quadkey_prefix. lia.
Qed.

(** Witness of X16: the tile (10, 6, 5), key "01230", against the index at
    zoom 4. *)
Lemma find_quadkeys_prefix_witness :
  exists keys,
    find_quadkeys (WebMercatorQuad demo_project) (mkTile 10 6 5) 4 = inr keys
    /\ keys = ["0123"%string]
    /\ forall k, k ∈ keys ->
         String.list_ascii_of_string k
         = take 4 (String.list_ascii_of_string (qt_quadkey (mkTile 10 6 5))).
Proof.
  destruct (find_quadkeys_prefix demo_project (mkTile 10 6 5) 4) as (keys & Hq & Hkeys).
  - lia.
  - simpl. lia.
  - exists keys. split_and!; [done| |].
    + assert (@inr exn _ keys = inr ["0123"%string]) as Hval
        by (rewrite <- Hq; reflexivity).
      by injection Hval.
    + intros k Hk. destruct (Hkeys k Hk) as (_ & Hfiner & _). apply Hfiner. simpl. lia.
Defined.

(** X17. With the quadtree scheme, [find_quadkeys] on a tile at a zoom of 0
    or more returns keys exactly when the zoom asked for is not negative; with
    a negative zoom the walk to the parents runs past zoom 0 and the call
    raises [IndexError]. *)
Theorem find_quadkeys_total_iff project (t : Tile) (quadkey_zoom : Z) :
  0 <= tile_z t ->
  ((exists keys, find_quadkeys (WebMercatorQuad project) t quadkey_zoom = inr keys)
   <-> 0 <= quadkey_zoom)
  /\ (quadkey_zoom < 0 ->
      find_quadkeys (WebMercatorQuad project) t quadkey_zoom = inl IndexError).
Proof.
  intros Hz.
  assert (quadkey_zoom < 0 ->
          find_quadkeys (WebMercatorQuad project) t quadkey_zoom = inl IndexError) as Hneg.
  { intros Hlt. unfold find_quadkeys. rewrite decide_True by lia.
    rewrite walk_up_past_root; [done|]. lia. }
  split; [|done]. split.
  - intros [keys Hkeys]. destruct (decide (0 <= quadkey_zoom)) as [|Hlt]; [done|].
    rewrite Hneg in Hkeys by lia. done.
  - apply find_quadkeys_quadtree_returns.
Qed.

(** Witness of X17: the tile (3, 5, 3) and the zoom -1. *)
Lemma find_quadkeys_total_iff_witness :
  find_quadkeys (WebMercatorQuad demo_project) (mkTile 3 5 3) (-1) = inl IndexError.
Proof.
  apply (find_quadkeys_total_iff demo_project (mkTile 3 5 3) (-1)).
  - simpl. lia.
  - lia.
Defined.

(** ** Lookups: what is found, what is cached *)

Lemma concat_map_nil {A B} (f : A -> list B) (l : list A) :
  concat (map f l) = [] <-> forall a, a ∈ l -> f a = [].
Proof.
  induction l as [|a l IH]; simpl.
  - split; [by intros _ a ?%elem_of_nil|done].
  - split.
    + intros [Ha Hl]%app_eq_nil a' [->|Ha']%elem_of_cons; [done|]. by apply IH.
    + intros Hall. rewrite (Hall a) by (apply elem_of_cons; by left). simpl.
      apply IH. intros a' Ha'. apply Hall, elem_of_cons. by right.
Qed.

Section lookups.
Context `{Ext : Externals}.

Lemma lift_rio_cache {A} (f : list string -> (rio_error + A) * list string) (st : State) :
  cache (lift_rio f st).2 = cache st.
Proof. unfold lift_rio. by destruct (f (opened st)). Qed.

Lemma mapM_get_assets_cache_sound (self : BaseBackend) (tiles : list Tile) :
  expire_drops_only ->
  forall st, cache_sound (tms self) st ->
             cache_sound (tms self)
               (mapM (fun t => get_assets self (tile_x t) (tile_y t) (tile_z t)) tiles st).2.
Proof.
  intros Hexp. induction tiles as [|t tiles IH]; intros st Hsound; [done|].
  cbn [mapM]. unfold bind at 1.
  pose proof (get_assets_cache_sound self (tile_x t) (tile_y t) (tile_z t) st Hexp Hsound)
    as H1.
  destruct (get_assets self (tile_x t) (tile_y t) (tile_z t) st) as [[e|v] st1];
    simpl in H1; [done|].
  unfold bind. specialize (IH st1 H1).
  by destruct (mapM _ tiles st1) as [[e|vs] st2].
Qed.

End lookups.

(** X18. [tile] raises [NoAssetFoundError] exactly when the index holds no
    asset under any of the keys resolved for the tile: each key is absent
    from the index or maps to the empty list. *)
Theorem tile_no_asset_iff `{Ext : Externals} (self : BaseBackend) (x y z : Z)
    (reverse_order : bool) (st : State) (quadkeys : list string) :
  expire_drops_only ->
  cache_fresh self st ->
  find_quadkeys (tms self) (mkTile x y z) (quadkey_zoom self) = inr quadkeys ->
  (tile self x y z reverse_order st).1 = inl NoAssetFoundError
  <-> forall qk, qk ∈ quadkeys ->
                 dict_get (MosaicJSON.tiles (mosaic_def self)) qk [] = [].
Proof.
  intros Hexp Hfresh Hq.
  destruct (get_assets_cache_fresh self x y z st Hexp Hfresh) as [Hval _].
  unfold get_assets_uncached in Hval. rewrite Hq in Hval.
  rewrite <- concat_map_nil.
  unfold tile, bind. destruct (get_assets self x y z st) as [r st1].
  simpl in Hval. subst r.
  destruct (decide (dict_fromkeys _ = [])) as [Hnil|Hne]; simpl.
  - split; [|done]. intros _. by apply dict_fromkeys_nil_inv.
  - split.
    + intros Hraise. by apply lift_rio_not_no_asset in Hraise.
    + intros Hnil. by rewrite Hnil in Hne.
Qed.

(** Witness of X18: the tile (9, 9, 4) resolves to a key the demo index
    does not have. *)
Lemma tile_no_asset_iff_witness :
  (@tile demo_externals (demo_backend demo_tiles) 9 9 4 true demo_state).1
  = inl NoAssetFoundError.
Proof.
  apply (@tile_no_asset_iff demo_externals (demo_backend demo_tiles) 9 9 4 true demo_state
           [qt_quadkey (mkTile 9 9 4)] demo_expire_drops_only (demo_cache_fresh _) eq_refl).
  intros qk ->%list_elem_of_singleton. reflexivity.
Defined.

(** X19. Every method keeps the cache sound: if each entry of the cache
    was computed by [get_assets] on a document with the fingerprint of its
    key, the same holds after [get_assets], [assets_for_point],
    [assets_for_bbox], [tile], [point] and [update], whatever their
    outcome. *)
Theorem cache_sound_invariant `{Ext : Externals} (self : BaseBackend) (st : State) :
  expire_drops_only ->
  cache_sound (tms self) st ->
  (forall x y z, cache_sound (tms self) (get_assets self x y z st).2)
  /\ (forall lng lat coord_crs,
         cache_sound (tms self) (assets_for_point self lng lat coord_crs st).2)
  /\ (forall xmin ymin xmax ymax coord_crs,
         cache_sound (tms self) (assets_for_bbox self xmin ymin xmax ymax coord_crs st).2)
  /\ (forall x y z reverse_order,
         cache_sound (tms self) (tile self x y z reverse_order st).2)
  /\ (forall lon lat reverse_order coord_crs allowed_exceptions,
         cache_sound (tms self)
           (point self lon lat reverse_order coord_crs allowed_exceptions st).2)
  /\ (forall features add_first,
         cache_sound (tms (update self features add_first st).1.2)
                     (update self features add_first st).2).
Proof.
  intros Hexp Hsound.
  assert (forall lng lat coord_crs,
             cache_sound (tms self) (assets_for_point self lng lat coord_crs st).2) as Hpoint.
  { intros lng lat coord_crs. unfold assets_for_point.
    destruct (transform_point _ _ _ _) as [lng' lat']. by apply get_assets_cache_sound. }
  split_and!.
  - intros x y z. by apply get_assets_cache_sound.
  - done.
  - intros xmin ymin xmax ymax coord_crs. unfold assets_for_bbox.
    destruct (corner_tiles _ _ _ _ _ _) as [tl_tile br_tile]. unfold bind.
    pose proof (mapM_get_assets_cache_sound self
                  (bbox_tiles tl_tile br_tile (quadkey_zoom self)) Hexp st Hsound) as H1.
    by destruct (mapM _ _ st) as [[e|per_tile] st1].
  - intros x y z reverse_order. unfold tile, bind.
    pose proof (get_assets_cache_sound self x y z st Hexp Hsound) as H1.
    destruct (get_assets self x y z st) as [[e|assets] st1]; simpl in H1; [done|].
    destruct (decide (assets = [])); [done|].
    intros entry. rewrite lift_rio_cache. apply H1.
  - intros lon lat reverse_order coord_crs allowed_exceptions. unfold point, bind.
    specialize (Hpoint lon lat WGS84_CRS).
    destruct (assets_for_point self lon lat WGS84_CRS st) as [[e|assets] st1];
      simpl in Hpoint; [done|].
    destruct (decide (assets = [])); [done|].
    intros entry. rewrite lift_rio_cache. apply Hpoint.
  - intros features add_first. unfold update.
    destruct (from_features _ _ _ _) as [e|new_mosaic]; [done|].
    destruct (update_tiles_frame add_first (MosaicJSON.tiles new_mosaic) self st Hexp)
      as [_ Hloop].
    pose proof (update_tiles_with_tiles add_first (MosaicJSON.tiles new_mosaic) self st) as H1.
    specialize (Hloop Hsound).
    destruct (update_tiles self (MosaicJSON.tiles new_mosaic) add_first st)
      as [[[e|[]] self1] st1]; simpl in *; by rewrite H1.
Qed.

(** Witness of X19: the cache after a lookup on the demo index and an
    update of it. *)
Lemma cache_sound_invariant_witness :
  @cache_sound demo_externals (WebMercatorQuad demo_project)
    (@get_assets demo_externals (demo_backend demo_tiles) 5 3 4 demo_state).2
  /\ @cache_sound demo_externals (WebMercatorQuad demo_project)
       (demo_updated demo_tiles true).2.
Proof.
  destruct (@cache_sound_invariant demo_externals (demo_backend demo_tiles) demo_state
              demo_expire_drops_only (demo_cache_sound _))
    as (Hget & _ & _ & _ & _ & Hup).
  split; [apply Hget|apply (Hup demo_features true)].
Defined.

(** X20. A failure is never cached nor served from the cache: when
    [get_assets] raises, its body raised that exception in this very call,
    and the cache holds no entry that it did not hold before. *)
Theorem get_assets_failure_not_cached `{Ext : Externals} (self : BaseBackend) (x y z : Z)
    (st : State) (e : exn) :
  expire_drops_only ->
  (get_assets self x y z st).1 = inl e ->
  get_assets_uncached self x y z = inl e
  /\ (forall entry, entry ∈ cache (get_assets self x y z st).2 -> entry ∈ cache st)
  /\ opened (get_assets self x y z st).2 = opened st.
Proof.
  intros Hexp. run_cached.
  destruct (cache_lookup _ _) as [v|]; simpl; [done|].
  destruct (get_assets_uncached self x y z) as [e'|v]; simpl; [|done].
  intros [= ->]. split_and!; [done| |done].
  intros entry. apply Hexp.
Qed.

(** Witness of X20: over a tile matrix set without quadkeys every lookup
    raises, and leaves the cache empty. *)
Lemma get_assets_failure_not_cached_witness :
  (@get_assets demo_externals demo_backend_no_quadkey 5 3 4 demo_state).1
  = inl (TmsError NoQuadkeySupport)
  /\ forall entry,
       entry ∈ cache (@get_assets demo_externals demo_backend_no_quadkey 5 3 4 demo_state).2
       -> entry ∈ cache demo_state.
Proof.
  split; [reflexivity|].
  apply (@get_assets_failure_not_cached demo_externals demo_backend_no_quadkey 5 3 4
           demo_state (TmsError NoQuadkeySupport) demo_expire_drops_only eq_refl).
Defined.

(** ** Point queries: which failures are raised *)

Lemma filter_tasks_inl {A} (tasks : list ((rio_error + A) * string))
    (allowed : list rio_error) (e : rio_error) :
  filter_tasks tasks allowed = inl e ->
  (e ∉ allowed) /\ exists asset, (inl e, asset) ∈ tasks.
Proof.
  induction tasks as [|[[e'|val] asset] rest IH]; simpl; [done| |].
  - destruct (decide (e' ∈ allowed)) as [Hin|Hout].
    + intros [Hne [a Ha]]%IH. split; [done|]. exists a. apply elem_of_cons. by right.
    + intros [= ->]. split; [done|]. exists asset. apply elem_of_cons. by left.
  - destruct (filter_tasks rest allowed) as [e'|vals]; [|done].
    intros [= ->]. destruct (IH eq_refl) as [Hne [a Ha]].
    split; [done|]. exists a. apply elem_of_cons. by right.
Qed.

Lemma filter_tasks_inr {A} (tasks : list ((rio_error + A) * string))
    (allowed : list rio_error) (vals : list (A * string)) :
  filter_tasks tasks allowed = inr vals ->
  forall e asset, (inl e, asset) ∈ tasks -> e ∈ allowed.
Proof.
  revert vals. induction tasks as [|[[e'|val] a] rest IH]; intros vals; simpl.
  - intros _ e asset Hin. by apply elem_of_nil in Hin.
  - destruct (decide (e' ∈ allowed)) as [Hin|Hout]; [|done].
    intros Hrest e asset [[= -> ->]|Hin']%elem_of_cons; [done|]. by eapply IH.
  - destruct (filter_tasks rest allowed) as [e'|vals'] eqn:Hf; [done|].
    intros _ e asset [[=]|Hin']%elem_of_cons. by eapply IH.
Qed.

Lemma omap_reverse {A B} (f : A -> option B) (l : list A) :
  omap f (reverse l) = reverse (omap f l).
Proof.
  induction l as [|a l IH]; [done|].
  rewrite reverse_cons, omap_app, IH. cbn [omap list_omap].
  destruct (f a); simpl.
  - by rewrite reverse_cons.
  - by rewrite app_nil_r.
Qed.

Section point_more.
Context `{Ext : Externals}.

(** The outcome of [point] once its assets are resolved. *)
Lemma point_outcome (self : BaseBackend) (lon lat : Qc) (reverse_order : bool)
    (coord_crs : CRS) (allowed_exceptions : option (list rio_error)) (st : State)
    (assets : list string) :
  (assets_for_point self lon lat WGS84_CRS st).1 = inr assets ->
  assets <> [] ->
  let allowed := match allowed_exceptions with
                 | None => [PointOutsideBounds]
                 | Some given => given
                 end in
  let ordered := if reverse_order then reverse assets else assets in
  (point self lon lat reverse_order coord_crs allowed_exceptions st).1
  = match filter_tasks
            (map (fun asset => (point_value self lon lat coord_crs asset, asset)) ordered)
            allowed with
    | inl e => inl (ReaderError e)
    | inr vals => inr (fold_left (fun d va => dict_set d va.2 va.1) vals [])
    end
  /\ opened (point self lon lat reverse_order coord_crs allowed_exceptions st).2
     = opened st ++ ordered.
Proof.
  intros Hassets Hne. cbv zeta.
  pose proof (assets_for_point_opened self lon lat WGS84_CRS st) as Hopen.
  unfold point, bind.
  destruct (assets_for_point self lon lat WGS84_CRS st) as [r st1].
  simpl in Hassets, Hopen. subst r. rewrite decide_False by done.
  unfold lift_rio, multi_values. rewrite create_tasks_point. simpl.
  rewrite Hopen. split; [|done].
  by destruct (filter_tasks _ _).
Qed.

Lemma assets_for_point_NoDup (self : BaseBackend) (lon lat : Qc) (coord_crs : CRS)
    (st : State) (assets : list string) :
  expire_drops_only -> cache_fresh self st ->
  (assets_for_point self lon lat coord_crs st).1 = inr assets -> NoDup assets.
Proof.
  intros Hexp Hfresh Hassets.
  unfold assets_for_point in Hassets. destruct (transform_point _ _ _ _) as [lng' lat'].
  set (t := tms_tile _ _ _ _) in *.
  destruct (get_assets_cache_fresh self (tile_x t) (tile_y t) (tile_z t) st Hexp Hfresh)
    as (Hval & _).
  rewrite Hassets in Hval. symmetry in Hval.
  by apply (get_assets_uncached_result self (tile_x t) (tile_y t) (tile_z t)).
Qed.

End point_more.

(** X21. Which failures a point query raises, for any [allowed_exceptions]
    (the caller's, or [PointOutsideBounds] alone when the caller passes
    none): if every per-asset failure is allowed the query returns the values
    of the assets that could be read, in asset order, after opening every
    resolved asset once; if it raises, it raises the failure of one of the
    resolved assets, one that is not allowed. *)
Theorem point_raises_unallowed_only `{Ext : Externals} (self : BaseBackend)
    (lon lat : Qc) (reverse_order : bool) (coord_crs : CRS)
    (allowed_exceptions : option (list rio_error)) (st : State) (assets : list string) :
  expire_drops_only ->
  cache_fresh self st ->
  (assets_for_point self lon lat WGS84_CRS st).1 = inr assets ->
  assets <> [] ->
  let allowed := match allowed_exceptions with
                 | None => [PointOutsideBounds]
                 | Some given => given
                 end in
  let ordered := if reverse_order then reverse assets else assets in
  ((forall asset e, asset ∈ assets ->
                    point_value self lon lat coord_crs asset = inl e -> e ∈ allowed) ->
   (point self lon lat reverse_order coord_crs allowed_exceptions st).1
   = inr (successful_values self lon lat coord_crs ordered)
   /\ opened (point self lon lat reverse_order coord_crs allowed_exceptions st).2
      = opened st ++ ordered)
  /\ (forall e,
         (point self lon lat reverse_order coord_crs allowed_exceptions st).1 = inl e ->
         exists asset e',
           e = ReaderError e' /\ asset ∈ assets
           /\ point_value self lon lat coord_crs asset = inl e' /\ e' ∉ allowed).
Proof.
  intros Hexp Hfresh Hassets Hne. cbv zeta.
  pose proof (assets_for_point_NoDup self lon lat WGS84_CRS st assets Hexp Hfresh Hassets)
    as Hnd.
  destruct (point_outcome self lon lat reverse_order coord_crs allowed_exceptions st assets
              Hassets Hne) as [Hout Hopen]. cbv zeta in Hout, Hopen.
  set (allowed := match allowed_exceptions with
                  | None => [PointOutsideBounds]
                  | Some given => given
                  end) in *.
  set (ordered := if reverse_order then reverse assets else assets) in *.
  assert (NoDup ordered) as Hnd'.
  { unfold ordered. destruct reverse_order; [by rewrite reverse_Permutation|done]. }
  assert (forall asset, asset ∈ ordered -> asset ∈ assets) as Hin.
  { unfold ordered. destruct reverse_order; [|done].
    intros a Ha. by rewrite elem_of_reverse in Ha. }
  split.
  - intros Hall. split; [|done].
    destruct (collect_values self lon lat coord_crs allowed ordered Hnd')
      as (vals & Hvals & Hfold).
    { intros a e Ha He. eapply Hall; [by apply Hin|done]. }
    rewrite Hout, Hvals. f_equal. rewrite (Hfold []); [done|].
    intros a _. simpl. apply not_elem_of_nil.
  - intros e. rewrite Hout.
    destruct (filter_tasks _ allowed) as [e'|vals] eqn:Hf; [|done].
    intros [= <-]. apply filter_tasks_inl in Hf as [Hout' [asset Ha]].
    apply list_elem_of_In, in_map_iff in Ha as (a & [= Hv <-] & Ha).
    exists a, e'. split_and!; [done| |done|done]. by apply Hin, list_elem_of_In.
Qed.

(** Witness of X21: the point (0, 0) of the demo index, where "a.tif"
    reports the point outside its coverage: allowed, the failure is skipped;
    not allowed, it is raised. *)
Lemma point_raises_unallowed_only_witness :
  (@point demo_externals (demo_backend demo_tiles) (Q2Qc 0) (Q2Qc 0) false WGS84_CRS
     (Some [TileOutsideBounds; PointOutsideBounds]) demo_state).1
  = inr [("b.tif"%string, 7)]
  /\ exists asset e',
       (@point demo_externals (demo_backend demo_tiles) (Q2Qc 0) (Q2Qc 0) false WGS84_CRS
          (Some [TileOutsideBounds]) demo_state).1 = inl (ReaderError e')
       /\ @point_value demo_externals (demo_backend demo_tiles) (Q2Qc 0) (Q2Qc 0) WGS84_CRS
            asset = inl e'.
Proof.
  split.
  - destruct (@point_raises_unallowed_only demo_externals (demo_backend demo_tiles)
                (Q2Qc 0) (Q2Qc 0) false WGS84_CRS
                (Some [TileOutsideBounds; PointOutsideBounds]) demo_state
                ["a.tif"; "b.tif"]%string demo_expire_drops_only (demo_cache_fresh _)
                eq_refl) as (Hok & _); [discriminate|].
    destruct Hok as [Hval _]; [|rewrite Hval; reflexivity].
    intros asset e Ha.
    apply elem_of_cons in Ha as [->|Ha].
    + intros [= <-]. set_solver.
    + apply list_elem_of_singleton in Ha as ->. discriminate.
  - destruct (@point_raises_unallowed_only demo_externals (demo_backend demo_tiles)
                (Q2Qc 0) (Q2Qc 0) false WGS84_CRS
                (Some [TileOutsideBounds]) demo_state
                ["a.tif"; "b.tif"]%string demo_expire_drops_only (demo_cache_fresh _)
                eq_refl) as (_ & Hraise); [discriminate|].
    destruct (Hraise (ReaderError PointOutsideBounds) eq_refl)
      as (asset & e' & He & _ & Hval & _).
    exists asset, e'. split; [|exact Hval]. by rewrite <- He.
Defined.

(** X22. Asking a point query for the reverse order changes nothing but the
    order: when the query succeeds in asset order, it succeeds in reverse
    order too and returns the same (asset, value) pairs, reversed. *)
Theorem point_reverse `{Ext : Externals} (self : BaseBackend) (lon lat : Qc)
    (coord_crs : CRS) (allowed_exceptions : option (list rio_error)) (st : State)
    (values : list (string * PointData)) :
  expire_drops_only ->
  cache_fresh self st ->
  (point self lon lat false coord_crs allowed_exceptions st).1 = inr values ->
  (point self lon lat true coord_crs allowed_exceptions st).1 = inr (reverse values).
Proof.
  intros Hexp Hfresh Hvalues.
  destruct (assets_for_point self lon lat WGS84_CRS st) as [[e|assets] st1] eqn:Hassets.
  { unfold point, bind in Hvalues. by rewrite Hassets in Hvalues. }
  assert ((assets_for_point self lon lat WGS84_CRS st).1 = inr assets) as Ha
    by (by rewrite Hassets).
  destruct (decide (assets = [])) as [->|Hne].
  { unfold point, bind in Hvalues. by rewrite Hassets in Hvalues. }
  pose proof (assets_for_point_NoDup self lon lat WGS84_CRS st assets Hexp Hfresh Ha) as Hnd.
  set (allowed := match allowed_exceptions with
                  | None => [PointOutsideBounds]
                  | Some given => given
                  end).
  assert (forall asset e, asset ∈ assets ->
            point_value self lon lat coord_crs asset = inl e -> e ∈ allowed) as Hall.
  { intros asset e Hin He.
    destruct (point_outcome self lon lat false coord_crs allowed_exceptions st assets
                Ha Hne) as [Hout _]. cbv zeta in Hout. fold allowed in Hout.
    rewrite Hvalues in Hout.
    destruct (filter_tasks _ allowed) as [e1|vals] eqn:Hf; [done|].
    apply (filter_tasks_inr _ _ _ Hf e asset).
    apply list_elem_of_In, in_map_iff. exists asset. split; [by rewrite He|].
    by apply list_elem_of_In. }
  destruct (collect_values self lon lat coord_crs allowed assets Hnd Hall)
    as (vals & Hvals & Hfold).
  destruct (collect_values self lon lat coord_crs allowed (reverse assets))
    as (rvals & Hrvals & Hrfold).
  { by rewrite reverse_Permutation. }
  { intros a e Hin. rewrite elem_of_reverse in Hin. by apply Hall. }
  destruct (point_outcome self lon lat false coord_crs allowed_exceptions st assets Ha Hne)
    as [Hout _].
  destruct (point_outcome self lon lat true coord_crs allowed_exceptions st assets Ha Hne)
    as [Hrout _].
  cbv zeta in Hout, Hrout. fold allowed in Hout, Hrout.
  rewrite Hvals, (Hfold []) in Hout by (intros a _; apply not_elem_of_nil).
  rewrite Hrvals, (Hrfold []) in Hrout by (intros a _; apply not_elem_of_nil).
  rewrite Hvalues in Hout. injection Hout as ->.
  rewrite Hrout. simpl. f_equal. unfold successful_values. apply omap_reverse.
Qed.

(** Witness of X22: the point (0, 0) of the demo index with both failures
    allowed. *)
Lemma point_reverse_witness :
  (@point demo_externals (demo_backend demo_tiles) (Q2Qc 0) (Q2Qc 0) true WGS84_CRS None
     demo_state).1
  = inr (reverse [("b.tif"%string, 7)]).
Proof.
  apply (@point_reverse demo_externals (demo_backend demo_tiles) (Q2Qc 0) (Q2Qc 0)
           WGS84_CRS None demo_state [("b.tif"%string, 7)]
           demo_expire_drops_only (demo_cache_fresh _) eq_refl).
Defined.

(** ** Bounds of tiles, footprints of datasets *)









Lemma _filter_futures_outcomes {A} (tasks : list (string + A)) :
  forall warnings,
    (_filter_futures tasks warnings).1
    = omap (fun r => match r with inr value => Some value | inl _ => None end) tasks
    /\ (_filter_futures tasks warnings).2
       = warnings ++ omap (fun r => match r with inl err => Some err | inr _ => None end)
                          tasks.
Proof.
  induction tasks as [|[err|value] rest IH]; intros warnings; simpl.
  - by rewrite app_nil_r.
  - destruct (IH (warnings ++ [err])) as [-> ->]. by rewrite <- app_assoc.
  - destruct (IH warnings) as [H1 H2].
    destruct (_filter_futures rest warnings) as [values warnings']. simpl in *.
    by rewrite H1, H2.
Qed.

Lemma get_dataset_info_outcome (open_dataset : string -> string + Dataset)
    (truncate_lnglat : Qc -> Qc -> Qc * Qc) (src_path : string) :
  match open_dataset src_path with
  | inl err => get_dataset_info open_dataset truncate_lnglat src_path = inl err
  | inr src =>
    exists footprint,
      get_dataset_info open_dataset truncate_lnglat src_path = inr footprint
      /\ Footprint.path footprint = src_path
      /\ length (Footprint.coordinates footprint) = 5%nat
      /\ head (Footprint.coordinates footprint) = last (Footprint.coordinates footprint)
      /\ src = {| geographic_bounds := Footprint.bounds footprint;
                  dataset_minzoom := Footprint.minzoom footprint;
                  dataset_maxzoom := Footprint.maxzoom footprint;
                  dtype := Footprint.datatype footprint |}
  end.
Proof.
  unfold get_dataset_info. destruct (open_dataset src_path) as [err|src]; [done|].
  eexists. split; [done|]. simpl. split_and!; [done|done|done|]. by destruct src.
Qed.

(** X24. [get_footprints] never fails on a dataset that cannot be read:
    the dataset is left out and one warning is logged for it. The footprints
    come in the order of the dataset list, each with the path of its dataset
    and a closed ring of five positions. *)
Theorem get_footprints_in_order (open_dataset : string -> string + Dataset)
    (truncate_lnglat : Qc -> Qc -> Qc * Qc) (dataset_list : list string)
    (warnings : list string) :
  let out := get_footprints open_dataset truncate_lnglat dataset_list warnings in
  map Footprint.path out.1
  = filter (fun src_path => match open_dataset src_path with
                            | inl _ => false
                            | inr _ => true
                            end = true) dataset_list
  /\ out.2 = warnings ++ omap (fun src_path => match open_dataset src_path with
                                               | inl err => Some err
                                               | inr _ => None
                                               end) dataset_list
  /\ (length out.1 + length out.2 = length dataset_list + length warnings)%nat
  /\ forall footprint, footprint ∈ out.1 ->
       length (Footprint.coordinates footprint) = 5%nat
       /\ head (Footprint.coordinates footprint) = last (Footprint.coordinates footprint)
       /\ open_dataset (Footprint.path footprint)
          = inr {| geographic_bounds := Footprint.bounds footprint;
                   dataset_minzoom := Footprint.minzoom footprint;
                   dataset_maxzoom := Footprint.maxzoom footprint;
                   dtype := Footprint.datatype footprint |}.
Proof.
  cbv zeta. unfold get_footprints.
  destruct (_filter_futures_outcomes
              (map (get_dataset_info open_dataset truncate_lnglat) dataset_list) warnings)
    as [-> ->].
  rewrite length_app.
  assert (forall src_path rest,
            get_dataset_info open_dataset truncate_lnglat <$> (src_path :: rest)
            = get_dataset_info open_dataset truncate_lnglat src_path
              :: (get_dataset_info open_dataset truncate_lnglat <$> rest)) as Hcons by done.
  change (map (get_dataset_info open_dataset truncate_lnglat) dataset_list)
    with (get_dataset_info open_dataset truncate_lnglat <$> dataset_list).
  split_and!.
  - induction dataset_list as [|src_path rest IH]; [done|].
    rewrite filter_cons, Hcons. cbn [omap list_omap].
    pose proof (get_dataset_info_outcome open_dataset truncate_lnglat src_path) as Hinfo.
    destruct (open_dataset src_path) as [err|src].
    + rewrite Hinfo. by rewrite decide_False by done.
    + destruct Hinfo as (f & -> & Hpath & _). rewrite decide_True by done.
      simpl. by rewrite IH, Hpath.
  - f_equal. induction dataset_list as [|src_path rest IH]; [done|].
    rewrite Hcons. cbn [omap list_omap].
    pose proof (get_dataset_info_outcome open_dataset truncate_lnglat src_path) as Hinfo.
    destruct (open_dataset src_path) as [err|src].
    + rewrite Hinfo. by rewrite IH.
    + destruct Hinfo as (f & -> & _). by rewrite IH.
  - induction dataset_list as [|src_path rest IH]; [simpl; lia|].
    rewrite Hcons. cbn [omap list_omap].
    destruct (get_dataset_info open_dataset truncate_lnglat src_path); simpl in *; lia.
  - induction dataset_list as [|src_path rest IH]; [by intros f ?%elem_of_nil|].
    rewrite Hcons. cbn [omap list_omap].
    pose proof (get_dataset_info_outcome open_dataset truncate_lnglat src_path) as Hinfo.
    destruct (open_dataset src_path) as [err|src] eqn:Hopen.
    + by rewrite Hinfo.
    + destruct Hinfo as (f & -> & Hpath & Hlen & Hring & Hsrc).
      intros f' [->|Hf]%elem_of_cons; [|by apply IH].
      rewrite Hpath, Hopen, Hsrc. done.
Qed.

(** ** Boxes that cover no tile, or one *)

Lemma py_range_empty (a b : Z) : b <= a -> py_range a b = [].
Proof.
  intros Hba. unfold py_range. by replace (Z.to_nat (b - a)) with 0%nat by lia.
Qed.

Lemma py_range_single (a : Z) : py_range a (a + 1) = [a].
Proof.
  unfold py_range. replace (Z.to_nat (a + 1 - a)) with 1%nat by lia.
  simpl. f_equal. lia.
Qed.

Lemma bbox_tiles_empty (tl_tile br_tile : Tile) (zoom : Z) :
  tile_x br_tile < tile_x tl_tile \/ tile_y br_tile < tile_y tl_tile ->
  bbox_tiles tl_tile br_tile zoom = [].
Proof.
  intros Hinv. unfold bbox_tiles. apply concat_map_nil. intros x Hin.
  destruct Hinv as [Hx|Hy].
  - rewrite py_range_empty in Hin by lia. by apply elem_of_nil in Hin.
  - by rewrite py_range_empty by lia.
Qed.

(** X25. A box whose corners come out in the wrong order (the tile of its
    right bottom corner lies left of, or above, the tile of its left top
    corner, as when the caller swaps minimum and maximum) covers no tile:
    [assets_for_bbox] returns the empty list instead of raising, looks nothing
    up and leaves the cache as it was. *)
Theorem assets_for_bbox_inverted `{Ext : Externals} (self : BaseBackend)
    (xmin ymin xmax ymax : Qc) (coord_crs : CRS) (st : State) (tl_tile br_tile : Tile) :
  corner_tiles self xmin ymin xmax ymax coord_crs = (tl_tile, br_tile) ->
  tile_x br_tile < tile_x tl_tile \/ tile_y br_tile < tile_y tl_tile ->
  assets_for_bbox self xmin ymin xmax ymax coord_crs st = (inr [], st).
Proof.
  intros Hcorners Hinv. unfold assets_for_bbox. rewrite Hcorners.
  by rewrite bbox_tiles_empty.
Qed.

(** Witness of X25: on the demo index, the box from 6 to 5 in longitude. *)
Lemma assets_for_bbox_inverted_witness :
  @assets_for_bbox demo_externals (demo_backend demo_tiles)
    (Q2Qc (inject_Z 6)) (Q2Qc (inject_Z 3)) (Q2Qc (inject_Z 5)) (Q2Qc (inject_Z 3))
    WGS84_CRS demo_state
  = (inr [], demo_state).
Proof.
  apply (@assets_for_bbox_inverted demo_externals (demo_backend demo_tiles)
           (Q2Qc (inject_Z 6)) (Q2Qc (inject_Z 3)) (Q2Qc (inject_Z 5)) (Q2Qc (inject_Z 3))
           WGS84_CRS demo_state (mkTile 6 3 4) (mkTile 5 3 4) eq_refl).
  left. simpl. lia.
Defined.

(** X26. A box reduced to a point is a point query: in the geographic CRS of
    the backend, and with a tile matrix set that returns tiles at the zoom
    asked for, [assets_for_bbox] on the box (lng, lat, lng, lat) returns what
    [assets_for_point] returns for (lng, lat). *)
Theorem assets_for_bbox_of_point `{Ext : Externals} (self : BaseBackend) (lng lat : Qc)
    (st : State) :
  expire_drops_only ->
  cache_fresh self st ->
  tile_z (tms_tile (tms self) lng lat (quadkey_zoom self)) = quadkey_zoom self ->
  (assets_for_bbox self lng lat lng lat (geographic_crs self) st).1
  = (assets_for_point self lng lat (geographic_crs self) st).1.
Proof.
  intros Hexp Hfresh Hzoom.
  unfold assets_for_bbox, assets_for_point, corner_tiles, geographic_bbox, transform_point.
  rewrite !decide_False by (by intros Hne; apply Hne).
  set (t := tms_tile (tms self) lng lat (quadkey_zoom self)) in *.
  unfold bbox_tiles. rewrite !py_range_single. cbn [map concat app mapM]. rewrite <- Hzoom.
  destruct (get_assets_cache_fresh self (tile_x t) (tile_y t) (tile_z t) st Hexp Hfresh)
    as [Hval _].
  pose proof (get_assets_uncached_result self (tile_x t) (tile_y t) (tile_z t)) as [_ Hnd].
  unfold bind, ret. cbn [tile_x tile_y tile_z].
  destruct (get_assets self (tile_x t) (tile_y t) (tile_z t) st) as [[e|assets] st1];
    simpl in *; [done|].
  f_equal. rewrite app_nil_r. apply dict_fromkeys_id. apply Hnd. by rewrite Hval.
Qed.

(** Witness of X26: the point (5, 3) of the demo index. *)
Lemma assets_for_bbox_of_point_witness :
  (@assets_for_bbox demo_externals (demo_backend demo_tiles)
     (Q2Qc (inject_Z 5)) (Q2Qc (inject_Z 3)) (Q2Qc (inject_Z 5)) (Q2Qc (inject_Z 3))
     WGS84_CRS demo_state).1
  = (@assets_for_point demo_externals (demo_backend demo_tiles)
       (Q2Qc (inject_Z 5)) (Q2Qc (inject_Z 3)) WGS84_CRS demo_state).1.
Proof.
  apply (@assets_for_bbox_of_point demo_externals (demo_backend demo_tiles)
           (Q2Qc (inject_Z 5)) (Q2Qc (inject_Z 3)) demo_state
           demo_expire_drops_only (demo_cache_fresh _) eq_refl).
Defined.
